(** * CO2FreiMon firmware graphics: Label layout, ValueBar refresh, BMP streaming

    Shallow embedding of [Firmware/Graphics.cpp] and [Firmware/bmpDraw.cpp].

    Conventions.
    - C integers are [Z] with the conversion to the declared type written out
      ([u8], [u16], [u32], [i16], [i32]).  [int] is taken to be 32 bits wide,
      as on the ARM and ESP boards that carry the 480 x 320 FeatherWing;
      signed overflow is taken to wrap in two's complement.
    - An Arduino [String] is a Rocq [string], one [ascii] per byte.
    - The display driver and the SD library are not part of the repository.
      What the code observes of the display (text measurement, cursor
      advance, extent) is the interface [DISPLAY_TYPE]; what it commands is
      recorded as a list of operations. *)

From Stdlib Require Import ZArith List String Ascii Bool Lia.
From Stdlib Require Import Floats.SpecFloat.
Import ListNotations.
Open Scope Z_scope.

(** ** Fixed-width integers *)

Module Machine.

Definition u8 (z : Z) : Z := z mod 2 ^ 8.
Definition u16 (z : Z) : Z := z mod 2 ^ 16.
Definition u32 (z : Z) : Z := z mod 2 ^ 32.
Definition i16 (z : Z) : Z := (z + 2 ^ 15) mod 2 ^ 16 - 2 ^ 15.
Definition i32 (z : Z) : Z := (z + 2 ^ 31) mod 2 ^ 32 - 2 ^ 31.

Definition is_u8 (z : Z) : Prop := 0 <= z < 2 ^ 8.
Definition is_u16 (z : Z) : Prop := 0 <= z < 2 ^ 16.
Definition is_i16 (z : Z) : Prop := - 2 ^ 15 <= z < 2 ^ 15.

End Machine.
Import Machine.

(** ** Arduino [String] operations used by the firmware *)

Module WString.

Definition length (s : string) : Z := Z.of_nat (String.length s).

(** [s[i]]: the byte at [i], or 0 when [i] is past the end. *)
Definition charAt (s : string) (i : Z) : ascii :=
  if i <? 0 then zero
  else match String.get (Z.to_nat i) s with
       | Some c => c
       | None => zero
       end.

(** [s.substring(left, right)] for [left <= right]: the bytes [left .. right-1],
    cut at the end of [s]. *)
Definition substring (s : string) (left right : Z) : string :=
  String.substring (Z.to_nat left) (Z.to_nat (right - left)) s.

(** [s.substring(left)]. *)
Definition substringFrom (s : string) (left : Z) : string :=
  substring s left (Z.max left (length s)).

(** [String(char c)]: built from the C string [{c, 0}], hence empty for c = 0. *)
Definition ofChar (c : ascii) : string :=
  if Ascii.eqb c zero then EmptyString else String c EmptyString.

(** The two bytes of the UTF-8 encoding of the degree sign, and the
    single-byte code the display font uses for it. *)
Definition deg0 : ascii := ascii_of_nat 194.
Definition deg1 : ascii := ascii_of_nat 176.
Definition deg_glyph : ascii := ascii_of_nat 248.

(** [s.replace(find, by)] specialised to the two-byte [find] and one-byte
    [by] of CORRECT_DEGREE_CHAR: every occurrence, left to right. *)
Fixpoint replaceDegree (s : string) : string :=
  match s with
  | EmptyString => EmptyString
  | String c rest =>
      match rest with
      | String c' rest' =>
          if (Ascii.eqb c deg0 && Ascii.eqb c' deg1)%bool
          then String deg_glyph (replaceDegree rest')
          else String c (replaceDegree rest)
      | EmptyString => String c EmptyString
      end
  end.

Definition digit (d : Z) : ascii := ascii_of_nat (48 + Z.to_nat d).

(** Decimal digits of [n], most significant first, prepended to [acc]. *)
Fixpoint utoa (fuel : nat) (n : Z) (acc : string) : string :=
  match fuel with
  | O => acc
  | S fuel' =>
      let acc' := String (digit (n mod 10)) acc in
      if n / 10 =? 0 then acc' else utoa fuel' (n / 10) acc'
  end.

(** Modelled from the spec: [String(val, DEC)] of the Arduino core is not under
    src/; it is the decimal representation of the unsigned value (at most ten
    digits for 32 bits). *)
Definition ofUnsigned (val : Z) : string := utoa 10 val EmptyString.

(** Round-to-nearest-even of [num / den] for [den > 0]. *)
Definition roundDiv (num den : Z) : Z :=
  let q := num / den in
  let r := num mod den in
  if (den <? 2 * r) || ((den =? 2 * r) && Z.odd q) then q + 1 else q.

(** [|v| * 10^places], rounded to an integer, for a finite [v]. *)
Definition scaledMagnitude (m : positive) (e : Z) (places : Z) : Z :=
  if 0 <=? e then Z.pos m * 2 ^ e * 10 ^ places
  else roundDiv (Z.pos m * 10 ^ places) (2 ^ (- e)).

Definition padLeft (width : nat) (c : ascii) (s : string) : string :=
  (String.concat EmptyString
     (repeat (String c EmptyString) (width - String.length s)) ++ s)%string.

Definition fixedDigits (scaled places : Z) : string :=
  let int_part := utoa 40 (scaled / 10 ^ places) EmptyString in
  if places =? 0 then int_part
  else (int_part ++ "." ++
        padLeft (Z.to_nat places) "0"%char
                (utoa 40 (scaled mod 10 ^ places) EmptyString))%string.

(** Modelled from the spec: [String(val, places)] for a [float] is not under
    src/ (Arduino core, [dtostrf] with minimum width [places + 2]); it is the
    fixed-point decimal representation with exactly [places] decimals.  The
    [float] is given by its IEEE-754 value. *)
Definition ofFloat (val : spec_float) (places : Z) : string :=
  let sign (s : bool) := if s then "-"%string else EmptyString in
  let body :=
    match val with
    | S754_zero s => (sign s ++ fixedDigits 0 places)%string
    | S754_infinity s => (sign s ++ "inf")%string
    | S754_nan => "nan"%string
    | S754_finite s m e =>
        (sign s ++ fixedDigits (scaledMagnitude m e places) places)%string
    end in
  padLeft (Z.to_nat (places + 2)) " "%char body.

End WString.

(** ** The display surface *)

Definition CHAR_W : Z := 6.
Definition CHAR_H : Z := 8.

Definition LEFT : Z := 0.
Definition RIGHT : Z := 1.
Definition TOP : Z := 0.
Definition BOTTOM : Z := 2.

Definition DEC : Z := 10.

(** What the firmware reads back from the display driver.  The text size is
    passed explicitly; the driver keeps it as state set by [setTextSize]. *)
Class DISPLAY_TYPE : Type := {
  (** [getTextBounds(str, x, y, &x1, &y1, &w, &h)] at the given text size *)
  getTextBounds : Z -> string -> Z -> Z -> Z * Z * Z * Z;
  (** cursor after [print(str)] at the given text size from the given cursor *)
  cursorAfterPrint : Z -> Z * Z -> string -> Z * Z;
  (** extent of the panel in pixels *)
  panel_width : Z;
  panel_height : Z
}.

(** Commands sent to the display by Label and the widgets. *)
Inductive DisplayOp : Type :=
| OpSetCursor (x y : Z)
| OpSetTextSize (s : Z)
| OpSetTextColor (c : Z)
| OpPrint (s : string)
| OpPrintChar (c : ascii)
| OpFillRect (x y w h color : Z)
| OpFillRoundRect (x y w h r color : Z).

(** Driver state the firmware depends on, and the commands issued so far. *)
Record Display : Type := mkDisplay {
  cursor : Z * Z;
  textSize : Z;
  ops : list DisplayOp
}.

Definition emit (op : DisplayOp) (d : Display) : Display :=
  mkDisplay (cursor d) (textSize d) (ops d ++ [op]).

(** The driver calls the firmware makes, as state transformers. *)
Module Tft.
Section Calls.
Context `{DISPLAY_TYPE}.

(** [setCursor(int16_t, int16_t)] *)
Definition setCursor (x y : Z) (d : Display) : Display :=
  emit (OpSetCursor (i16 x) (i16 y))
       (mkDisplay (i16 x, i16 y) (textSize d) (ops d)).

(** [setTextSize(uint8_t)] *)
Definition setTextSize (s : Z) (d : Display) : Display :=
  emit (OpSetTextSize (u8 s)) (mkDisplay (cursor d) (u8 s) (ops d)).

(** [setTextColor(uint16_t)] *)
Definition setTextColor (c : Z) (d : Display) : Display :=
  emit (OpSetTextColor (u16 c)) d.

(** [print(const String&)] *)
Definition print (s : string) (d : Display) : Display :=
  emit (OpPrint s)
       (mkDisplay (cursorAfterPrint (textSize d) (cursor d) s) (textSize d) (ops d)).

(** [print(char)] *)
Definition printChar (c : ascii) (d : Display) : Display :=
  emit (OpPrintChar c)
       (mkDisplay (cursorAfterPrint (textSize d) (cursor d) (String c EmptyString))
                  (textSize d) (ops d)).

Definition getCursorX (d : Display) : Z := i16 (fst (cursor d)).
Definition getCursorY (d : Display) : Z := i16 (snd (cursor d)).

(** [fillRect(int16_t, int16_t, int16_t, int16_t, uint16_t)] *)
Definition fillRect (x y w h color : Z) (d : Display) : Display :=
  emit (OpFillRect (i16 x) (i16 y) (i16 w) (i16 h) (u16 color)) d.

(** [fillRoundRect(int16_t, int16_t, int16_t, int16_t, int16_t, uint16_t)] *)
Definition fillRoundRect (x y w h r color : Z) (d : Display) : Display :=
  emit (OpFillRoundRect (i16 x) (i16 y) (i16 w) (i16 h) (i16 r) (u16 color)) d.

(** [width()] and [height()], both [int16_t] *)
Definition width : Z := i16 panel_width.
Definition height : Z := i16 panel_height.

(** [getTextBounds] at the driver's current text size; the outputs are written
    to [int16_t x1, y1] and [uint16_t w, h]. *)
Definition textBounds (s : string) (x y : Z) (d : Display) : Z * Z * Z * Z :=
  let '(x1, y1, w, h) := getTextBounds (textSize d) s (i16 x) (i16 y) in
  (i16 x1, i16 y1, u16 w, u16 h).

End Calls.
End Tft.

(** ** Label (Graphics.cpp) *)

Module Label.

Record t : Type := mk {
  _x : Z;           (* uint16_t: upper left corner of the label *)
  _y : Z;           (* uint16_t *)
  _color : Z;       (* uint16_t *)
  _size : Z;        (* uint8_t *)
  _name : string;
  _subscript : Z;   (* uint8_t: index of subscripted char + 1, 0 for none *)
  _alignment : Z    (* uint8_t *)
}.

(** Every member holds a value of its declared type. *)
Definition wf (l : t) : Prop :=
  is_u16 (_x l) /\ is_u16 (_y l) /\ is_u16 (_color l) /\
  is_u8 (_size l) /\ is_u8 (_subscript l) /\ is_u8 (_alignment l).

Definition set_x (l : t) (x : Z) : t :=
  mk x (_y l) (_color l) (_size l) (_name l) (_subscript l) (_alignment l).
Definition set_y (l : t) (y : Z) : t :=
  mk (_x l) y (_color l) (_size l) (_name l) (_subscript l) (_alignment l).
Definition set_name (l : t) (name : string) : t :=
  mk (_x l) (_y l) (_color l) (_size l) name (_subscript l) (_alignment l).
Definition set_subscript (l : t) (subscript : Z) : t :=
  mk (_x l) (_y l) (_color l) (_size l) (_name l) subscript (_alignment l).
Definition set_alignment (l : t) (alignment : Z) : t :=
  mk (_x l) (_y l) (_color l) (_size l) (_name l) (_subscript l) alignment.

(** CORRECT_DEGREE_CHAR(str) *)
Definition CORRECT_DEGREE_CHAR (str : string) : string :=
  WString.replaceDegree str.

(** [Label::correctForAlignment(void)] *)
Definition correctForAlignment (l : t) : t :=
  let l1 :=
    if Z.land (_alignment l) RIGHT =? RIGHT then
      let x1 :=
        u16 (_x l - u32 (u32 (WString.length (_name l) * _size l) * CHAR_W)) in
      if negb (_subscript l =? 0) then set_x l (u16 (x1 - CHAR_W))
      else set_x l x1
    else l in
  if Z.land (_alignment l1) BOTTOM =? BOTTOM
  then set_y l1 (u16 (_y l1 - _size l1 * CHAR_H))
  else l1.

(** [Label::correctForAlignment(String name, uint8_t subscript)] *)
Definition correctForAlignment_name (l : t) (name : string) (subscript : Z) : t :=
  if Z.land (_alignment l) RIGHT =? RIGHT then
    let dif :=
      i16 (u32 (u32 (u32 (WString.length name - WString.length (_name l))
                     * _size l) * CHAR_W)) in
    let dif :=
      if (subscript =? 0) && negb (_subscript l =? 0)
      then i16 (dif + CHAR_W) else dif in
    let dif :=
      if negb (subscript =? 0) && (_subscript l =? 0)
      then i16 (dif - CHAR_W) else dif in
    set_x l (u16 (_x l - dif))
  else l.

Section Methods.
Context `{DISPLAY_TYPE}.

(** [Label::print] *)
Definition print (l : t) (d : Display) : Display :=
  let d := Tft.setCursor (_x l) (_y l) d in
  let d := Tft.setTextSize (_size l) d in
  let d := Tft.setTextColor (_color l) d in
  if negb (_subscript l =? 0) then
    let d := Tft.print (WString.substring (_name l) 0 (_subscript l - 1)) d in
    let x := Tft.getCursorX d in
    let y := Tft.getCursorY d in
    let h := u16 (8 * _size l) in
    let d := Tft.setCursor x (y + h / 2) d in
    let d := Tft.setTextSize (_size l - 1) d in
    let d := Tft.printChar (WString.charAt (_name l) (_subscript l - 1)) d in
    let x := Tft.getCursorX d in
    let d := Tft.setCursor x y d in
    let d := Tft.setTextSize (_size l) d in
    Tft.print (WString.substringFrom (_name l) (_subscript l)) d
  else
    Tft.print (_name l) d.

(** [Label::erase] *)
Definition erase (l : t) (color : Z) (d : Display) : Display :=
  let d := Tft.setTextSize (_size l) d in
  let '(x, y, w, h) := Tft.textBounds (_name l) (_x l) (_y l) d in
  if negb (_subscript l =? 0) then
    let d := Tft.setTextSize (_size l - 1) d in
    let '(x1, y1, w1, h1) :=
      Tft.textBounds
        (WString.ofChar (WString.charAt (_name l) (_subscript l - 1)))
        (_x l) (_y l) d in
    let h := u16 (h / 2 + h1) in
    let w := u16 (w - CHAR_W) in
    Tft.fillRect x y w h color d
  else
    Tft.fillRect x y w h color d.

(** [Label::Label(uint16_t x, uint16_t y, String name, uint8_t size,
                  uint16_t color, uint8_t subscript, uint8_t alignment)] *)
Definition ctor (x y : Z) (name : string) (size color subscript alignment : Z)
    (d : Display) : t * Display :=
  let l := mk (u16 x) (u16 y) (u16 color) (u8 size) name
              (u8 subscript) (u8 alignment) in
  let l := correctForAlignment l in
  let l := set_name l (CORRECT_DEGREE_CHAR (_name l)) in
  (l, print l d).

(** [Label::Label(uint16_t x, uint16_t y, uint16_t val, uint8_t size,
                  uint16_t color, uint8_t alignment)] *)
Definition ctor_uint16 (x y val size color alignment : Z) (d : Display)
    : t * Display :=
  ctor x y (if 0 <? u16 val then WString.ofUnsigned (u16 val) else " "%string)
       size color 0 alignment d.

(** [Label::Label(uint16_t x, uint16_t y, float val, uint8_t size,
                  uint16_t color, uint8_t alignment)] *)
Definition ctor_float (x y : Z) (val : spec_float) (size color alignment : Z)
    (d : Display) : t * Display :=
  ctor x y (if SFltb (S754_zero false) val then WString.ofFloat val 2
            else " "%string)
       size color 0 alignment d.

End Methods.

(** [Label::changePosition(int16_t x, int16_t y, uint8_t alignment)] *)
Definition changePosition (l : t) (x y alignment : Z) : t :=
  let l := set_x l (u16 (i16 x)) in
  let l := set_y l (u16 (i16 y)) in
  let l := set_alignment l (u8 alignment) in
  correctForAlignment l.

(** [Label::changeName(String name, uint8_t subscript)] *)
Definition changeName (l : t) (name : string) (subscript : Z) : t :=
  let name := CORRECT_DEGREE_CHAR name in
  let l := correctForAlignment_name l name (u8 subscript) in
  let l := set_name l name in
  set_subscript l (u8 subscript).

(** [Label::changeName(uint16_t val)] *)
Definition changeName_uint16 (l : t) (val : Z) : t :=
  changeName l (WString.ofUnsigned (u16 val)) 0.

(** [Label::changeName(float val)] *)
Definition changeName_float (l : t) (val : spec_float) : t :=
  changeName l (WString.ofFloat val 2) 0.

End Label.

(** ** ValueBar (Graphics.cpp) *)

Module ValueBar.

Record t : Type := mk {
  _x : Z;                  (* int16_t *)
  _y : Z;                  (* int16_t *)
  _w : Z;                  (* uint16_t *)
  _h : Z;                  (* uint16_t *)
  _color : Z;              (* uint16_t *)
  _labels : Label.t * Label.t * Label.t   (* Label _labels[3]: name, value, unit *)
}.

(** [_labels[0]], [_labels[1]], [_labels[2]] and [_labels[1] = l]. *)
Definition labels_0 (vb : t) : Label.t := fst (fst (_labels vb)).
Definition labels_1 (vb : t) : Label.t := snd (fst (_labels vb)).
Definition labels_2 (vb : t) : Label.t := snd (_labels vb).

Definition set_labels_1 (vb : t) (l : Label.t) : t :=
  mk (_x vb) (_y vb) (_w vb) (_h vb) (_color vb)
     (labels_0 vb, l, labels_2 vb).

Definition set_color (vb : t) (color : Z) : t :=
  mk (_x vb) (_y vb) (_w vb) (_h vb) color (_labels vb).

Section Methods.
Context `{DISPLAY_TYPE}.

(** [ValueBar::drawBackground] *)
Definition drawBackground (vb : t) (d : Display) : Display :=
  Tft.fillRoundRect (_x vb) (_y vb) (_w vb) (_h vb) 10 (_color vb) d.

(** [ValueBar::erase] *)
Definition erase (vb : t) (color : Z) (d : Display) : Display :=
  Tft.fillRoundRect (_x vb) (_y vb) (_w vb) (_h vb) 10 color d.

(** [ValueBar::ValueBar]: the members are initialised, the background is
    drawn, then the three labels are constructed in turn. *)
Definition ctor (x y w h color textColor : Z) (name unit : string)
    (subscript : Z) (d : Display) : t * Display :=
  let x_ := i16 x in
  let y_ := i16 y in
  let w_ := u16 w in
  let h_ := u16 h in
  let d := Tft.fillRoundRect x_ y_ w_ h_ 10 (u16 color) d in
  let size := 4 in
  let y := i16 (y_ + (h_ + size * CHAR_H) / 2) in
  let x := i16 (x_ + 15) in
  let '(l0, d) := Label.ctor x y name (size - 1) textColor subscript BOTTOM d in
  let x := i16 (x_ + (w_ + 5 * size * CHAR_W) / 2) in
  let '(l1, d) :=
    Label.ctor x y " " size textColor 0 (Z.lor RIGHT BOTTOM) d in
  let x := i16 (x_ + w_ - 3 * (size - 1) * CHAR_W - 10) in
  let '(l2, d) := Label.ctor x y unit (size - 1) textColor 0 BOTTOM d in
  (mk x_ y_ w_ h_ (u16 color) (l0, l1, l2), d).

(** [ValueBar::draw] *)
Definition draw (vb : t) (d : Display) : Display :=
  let d := drawBackground vb d in
  let d := Label.print (labels_0 vb) d in
  Label.print (labels_2 vb) d.

(** [ValueBar::changeColor] *)
Definition changeColor (vb : t) (color : Z) (d : Display) : t * Display :=
  if negb (u16 color =? _color vb) then
    let vb := set_color vb (u16 color) in
    (vb, draw vb d)
  else (vb, d).

(** [ValueBar::refreshValue(uint16_t val)] *)
Definition refreshValue_uint16 (vb : t) (val : Z) (d : Display)
    : t * Display :=
  let d := Label.erase (labels_1 vb) (_color vb) d in
  let l := Label.changeName_uint16 (labels_1 vb) val in
  (set_labels_1 vb l, Label.print l d).

(** [ValueBar::refreshValue(float val)] *)
Definition refreshValue_float (vb : t) (val : spec_float) (d : Display)
    : t * Display :=
  let d := Label.erase (labels_1 vb) (_color vb) d in
  let l := Label.changeName_float (labels_1 vb) val in
  (set_labels_1 vb l, Label.print l d).

End Methods.

End ValueBar.

(** ** bmpReader (bmpDraw.cpp) *)

Module bmpReader.

Definition BUFFPIXEL : Z := 50.

(** [sizeof(sdbuffer)] for [uint8_t sdbuffer[3*BUFFPIXEL]] *)
Definition sizeof_sdbuffer : Z := 3 * BUFFPIXEL.

(** Everything [draw] does on the bus shared by the SD card and the display,
    in program order. *)
Inductive BusOp : Type :=
| SdOpen (found : bool)         (* SD.open(filename) *)
| SdRead (pos count : Z)        (* [count] bytes transferred from offset [pos] *)
| SdSeek (pos : Z)              (* bmpFile.seek(pos) *)
| SdClose                       (* bmpFile.close() *)
| StartWrite
| EndWrite
| SetAddrWindow (x y w h : Z)
| PushColor (c : Z).

(** An open file of the SD library: its bytes and the read position. *)
Record File : Type := mkFile {
  content : list Z;
  position : Z
}.

Definition size (f : File) : Z := Z.of_nat (List.length (content f)).

(** Computations on the open file that also use the bus. *)
Definition M (A : Type) : Type := File -> A * File * list BusOp.

Definition ret {A : Type} (a : A) : M A := fun f => (a, f, []).

Definition bind {A B : Type} (m : M A) (k : A -> M B) : M B :=
  fun f =>
    let '(a, f1, t1) := m f in
    let '(b, f2, t2) := k a f1 in
    (b, f2, t1 ++ t2).

Notation "x <- m ;; k" := (bind m (fun x => k))
  (at level 61, m at next level, right associativity).

Definition op (o : BusOp) : M unit := fun f => (tt, f, [o]).

(** [f.read()]: the next byte, or -1 at the end of the file. *)
Definition read : M Z :=
  fun f =>
    match nth_error (content f) (Z.to_nat (position f)) with
    | Some b => (b, mkFile (content f) (position f + 1), [SdRead (position f) 1])
    | None => (-1, f, [SdRead (position f) 0])
    end.

(** [f.read(buf, nbyte)]: transfers what is left of the file, at most [nbyte]
    bytes, to the front of [buf]; the rest of [buf] keeps its contents. *)
Definition read_buf (buf : list Z) (nbyte : Z) : M (list Z) :=
  fun f =>
    let n := Z.min nbyte (size f - position f) in
    let got := firstn (Z.to_nat n) (skipn (Z.to_nat (position f)) (content f)) in
    (got ++ skipn (Z.to_nat n) buf,
     mkFile (content f) (position f + n),
     [SdRead (position f) n]).

(** [f.seek(pos)]: refused, leaving the position alone, past the end. *)
Definition seek (pos : Z) : M unit :=
  fun f =>
    (tt, if size f <? pos then f else mkFile (content f) pos, [SdSeek pos]).

(** [bmpReader::read16] *)
Definition read16 : M Z :=
  b0 <- read ;;
  b1 <- read ;;
  ret (u8 b0 + 2 ^ 8 * u8 b1).

(** [bmpReader::read32] *)
Definition read32 : M Z :=
  b0 <- read ;;
  b1 <- read ;;
  b2 <- read ;;
  b3 <- read ;;
  ret (u8 b0 + 2 ^ 8 * u8 b1 + 2 ^ 16 * u8 b2 + 2 ^ 24 * u8 b3).

(** [color565(r, g, b)] of the display driver (Adafruit_SPITFT): the 5-6-5
    packing of an 8-bit RGB triple. *)
Definition color565 (r g b : Z) : Z :=
  Z.lor (Z.lor (Z.shiftl (Z.land r 248) 8) (Z.shiftl (Z.land g 252) 3))
        (Z.shiftr b 3).

(** The pixel buffer and its read index, local to [draw]. *)
Record Buffer : Type := mkBuffer {
  sdbuffer : list Z;
  buffidx : Z
}.

Definition at_ (buf : list Z) (i : Z) : Z := nth (Z.to_nat i) buf 0.

(** The body of [for (col=0; col<w; col++)], [n] iterations. *)
Fixpoint pixels (n : nat) (b : Buffer) : M Buffer :=
  match n with
  | O => ret b
  | S n' =>
      b1 <- (if sizeof_sdbuffer <=? buffidx b then
               _ <- op EndWrite ;;
               buf <- read_buf (sdbuffer b) sizeof_sdbuffer ;;
               _ <- op StartWrite ;;
               ret (mkBuffer buf 0)
             else ret b) ;;
      let blue := at_ (sdbuffer b1) (buffidx b1) in
      let green := at_ (sdbuffer b1) (buffidx b1 + 1) in
      let red := at_ (sdbuffer b1) (buffidx b1 + 2) in
      _ <- op (PushColor (color565 red green blue)) ;;
      pixels n' (mkBuffer (sdbuffer b1) (u16 (buffidx b1 + 3)))
  end.

(** Offset of the scan line for output row [row]. *)
Definition row_pos (flip : bool) (bmpImageoffset bmpHeight rowSize row : Z) : Z :=
  if flip
  then u32 (bmpImageoffset + u32 (u32 (i32 (i32 (bmpHeight - 1) - row)) * rowSize))
  else u32 (bmpImageoffset + u32 (u32 row * rowSize)).

(** The body of [for (row=0; row<h; row++)], [n] iterations from [row]. *)
Fixpoint rows (flip : bool) (bmpImageoffset bmpHeight rowSize w : Z)
    (n : nat) (row : Z) (b : Buffer) : M Buffer :=
  match n with
  | O => ret b
  | S n' =>
      let pos := row_pos flip bmpImageoffset bmpHeight rowSize row in
      b1 <- (fun f =>
               if negb (position f =? pos) then
                 (_ <- op EndWrite ;;
                  _ <- seek pos ;;
                  _ <- op StartWrite ;;
                  ret (mkBuffer (sdbuffer b) sizeof_sdbuffer)) f
               else ret b f) ;;
      b2 <- pixels (Z.to_nat w) b1 ;;
      rows flip bmpImageoffset bmpHeight rowSize w n' (row + 1) b2
  end.

Section Draw.
Context `{DISPLAY_TYPE}.

(** [rowSize = (bmpWidth * 3 + 3) & ~3] *)
Definition rowSize_of (bmpWidth : Z) : Z :=
  u32 (Z.land (i32 (i32 (bmpWidth * 3) + 3)) (Z.lnot 3)).

(** From [goodBmp = true] to the last [endWrite]. *)
Definition stream (x y bmpImageoffset bmpWidth bmpHeight : Z)
    (sdbuffer0 : list Z) : M unit :=
  let rowSize := rowSize_of bmpWidth in
  let flip := negb (bmpHeight <? 0) in
  let bmpHeight := if bmpHeight <? 0 then i32 (- bmpHeight) else bmpHeight in
  let w := bmpWidth in
  let h := bmpHeight in
  let w := if Tft.width <=? i32 (i32 (x + w) - 1) then i32 (Tft.width - x) else w in
  let h := if Tft.height <=? i32 (i32 (y + h) - 1) then i32 (Tft.height - y) else h in
  _ <- op StartWrite ;;
  _ <- op (SetAddrWindow (u16 x) (u16 y) (u16 w) (u16 h)) ;;
  _ <- rows flip bmpImageoffset bmpHeight rowSize w (Z.to_nat h) 0
            (mkBuffer sdbuffer0 sizeof_sdbuffer) ;;
  op EndWrite.

(** The header parse of [draw] and what follows it, up to [bmpFile.close()]. *)
Definition parse (x y : Z) (sdbuffer0 : list Z) : M unit :=
  signature <- read16 ;;
  if signature =? 19778 (* 0x4D42 *) then
    _ <- read32 ;;
    _ <- read32 ;;
    bmpImageoffset <- read32 ;;
    _ <- read32 ;;
    bmpWidth <- read32 ;;
    bmpHeight <- read32 ;;
    planes <- read16 ;;
    if planes =? 1 then
      bmpDepth <- read16 ;;
      if u8 bmpDepth =? 24 then
        compression <- read32 ;;
        if compression =? 0 then
          stream x y bmpImageoffset (i32 bmpWidth) (i32 bmpHeight) sdbuffer0
        else ret tt
      else ret tt
    else ret tt
  else ret tt.

(** [bmpReader::draw(filename, x, y)].  [SD] is the card: the bytes of each
    file that can be opened.  [sdbuffer0] is what the stack holds where
    [sdbuffer] is allocated.  The result is the bus traffic of the call. *)
Definition draw (SD : string -> option (list Z)) (sdbuffer0 : list Z)
    (filename : string) (x y : Z) : list BusOp :=
  let x := i16 x in
  let y := i16 y in
  if (Tft.width <=? x) || (Tft.height <=? y) then []
  else
    match SD filename with
    | None => [SdOpen false]
    | Some bytes =>
        let '(_, _, t) := parse x y sdbuffer0 (mkFile bytes 0) in
        SdOpen true :: t ++ [SdClose]
    end.

End Draw.

End bmpReader.

(** ** Concrete surfaces and inputs *)

(** Modelled from the spec: the driver's [getTextBounds] and cursor advance are
    not under src/; this display measures and advances by the fixed character
    cell of spec section 3 ([CHAR_W] by [CHAR_H] times the text size, no line
    wrap), on a 480 x 320 panel. *)
Definition cellDisplay : DISPLAY_TYPE := {|
  getTextBounds := fun size s x y =>
    (x, y, u16 (WString.length s * size * CHAR_W), u16 (size * CHAR_H));
  cursorAfterPrint := fun size c s =>
    (i16 (fst c + WString.length s * size * CHAR_W), snd c);
  panel_width := 480;
  panel_height := 320
|}.

(** A display on which nothing has been drawn yet. *)
Definition blank : Display := mkDisplay (0, 0) 1 [].

(** The measurement of [s] at text size [size] is the analytic cell-geometry
    footprint: anchored where asked, [len * size * CHAR_W] wide and
    [size * CHAR_H] high. *)
Definition cell_geometry `{DISPLAY_TYPE} (size : Z) (s : string) (x y : Z) : Prop :=
  getTextBounds size s x y = (x, y, WString.length s * size * CHAR_W, size * CHAR_H).

(** The two measurements [Label::erase] takes, both analytic. *)
Definition measured_by_cells `{DISPLAY_TYPE} (l : Label.t) : Prop :=
  cell_geometry (Label._size l) (Label._name l)
                (i16 (Label._x l)) (i16 (Label._y l)) /\
  (Label._subscript l <> 0 ->
   cell_geometry (u8 (Label._size l - 1))
                 (WString.ofChar (WString.charAt (Label._name l)
                                                 (Label._subscript l - 1)))
                 (i16 (Label._x l)) (i16 (Label._y l))).

(** "CO2" at size 3 with the "2" subscripted, anchored at (10, 20). *)
Definition label_CO2 : Label.t := Label.mk 10 20 65535 3 "CO2" 3 0.

(** "ppm" at size 3, no subscript, anchored at (10, 20). *)
Definition label_ppm : Label.t := Label.mk 10 20 65535 3 "ppm" 0 0.

(** Twenty-two characters at the largest text size: the analytic width
    22 * 255 * 6 = 33660 is a [uint16_t] but not an [int16_t]. *)
Definition label_wide : Label.t :=
  Label.mk 0 0 65535 255 "0123456789012345678901" 0 0.

(** The value label of a bar showing "12": size 4, right- and bottom-aligned,
    resolved to (100, 50). *)
Definition label_value : Label.t :=
  Label.mk 100 50 65535 4 "12" 0 (Z.lor RIGHT BOTTOM).

(** The [float] 3.5 = 0xE00000 * 2^-22 and the [float] +0.0. *)
Definition float_3_5 : spec_float := S754_finite false 14680064 (-22).
Definition float_0 : spec_float := S754_zero false.

(** ** BMP files and bus traces *)

Module Bmp.
Import bmpReader.

(** Little-endian fields as they lie in the file. *)
Definition le16 (v : Z) : list Z := [u8 v; u8 (v / 2 ^ 8)].
Definition le32 (v : Z) : list Z :=
  [u8 v; u8 (v / 2 ^ 8); u8 (v / 2 ^ 16); u8 (v / 2 ^ 24)].

(** The field of [n] bytes at offset [off] of [bytes], read little-endian. *)
Fixpoint field (n : nat) (off : nat) (bytes : list Z) : Z :=
  match n with
  | O => 0
  | S n' => u8 (nth off bytes 0) + 2 ^ 8 * field n' (S off) bytes
  end.

(** The header fields [draw] looks at, by their fixed offsets. *)
Definition signature (bytes : list Z) : Z := field 2 0 bytes.
Definition imageOffset (bytes : list Z) : Z := field 4 10 bytes.
Definition declaredWidth (bytes : list Z) : Z := i32 (field 4 18 bytes).
Definition declaredHeight (bytes : list Z) : Z := i32 (field 4 22 bytes).
Definition planes (bytes : list Z) : Z := field 2 26 bytes.
Definition bitDepth (bytes : list Z) : Z := field 2 28 bytes.
Definition compression (bytes : list Z) : Z := field 4 30 bytes.

(** Row stride: three bytes per pixel, rounded up to a multiple of four. *)
Definition rowStride (W : Z) : Z := (W * 3 + 3) / 4 * 4.

(** A complete header that passes the allow-list: signature "BM", one plane,
    24 bits per pixel, no compression. *)
Definition supported (bytes : list Z) : Prop :=
  (34 <= List.length bytes)%nat /\
  signature bytes = 19778 /\
  planes bytes = 1 /\
  bitDepth bytes = 24 /\
  compression bytes = 0.

(** The colour of the blue-green-red triple at offset [off]. *)
Definition pixel_at (bytes : list Z) (off : Z) : Z :=
  color565 (at_ bytes (off + 2)) (at_ bytes (off + 1)) (at_ bytes off).

(** The colours pushed, in order. *)
Fixpoint pushed (t : list BusOp) : list Z :=
  match t with
  | [] => []
  | PushColor c :: t' => c :: pushed t'
  | _ :: t' => pushed t'
  end.

(** Operations that address the display. *)
Definition is_display (o : BusOp) : bool :=
  match o with
  | StartWrite | EndWrite | SetAddrWindow _ _ _ _ | PushColor _ => true
  | _ => false
  end.

(** Seeks and reads of the open file. *)
Definition is_storage (o : BusOp) : bool :=
  match o with
  | SdSeek _ | SdRead _ _ => true
  | _ => false
  end.

Definition is_SetAddrWindow (o : BusOp) : bool :=
  match o with
  | SetAddrWindow _ _ _ _ => true
  | _ => false
  end.

(** Whether a display transaction is open after the operations [t], given
    whether one was open before. *)
Fixpoint in_transaction (open : bool) (t : list BusOp) : bool :=
  match t with
  | [] => open
  | StartWrite :: t' => in_transaction true t'
  | EndWrite :: t' => in_transaction false t'
  | _ :: t' => in_transaction open t'
  end.

(** A file made of a 54-byte header with the given fields and a payload. *)
Definition file (width height nplanes depth compr : Z) (payload : list Z)
    : list Z :=
  [66; 77] ++ le32 (54 + Z.of_nat (List.length payload)) ++ le32 0 ++ le32 54
  ++ le32 40 ++ le32 width ++ le32 height ++ le16 nplanes ++ le16 depth
  ++ le32 compr ++ repeat 0 20 ++ payload.

(** A payload whose byte at index [i] is [i mod 251]. *)
Definition ramp (n : nat) : list Z :=
  map (fun i => Z.of_nat i mod 251) (seq 0 n).

(** A card holding one file. *)
Definition card (name : string) (bytes : list Z) : string -> option (list Z) :=
  fun n => if String.eqb n name then Some bytes else None.

(** Stack contents before [draw] runs: here all zero. *)
Definition stack0 : list Z := repeat 0 150.

(** 99 x 2 pixels stored top-down (declared height -2): the row stride is
    300 bytes, 297 of pixels and 3 of padding. *)
Definition top_down_99x2 : list Z := file 99 (-2) 1 24 0 (ramp 600).

(** One pixel, with the bit-depth field set to 280 = 0x0118. *)
Definition depth_280_1x1 : list Z := file 1 1 1 280 0 [10; 20; 30; 0].

(** One pixel, 24 bits, uncompressed. *)
Definition plain_1x1 : list Z := file 1 1 1 24 0 [10; 20; 30; 0].

(** 4 x 1 pixels, 24 bits, uncompressed; the row is 12 bytes. *)
Definition plain_4x1 : list Z := file 4 1 1 24 0 (ramp 12).

(** 8 bits per pixel; two planes; RLE compression. *)
Definition depth_8_1x1 : list Z := file 1 1 1 8 0 [10; 20; 30; 0].
Definition planes_2_1x1 : list Z := file 1 1 2 24 0 [10; 20; 30; 0].
Definition compressed_1x1 : list Z := file 1 1 1 24 1 [10; 20; 30; 0].

End Bmp.

(** ** The shared-bus discipline, as a check on a trace *)

Module Bus.
Import bmpReader Bmp.

Definition is_EndWrite (o : BusOp) : bool :=
  match o with EndWrite => true | _ => false end.

Definition starts_with_StartWrite (t : list BusOp) : bool :=
  match t with StartWrite :: _ => true | _ => false end.

(** Whether the last of [pre] is [EndWrite]; [prev] answers for the empty list. *)
Fixpoint ends_with_EndWrite (prev : bool) (pre : list BusOp) : bool :=
  match pre with
  | [] => prev
  | o :: pre' => ends_with_EndWrite (is_EndWrite o) pre'
  end.

(** One pass over the trace.  [open]: a display transaction is open.
    [armed]: the address window has been set.  [prev]: the previous
    operation was [EndWrite].  A seek or read must find no transaction open
    and, once armed, must sit between [EndWrite] and [StartWrite]; at the end
    no transaction may be open. *)
Fixpoint disciplined (open armed prev : bool) (t : list BusOp) : bool :=
  match t with
  | [] => negb open
  | o :: t' =>
      (if is_storage o
       then negb open &&
            (if armed then prev && starts_with_StartWrite t' else true)
       else true)
      && disciplined (in_transaction open [o]) (armed || is_SetAddrWindow o)
                     (is_EndWrite o) t'
  end.


(** Traffic of the two pixel loops: pixel pushes, and storage operations each
    wrapped in [endWrite] ... [startWrite]. *)
Inductive body_trace : list BusOp -> Prop :=
| body_nil : body_trace []
| body_push (c : Z) (t : list BusOp) :
    body_trace t -> body_trace (PushColor c :: t)
| body_seek (pos : Z) (t : list BusOp) :
    body_trace t -> body_trace (EndWrite :: SdSeek pos :: StartWrite :: t)
| body_read (pos n : Z) (t : list BusOp) :
    body_trace t -> body_trace (EndWrite :: SdRead pos n :: StartWrite :: t).

Definition header_read (o : BusOp) : Prop := exists pos n, o = SdRead pos n.

(** The four ways a call of [draw] can go. *)
Inductive draw_shape : list BusOp -> Prop :=
| shape_skipped : draw_shape []
| shape_not_found : draw_shape [SdOpen false]
| shape_rejected (H : list BusOp) :
    Forall header_read H -> draw_shape (SdOpen true :: H ++ [SdClose])
| shape_streamed (H B : list BusOp) (x y w h : Z) :
    Forall header_read H -> body_trace B ->
    draw_shape (SdOpen true :: H ++ StartWrite :: SetAddrWindow x y w h
                          :: B ++ [EndWrite; SdClose]).

(** Header-only computations: all their traffic is single reads. *)
Definition reads_only {A : Type} (m : M A) : Prop :=
  forall f, Forall header_read (snd (m f)).

(** Traffic after a successful open, up to but excluding the close. *)
Definition opened_shape (t : list BusOp) : Prop :=
  exists H : list BusOp,
    Forall header_read H /\
    (t = H \/
     exists B x y w h,
       body_trace B /\
       t = H ++ StartWrite :: SetAddrWindow x y w h :: B ++ [EndWrite]).

End Bus.

(** The [n] single-byte reads of a header parse that starts at offset 0. *)
Definition header_reads (n : nat) : list bmpReader.BusOp :=
  map (fun p => bmpReader.SdRead (Z.of_nat p) 1) (seq 0 n).

(** ** Clipping *)

Module Clip.

(** Magnitude of the declared height; its sign only gives the row order. *)
Definition absHeight (H : Z) : Z := if H <? 0 then - H else H.

(** Extent kept of [extent] pixels placed at [origin] on an axis of [limit]
    pixels: cut at the far edge only. *)
Definition clipped (origin extent limit : Z) : Z :=
  if limit <=? origin + extent - 1 then limit - origin else extent.

(** Every read in [t] ends at or before the file offset [limit]. *)
Definition reads_end_by (limit : Z) (t : list bmpReader.BusOp) : Prop :=
  forall pos n, In (bmpReader.SdRead pos n) t -> pos + n <= limit.

End Clip.

(** ** The state of the pixel stream *)

Module Stream.
Import bmpReader.

(** The buffer [b] and the file position [q] are in step with the file
    offset [v] of the next pixel: the read index is a multiple of three
    inside the buffer, the bytes from the read index on are the file's bytes
    from [v] on, and the file position is where the buffer ends (or the end
    of the file). *)
Definition in_step (bytes : list Z) (v : Z) (b : Buffer) (q : Z) : Prop :=
  exists k,
    buffidx b = 3 * k /\ 0 <= k <= BUFFPIXEL /\ 0 <= v /\
    q = Z.min (v - 3 * k + sizeof_sdbuffer) (Z.of_nat (List.length bytes)) /\
    forall j, 3 * k <= j < sizeof_sdbuffer ->
              v - 3 * k + j < Z.of_nat (List.length bytes) ->
              at_ (sdbuffer b) j = at_ bytes (v - 3 * k + j).

(** The colours of [n] consecutive pixels stored from offset [v]. *)
Definition run (bytes : list Z) (v : Z) (n : nat) : list Z :=
  map (fun col => Bmp.pixel_at bytes (v + 3 * Z.of_nat col)) (seq 0 n).

(** The colours of [n] rows of [w] pixels, output row [row] first, for a file
    stored bottom-up with [H] rows of stride [rs] from offset [off]. *)
Fixpoint bottom_up (bytes : list Z) (off H rs : Z) (w : nat) (n : nat) (row : Z)
    : list Z :=
  match n with
  | O => []
  | S n' => run bytes (off + (H - 1 - row) * rs) w
            ++ bottom_up bytes off H rs w n' (row + 1)
  end.

End Stream.

(** ** General helper functions (Graphics.cpp) *)

Module Helper.

(** A C [int] stored into a [char] of the string. *)
Definition charOfInt (v : Z) : ascii := ascii_of_nat (Z.to_nat (u8 v)).

(** [s[i] = c] for [i] inside the string; outside, the write goes to a dummy. *)
Fixpoint setCharAt (s : string) (i : nat) (c : ascii) : string :=
  match s, i with
  | EmptyString, _ => EmptyString
  | String _ rest, O => String c rest
  | String c0 rest, S i' => String c0 (setCharAt rest i' c)
  end.

(** [String dig2(int number)]; [/] and [%] of C truncate towards zero. *)
Definition dig2 (number : Z) : string :=
  let res := "00"%string in
  let res := setCharAt res 0 (charOfInt (48 + Z.rem (Z.quot number 10) 10)) in
  let res := setCharAt res 1 (charOfInt (48 + Z.rem number 10)) in
  res.

(** [str + c] for a [char] other than NUL, [str + other] for a [String]. *)
Definition plusChar (s : string) (c : ascii) : string :=
  (s ++ String c EmptyString)%string.

(** Value of a decimal digit character, if it is one. *)
Definition digitValue (c : ascii) : option Z :=
  let n := Z.of_nat (nat_of_ascii c) in
  if (48 <=? n) && (n <=? 57) then Some (n - 48) else None.

Definition isDigit (c : ascii) : bool :=
  match digitValue c with Some _ => true | None => false end.

(** The number a string of two decimal digits stands for. *)
Definition twoDigits (s : string) : option Z :=
  match s with
  | String a (String b EmptyString) =>
      match digitValue a, digitValue b with
      | Some x, Some y => Some (10 * x + y)
      | _, _ => None
      end
  | _ => None
  end.

End Helper.

(** ** Text handling: what is printed, and the degree sign *)

Module Text.

(** The characters sent to the display by [print] calls, in order. *)
Fixpoint printed (os : list DisplayOp) : string :=
  match os with
  | [] => EmptyString
  | OpPrint s :: os' => (s ++ printed os')%string
  | OpPrintChar c :: os' => String c (printed os')
  | _ :: os' => printed os'
  end.

(** Whether the two-byte degree sign occurs at the front of [s] / in [s]. *)
Definition degreeAtFront (s : string) : bool :=
  match s with
  | String c (String c' _) =>
      (Ascii.eqb c WString.deg0 && Ascii.eqb c' WString.deg1)%bool
  | _ => false
  end.

Fixpoint hasDegree (s : string) : bool :=
  match s with
  | EmptyString => false
  | String _ rest => degreeAtFront s || hasDegree rest
  end.

(** No character of [s] is the first byte of the degree sign. *)
Fixpoint plain (s : string) : bool :=
  match s with
  | EmptyString => true
  | String c rest => negb (Ascii.eqb c WString.deg0) && plain rest
  end.

(** The number a string of decimal digits stands for, read from the left
    with [acc] for the digits already read; [None] if a character is not a
    digit.  [readDecimal] also refuses the empty string. *)
Fixpoint readDigits (acc : Z) (s : string) : option Z :=
  match s with
  | EmptyString => Some acc
  | String c rest =>
      match Helper.digitValue c with
      | Some k => readDigits (10 * acc + k) rest
      | None => None
      end
  end.

Definition readDecimal (s : string) : option Z :=
  match s with
  | EmptyString => None
  | _ => readDigits 0 s
  end.

(** Pixel width of a label's text as printed: every character one cell at the
    label's size, a subscripted character one [CHAR_W] less. *)
Definition footprintWidth (l : Label.t) : Z :=
  WString.length (Label._name l) * Label._size l * CHAR_W
  - (if Label._subscript l =? 0 then 0 else CHAR_W).

(** The x coordinate just right of the text, as a [uint16_t] like the anchor. *)
Definition rightEdge (l : Label.t) : Z := u16 (Label._x l + footprintWidth l).

(** The y coordinate just below a line of normal-size text. *)
Definition baseline (l : Label.t) : Z := u16 (Label._y l + Label._size l * CHAR_H).

(** The display advances the cursor by one cell per character and stays on
    its line, on its 16-bit cursor. *)
Definition advances_by_cells `{DISPLAY_TYPE} : Prop :=
  forall size c s,
    cursorAfterPrint size c s =
      (i16 (fst c + WString.length s * size * CHAR_W), snd c).

(** The cursor of a display that writes text without wrapping at the right
    edge: a line feed starts the next line at the left, a carriage return is
    ignored, every other character advances by one cell. *)
Definition step (size : Z) (c : Z * Z) (ch : ascii) : Z * Z :=
  if Ascii.eqb ch (ascii_of_nat 10) then (0, i16 (snd c + size * CHAR_H))
  else if Ascii.eqb ch (ascii_of_nat 13) then c
  else (i16 (fst c + size * CHAR_W), snd c).

Fixpoint typeset (size : Z) (c : Z * Z) (s : string) : Z * Z :=
  match s with
  | EmptyString => c
  | String ch rest => typeset size (step size c ch) rest
  end.

Definition writes_lines `{DISPLAY_TYPE} : Prop :=
  forall size c s, cursorAfterPrint size c s = typeset size c s.

(** [s] holds neither a line feed nor a carriage return. *)
Fixpoint oneLine (s : string) : bool :=
  match s with
  | EmptyString => true
  | String ch rest =>
      negb (Ascii.eqb ch (ascii_of_nat 10))
      && negb (Ascii.eqb ch (ascii_of_nat 13)) && oneLine rest
  end.

End Text.

(** ** The clock library, as far as the widgets use it *)

(** [DateTime] and [TimeSpan] of RTClib with the accessors the firmware calls.
    RTClib is not part of the repository. *)
Class RTC_LIB : Type := {
  DateTime : Type;
  TimeSpan : Type;
  year : DateTime -> Z;       (* uint16_t *)
  month : DateTime -> Z;      (* uint8_t *)
  day : DateTime -> Z;        (* uint8_t *)
  hour : DateTime -> Z;       (* uint8_t *)
  minute : DateTime -> Z;     (* uint8_t *)
  minus : DateTime -> DateTime -> TimeSpan;   (* operator- *)
  minutes : TimeSpan -> Z;    (* int8_t *)
  seconds : TimeSpan -> Z;    (* int8_t *)
  defaultDateTime : DateTime  (* DateTime() *)
}.


(** [Print::println] of the Arduino core: [print(s)] followed by CR LF. *)
Module Print.
Section Calls.
Context `{DISPLAY_TYPE}.

Definition CRLF : string :=
  String (ascii_of_nat 13) (String (ascii_of_nat 10) EmptyString).

(** [println()] *)
Definition newline (d : Display) : Display := Tft.print CRLF d.

(** [println] of a C string *)
Definition println (s : string) (d : Display) : Display :=
  newline (Tft.print s d).

End Calls.
End Print.

(** ** HeaderBar (Graphics.cpp) *)

Module HeaderBar.

Record t : Type := mk {
  _w : Z;               (* int16_t *)
  _h : Z;               (* int16_t *)
  _color : Z;           (* uint16_t *)
  _logoFile : string;   (* C string *)
  _date : Label.t;
  _time : Label.t
}.

(** The display as the text layer sees it, and the traffic of the shared bus
    caused by drawing the logo. *)
Definition Screen : Type := Display * list bmpReader.BusOp.

Definition set_date (hb : t) (l : Label.t) : t :=
  mk (_w hb) (_h hb) (_color hb) (_logoFile hb) l (_time hb).
Definition set_time (hb : t) (l : Label.t) : t :=
  mk (_w hb) (_h hb) (_color hb) (_logoFile hb) (_date hb) l.

Section Methods.
Context `{DISPLAY_TYPE} `{RTC_LIB}.
Variable SD : string -> option (list Z).

(** [HeaderBar::drawBackground]; [sdbuffer0] is the stack under [draw]. *)
Definition drawBackground (w h color : Z) (logoFile : string)
    (sdbuffer0 : list Z) (s : Screen) : Screen :=
  (Tft.fillRect 0 0 Tft.width h color (fst s),
   snd s ++ bmpReader.draw SD sdbuffer0 logoFile 1 1).

(** [HeaderBar::HeaderBar] *)
Definition ctor (h color textColor : Z) (logoFile : string)
    (sdbuffer0 : list Z) (s : Screen) : t * Screen :=
  let w_ := Tft.width in
  let h_ := i16 h in
  let color_ := u16 color in
  let s := drawBackground w_ h_ color_ logoFile sdbuffer0 s in
  let size := 3 in
  let h := i16 (Z.quot (h_ + size * CHAR_H) 2) in
  let '(date, d) :=
    Label.ctor_uint16 (w_ - 5) h 0 (size - 1) textColor (Z.lor RIGHT BOTTOM)
                      (fst s) in
  let '(time, d) :=
    Label.ctor_uint16 (Z.quot (w_ - 5 * size * CHAR_W) 2) h 0 size textColor
                      BOTTOM d in
  (mk w_ h_ color_ logoFile date time, (d, snd s)).

(** [HeaderBar::draw] *)
Definition draw (hb : t) (sdbuffer0 : list Z) (s : Screen) : Screen :=
  let s := drawBackground (_w hb) (_h hb) (_color hb) (_logoFile hb) sdbuffer0 s in
  let d := Label.print (_time hb) (fst s) in
  let d := Label.print (_date hb) d in
  (d, snd s).

(** [HeaderBar::updateTime] *)
Definition updateTime (hb : t) (time : DateTime) (d : Display) : t * Display :=
  let d := Label.erase (_time hb) (_color hb) d in
  let l :=
    Label.changeName (_time hb)
      (Helper.plusChar (Helper.dig2 (u8 (hour time))) ":"
       ++ Helper.dig2 (u8 (minute time)))%string 0 in
  (set_time hb l, Label.print l d).

(** [HeaderBar::updateDate] *)
Definition updateDate (hb : t) (date : DateTime) (d : Display) : t * Display :=
  let d := Label.erase (_date hb) (_color hb) d in
  let l :=
    Label.changeName (_date hb)
      (Helper.plusChar
         (Helper.plusChar (Helper.dig2 (u8 (day date))) "."
          ++ Helper.dig2 (u8 (month date))) "."
       ++ WString.ofUnsigned (u16 (year date)))%string 0 in
  (set_date hb l, Label.print l d).

(** [HeaderBar::height] *)
Definition height (hb : t) : Z := _h hb.

End Methods.
End HeaderBar.

(** ** CalibrationWarning (Graphics.cpp) *)

Module CalibrationWarning.
Section Methods.
Context `{DISPLAY_TYPE} `{RTC_LIB}.

Record t : Type := mk {
  _x : Z;                 (* int16_t *)
  _y : Z;                 (* int16_t *)
  _w : Z;                 (* uint16_t *)
  _h : Z;                 (* uint16_t *)
  _color : Z;             (* uint16_t *)
  _textColor : Z;         (* uint16_t *)
  _textsize : Z;          (* uint8_t *)
  _co2Name : Label.t;
  _co2Value : Label.t;
  _countdown : Label.t;
  _calibrationTime : DateTime
}.

Definition set_co2Name (cw : t) (l : Label.t) : t :=
  mk (_x cw) (_y cw) (_w cw) (_h cw) (_color cw) (_textColor cw) (_textsize cw)
     l (_co2Value cw) (_countdown cw) (_calibrationTime cw).
Definition set_co2Value (cw : t) (l : Label.t) : t :=
  mk (_x cw) (_y cw) (_w cw) (_h cw) (_color cw) (_textColor cw) (_textsize cw)
     (_co2Name cw) l (_countdown cw) (_calibrationTime cw).

(** [CalibrationWarning::CalibrationWarning] *)
Definition ctor (x y w h color textColor : Z) (d : Display) : t * Display :=
  let textsize := 2 in
  let '(co2Name, d) := Label.ctor 480 320 "CO2" textsize textColor 3 (Z.lor TOP LEFT) d in
  let '(co2Value, d) := Label.ctor 480 320 "    " textsize textColor 0 (Z.lor TOP LEFT) d in
  let '(countdown, d) := Label.ctor 480 320 "     " textsize textColor 0 (Z.lor TOP LEFT) d in
  (mk (i16 x) (i16 y) (u16 w) (u16 h) (u16 color) (u16 textColor) textsize
      co2Name co2Value countdown defaultDateTime, d).

(** [CalibrationWarning::indent] *)
Definition indent (x : Z) (d : Display) : Display :=
  Tft.setCursor x (Tft.getCursorY d) d.

(** [CalibrationWarning::print] *)
Definition print (cw : t) (d : Display) : t * Display :=
  let d := Tft.fillRoundRect (_x cw) (_y cw) (_w cw) (_h cw) 10 (_color cw) d in
  let d := Tft.setTextColor (_textColor cw) d in
  let d := Tft.setTextSize (_textsize cw + 1) d in
  let d := Tft.setCursor
             (_x cw + Z.quot (_w cw - 12 * (_textsize cw + 1) * CHAR_W) 2)
             (_y cw + 10) d in
  let d := Print.println "Calibration!" d in
  let d := Tft.setTextSize (_textsize cw) d in
  let d := Print.newline d in
  let x0 := i16 (_x cw + 10) in
  let d := Print.println "Place device outdoors now!" (indent x0 d) in
  let d := Print.println "When timer is up, last measured" (indent x0 d) in
  let d := Print.println "value is set to 417 ppm." (indent x0 d) in
  let d := Print.println "Thus sensor must have acclimated" (indent x0 d) in
  let d := Print.println "to ambient air." (indent x0 d) in
  let d := Print.newline d in
  let d := Print.println "To abort calibration press reset" (indent x0 d) in
  let d := Print.println "button on upper right backside." (indent x0 d) in
  let d := Print.newline d in
  let d := Tft.print "Remaining time: " (indent x0 d) in
  let countdown :=
    Label.changePosition (_countdown cw) (Tft.getCursorX d) (Tft.getCursorY d)
                         (Z.lor TOP LEFT) in
  let d := Label.print countdown d in
  let x := Tft.getCursorX d in
  let d := Print.newline d in
  let d := Tft.print "Current " (indent x0 d) in
  let co2Name :=
    Label.changePosition (_co2Name cw) (Tft.getCursorX d) (Tft.getCursorY d)
                         (Z.lor TOP LEFT) in
  let d := Label.print co2Name d in
  let d := Tft.print ": " d in
  let co2Value :=
    Label.changePosition (_co2Value cw) x (Tft.getCursorY d) RIGHT in
  let d := Tft.print " ppm " (indent x d) in
  (mk (_x cw) (_y cw) (_w cw) (_h cw) (_color cw) (_textColor cw) (_textsize cw)
      co2Name co2Value countdown (_calibrationTime cw), d).

(** [CalibrationWarning::erase] *)
Definition erase (cw : t) (color : Z) (d : Display) : Display :=
  Tft.fillRoundRect (_x cw) (_y cw) (_w cw) (_h cw) 10 color d.


(** [CalibrationWarning::getCalibrationTime] *)
Definition getCalibrationTime (cw : t) : DateTime := _calibrationTime cw.


(** [CalibrationWarning::refreshCO2] *)
Definition refreshCO2 (cw : t) (val : Z) (d : Display) : t * Display :=
  let d := Label.erase (_co2Value cw) (_color cw) d in
  let l := Label.changeName_uint16 (_co2Value cw) val in
  (set_co2Value cw l, Label.print l d).

End Methods.
End CalibrationWarning.

(** ** Layout of the widgets *)

Module Layout.

(** A ValueBar as its constructor lays it out: the three labels stand on one
    line below the middle of the bar, the name starts 15 pixels in, the unit
    starts 64 pixels before the end, and the value is right-aligned with its
    right edge half of five size-4 cells right of the middle. *)
Definition valueBar (vb : ValueBar.t) : Prop :=
  let line := u16 (ValueBar._y vb + (ValueBar._h vb + 4 * CHAR_H) / 2) in
  Text.baseline (ValueBar.labels_0 vb) = line /\
  Text.baseline (ValueBar.labels_1 vb) = line /\
  Text.baseline (ValueBar.labels_2 vb) = line /\
  Label._x (ValueBar.labels_0 vb) = u16 (ValueBar._x vb + 15) /\
  Label._x (ValueBar.labels_2 vb)
    = u16 (ValueBar._x vb + ValueBar._w vb - 3 * 3 * CHAR_W - 10) /\
  Z.land (Label._alignment (ValueBar.labels_1 vb)) RIGHT = RIGHT /\
  Text.rightEdge (ValueBar.labels_1 vb)
    = u16 (ValueBar._x vb + (ValueBar._w vb + 5 * 4 * CHAR_W) / 2).

(** A HeaderBar as its constructor lays it out: date and time stand on one
    line, the date is right-aligned five pixels before the end of the bar,
    and the time starts where five size-3 cells are centred. *)
Definition headerBar (hb : HeaderBar.t) : Prop :=
  let line := u16 (Z.quot (HeaderBar._h hb + 3 * CHAR_H) 2) in
  Text.baseline (HeaderBar._date hb) = line /\
  Text.baseline (HeaderBar._time hb) = line /\
  Z.land (Label._alignment (HeaderBar._date hb)) RIGHT = RIGHT /\
  Text.rightEdge (HeaderBar._date hb) = u16 (HeaderBar._w hb - 5) /\
  Z.land (Label._alignment (HeaderBar._time hb)) RIGHT <> RIGHT /\
  Label._x (HeaderBar._time hb)
    = u16 (Z.quot (HeaderBar._w hb - 5 * 3 * CHAR_W) 2).

End Layout.

(** ** A clock for the examples *)

(** Times of one day: [operator-] is the difference in seconds, [minutes()]
    and [seconds()] of a TimeSpan are [_seconds / 60 % 60] and
    [_seconds % 60] as in RTClib. *)
Record DayTime : Type := mkDayTime {
  dt_year : Z; dt_month : Z; dt_day : Z;
  dt_hour : Z; dt_minute : Z; dt_second : Z
}.

Definition secondOfDay (t : DayTime) : Z :=
  dt_hour t * 3600 + dt_minute t * 60 + dt_second t.

Definition dayClock : RTC_LIB := {|
  DateTime := DayTime;
  TimeSpan := Z;
  year := dt_year;
  month := dt_month;
  day := dt_day;
  hour := dt_hour;
  minute := dt_minute;
  minus := fun a b => secondOfDay a - secondOfDay b;
  minutes := fun ts => Z.rem (Z.quot ts 60) 60;
  seconds := fun ts => Z.rem ts 60;
  defaultDateTime := mkDayTime 2000 1 1 0 0 0
|}.

Definition noon : DayTime := mkDayTime 2021 3 9 12 0 0.

(** A display for the examples that measures by cells like [cellDisplay] and
    moves its cursor by [Text.typeset]. *)
Definition lineDisplay : DISPLAY_TYPE := {|
  getTextBounds := fun size s x y =>
    (x, y, u16 (WString.length s * size * CHAR_W), u16 (size * CHAR_H));
  cursorAfterPrint := Text.typeset;
  panel_width := 480;
  panel_height := 320
|}.

(** * Properties *)

(** ** Fixed-width conversions *)

Ltac unwrap := unfold u8, u16, u32, i16, i32, is_u8, is_u16, is_i16 in *.
Ltac wrap_arith := unwrap; Z.to_euclidean_division_equations; lia.

Lemma u8_small (z : Z) : 0 <= z < 2 ^ 8 -> u8 z = z.
Proof. intros; apply Z.mod_small; assumption. Qed.

Lemma u16_small (z : Z) : 0 <= z < 2 ^ 16 -> u16 z = z.
Proof. intros; apply Z.mod_small; assumption. Qed.

Lemma u32_small (z : Z) : 0 <= z < 2 ^ 32 -> u32 z = z.
Proof. intros; apply Z.mod_small; assumption. Qed.

Lemma i16_small (z : Z) : - 2 ^ 15 <= z < 2 ^ 15 -> i16 z = z.
Proof. intros; wrap_arith. Qed.

Lemma i32_small (z : Z) : - 2 ^ 31 <= z < 2 ^ 31 -> i32 z = z.
Proof. intros; wrap_arith. Qed.

Lemma u16_range (z : Z) : 0 <= u16 z < 2 ^ 16.
Proof. apply Z.mod_pos_bound; lia. Qed.

Lemma u8_range (z : Z) : 0 <= u8 z < 2 ^ 8.
Proof. apply Z.mod_pos_bound; lia. Qed.

Lemma i16_range (z : Z) : - 2 ^ 15 <= i16 z < 2 ^ 15.
Proof. wrap_arith. Qed.

Lemma i16_u16 (z : Z) : i16 (u16 z) = i16 z.
Proof. wrap_arith. Qed.

Lemma u16_i16 (z : Z) : u16 (i16 z) = u16 z.
Proof. wrap_arith. Qed.

Lemma i16_i16 (z : Z) : i16 (i16 z) = i16 z.
Proof. apply i16_small, i16_range. Qed.

(** Subtraction into a [uint16_t] only sees its operands modulo 2^16. *)
Lemma u16_sub_u32 (a b : Z) : u16 (a - u32 b) = u16 (a - b).
Proof. wrap_arith. Qed.

Lemma u16_sub_u16 (a b : Z) : u16 (u16 a - b) = u16 (a - b).
Proof. wrap_arith. Qed.

Lemma u16_sub_i16 (a b : Z) : u16 (a - i16 b) = u16 (a - b).
Proof. wrap_arith. Qed.

Lemma u32_mul_l (a b : Z) : u32 (u32 a * b) = u32 (a * b).
Proof. unfold u32. apply Z.mul_mod_idemp_l. lia. Qed.

Lemma i16_u32 (z : Z) : i16 (u32 z) = i16 z.
Proof. wrap_arith. Qed.

Lemma i16_add_i16 (a b : Z) : i16 (i16 a + b) = i16 (a + b).
Proof. wrap_arith. Qed.

(** ** Label::erase *)

Lemma ops_emit (o : DisplayOp) (d : Display) : ops (emit o d) = ops d ++ [o].
Proof. reflexivity. Qed.

(** What [textBounds] hands back when the driver measures by cells. *)
Lemma textBounds_cells `{DISPLAY_TYPE} (s : string) (x y : Z) (d : Display) :
  cell_geometry (textSize d) s (i16 x) (i16 y) ->
  Tft.textBounds s x y d =
    (i16 x, i16 y,
     u16 (WString.length s * textSize d * CHAR_W), u16 (textSize d * CHAR_H)).
Proof.
  intros Hcell. unfold Tft.textBounds. rewrite Hcell.
  now rewrite !i16_i16.
Qed.

Lemma length_nonneg (s : string) : 0 <= WString.length s.
Proof. unfold WString.length. lia. Qed.

Lemma textSize_setTextSize (s : Z) (d : Display) :
  textSize (Tft.setTextSize s d) = u8 s.
Proof. reflexivity. Qed.

Lemma ops_setTextSize (s : Z) (d : Display) :
  ops (Tft.setTextSize s d) = ops d ++ [OpSetTextSize (u8 s)].
Proof. reflexivity. Qed.

Lemma ops_fillRect (x y w h color : Z) (d : Display) :
  ops (Tft.fillRect x y w h color d) =
    ops d ++ [OpFillRect (i16 x) (i16 y) (i16 w) (i16 h) (u16 color)].
Proof. reflexivity. Qed.

(** C1 (amended): on a display that measures text by the fixed character cell,
    and for a label whose analytic width [len * size * CHAR_W] fits the signed
    16-bit width parameter of [fillRect], [erase] issues exactly one
    [fillRect], anchored at the stored top-left corner.  Without a subscript
    the rectangle is [len * size * CHAR_W] wide and [size * CHAR_H] high; with
    a subscript (index >= 1, size >= 1) it is one [CHAR_W] narrower and
    [size * CHAR_H / 2 + (size - 1) * CHAR_H] high. *)
Theorem erase_fills_cell_footprint `{DISPLAY_TYPE}
    (l : Label.t) (color : Z) (d : Display) :
  Label.wf l ->
  measured_by_cells l ->
  WString.length (Label._name l) * Label._size l * CHAR_W < 2 ^ 15 ->
  let x := i16 (Label._x l) in
  let y := i16 (Label._y l) in
  let len := WString.length (Label._name l) in
  let size := Label._size l in
  (Label._subscript l = 0 ->
   ops (Label.erase l color d) =
     ops d ++ [OpSetTextSize size;
               OpFillRect x y (len * size * CHAR_W) (size * CHAR_H) (u16 color)])
  /\
  (1 <= Label._subscript l -> 1 <= size ->
   ops (Label.erase l color d) =
     ops d ++ [OpSetTextSize size;
               OpSetTextSize (size - 1);
               OpFillRect x y (len * size * CHAR_W - CHAR_W)
                          (size * CHAR_H / 2 + (size - 1) * CHAR_H)
                          (u16 color)]).
Proof.
  intros (Hx & Hy & Hc & Hs & Hsub & Hal) [Hmain Hchar] Hfit x y len size.
  pose proof (length_nonneg (Label._name l)) as Hlen.
  assert (Hsz : u8 (Label._size l) = Label._size l) by (apply u8_small; exact Hs).
  assert (Hw : 0 <= len * size * CHAR_W) by (unfold CHAR_W; subst len size; unwrap; nia).
  assert (Hh : 0 <= size * CHAR_H < 2 ^ 15) by (unfold CHAR_H; subst size; unwrap; lia).
  split.
  - intros H0. unfold Label.erase. rewrite H0. cbn [Z.eqb negb].
    rewrite textBounds_cells; rewrite textSize_setTextSize, Hsz; [ | exact Hmain ].
    rewrite ops_fillRect, ops_setTextSize, Hsz, <- app_assoc. cbn [app].
    fold x y len size.
    rewrite !i16_u16, (i16_small (len * size * CHAR_W)), (i16_small (size * CHAR_H)) by lia.
    subst x y. rewrite !i16_i16. reflexivity.
  - intros H1 Hsize. unfold Label.erase.
    assert (Hne : Label._subscript l <> 0) by lia.
    apply Z.eqb_neq in Hne as Hneb. rewrite Hneb. cbn [negb].
    rewrite textBounds_cells; rewrite textSize_setTextSize, Hsz; [ | exact Hmain ].
    specialize (Hchar Hne).
    assert (Hsz1 : u8 (Label._size l - 1) = Label._size l - 1)
      by (apply u8_small; fold size; unwrap; lia).
    rewrite textBounds_cells; rewrite textSize_setTextSize; [ | exact Hchar ].
    rewrite ops_fillRect, !ops_setTextSize, Hsz, Hsz1, <- !app_assoc. cbn [app].
    fold x y len size.
    assert (Hh1 : 0 <= (size - 1) * CHAR_H < 2 ^ 15) by (unfold CHAR_H; subst size; unwrap; lia).
    rewrite (u16_small (len * size * CHAR_W)), (u16_small (size * CHAR_H)),
      (u16_small ((size - 1) * CHAR_H)) by lia.
    rewrite !i16_u16.
    rewrite (i16_small (len * size * CHAR_W - CHAR_W)) by (unfold CHAR_W in *; lia).
    rewrite (i16_small (size * CHAR_H / 2 + (size - 1) * CHAR_H))
      by (unfold CHAR_H in *; subst size; unwrap; Z.to_euclidean_division_equations; lia).
    subst x y. rewrite !i16_i16. reflexivity.
Qed.

Lemma erase_fills_cell_footprint_witness :
  ops (@Label.erase cellDisplay label_ppm 0 blank) =
    [OpSetTextSize 3; OpFillRect 10 20 54 24 0] /\
  ops (@Label.erase cellDisplay label_CO2 0 blank) =
    [OpSetTextSize 3; OpSetTextSize 2; OpFillRect 10 20 48 28 0].
Proof.
  split.
  - apply (proj1 (@erase_fills_cell_footprint cellDisplay label_ppm 0 blank
                    ltac:(vm_compute; intuition discriminate)
                    ltac:(split; [reflexivity | intros _; reflexivity])
                    ltac:(reflexivity))).
    reflexivity.
  - apply (proj2 (@erase_fills_cell_footprint cellDisplay label_CO2 0 blank
                    ltac:(vm_compute; intuition discriminate)
                    ltac:(split; [reflexivity | intros _; reflexivity])
                    ltac:(reflexivity))).
    + vm_compute; discriminate.
    + vm_compute; discriminate.
Defined.

(** C1 as stated fails: a display measuring by cells and a well-formed label
    without subscript for which no rectangle of the analytic dimensions is
    filled, the width having passed through [fillRect]'s [int16_t]. *)
Lemma erase_wide_label_counterexample :
  ~ (forall (D : DISPLAY_TYPE) (l : Label.t) (color : Z) (d : Display),
        Label.wf l -> measured_by_cells l -> Label._subscript l = 0 ->
        exists x y c,
          In (OpFillRect x y
                (WString.length (Label._name l) * Label._size l * CHAR_W)
                (Label._size l * CHAR_H) c)
             (ops (Label.erase l color d))).
Proof.
  intros Hall.
  destruct (Hall cellDisplay label_wide 0 blank) as (x & y & c & Hin).
  - vm_compute; intuition discriminate.
  - split; [reflexivity | intros Hs; exfalso; apply Hs; reflexivity].
  - reflexivity.
  - vm_compute in Hin. destruct Hin as [Heq | [Heq | []]]; discriminate Heq.
Qed.

(** The rectangle [erase] fills for that label. *)
Lemma erase_wide_label_ops :
  ops (@Label.erase cellDisplay label_wide 0 blank) =
    [OpSetTextSize 255; OpFillRect 0 0 (-31876) 2040 0].
Proof. vm_compute. reflexivity. Qed.
(** ** Formatted numbers *)

Lemma replaceDegree_cons2 (c c' : ascii) (r : string) :
  WString.replaceDegree (String c (String c' r)) =
    if (Ascii.eqb c WString.deg0 && Ascii.eqb c' WString.deg1)%bool
    then String WString.deg_glyph (WString.replaceDegree r)
    else String c (WString.replaceDegree (String c' r)).
Proof. reflexivity. Qed.

Lemma replaceDegree_head (c : ascii) (r : string) :
  exists t,
    WString.replaceDegree (String c r) = String c t \/
    WString.replaceDegree (String c r) = String WString.deg_glyph t.
Proof.
  destruct r as [ | c' r].
  - exists EmptyString. now left.
  - rewrite replaceDegree_cons2. destruct (_ && _)%bool; eexists; eauto.
Qed.

Lemma replaceDegree_facts (n : nat) :
  forall s, (String.length s <= n)%nat ->
    Text.hasDegree (WString.replaceDegree s) = false /\
    (String.length (WString.replaceDegree s) <= String.length s)%nat /\
    (Text.hasDegree s = false -> WString.replaceDegree s = s).
Proof.
  induction n as [ | n IH]; intros s Hlen.
  - destruct s; [ | cbn in Hlen; lia]. repeat split; reflexivity || lia.
  - destruct s as [ | c [ | c' r] ].
    + repeat split; reflexivity || lia.
    + repeat split; reflexivity || lia.
    + cbn [String.length] in Hlen.
      destruct (IH r ltac:(lia)) as (Hr1 & Hr2 & Hr3).
      destruct (IH (String c' r) ltac:(cbn [String.length]; lia))
        as (Ht1 & Ht2 & Ht3).
      rewrite replaceDegree_cons2.
      destruct (Ascii.eqb c WString.deg0 && Ascii.eqb c' WString.deg1)%bool
        eqn:Hmatch.
      * repeat split.
        -- cbn [Text.hasDegree]. rewrite Hr1, orb_false_r.
           destruct (WString.replaceDegree r); reflexivity.
        -- cbn [String.length] in *. lia.
        -- cbn [Text.hasDegree Text.degreeAtFront]. rewrite Hmatch.
           discriminate.
      * repeat split.
        -- cbn [Text.hasDegree]. rewrite Ht1, orb_false_r.
           destruct (replaceDegree_head c' r) as (t & [-> | ->]);
             cbn [Text.degreeAtFront].
           ++ apply andb_false_iff in Hmatch as [Hc | Hc'].
              ** now rewrite Hc.
              ** rewrite Hc'. apply andb_false_r.
           ++ replace (Ascii.eqb WString.deg_glyph WString.deg1) with false
                by reflexivity.
              apply andb_false_r.
        -- cbn [String.length] in *. lia.
        -- cbn [Text.hasDegree Text.degreeAtFront]. rewrite Hmatch.
           cbn [orb]. intros Hno. f_equal. apply Ht3. exact Hno.
Qed.

Lemma plain_app (a b : string) :
  Text.plain (a ++ b) = (Text.plain a && Text.plain b)%bool.
Proof.
  induction a as [ | c a IH]; [reflexivity | ].
  cbn [String.append Text.plain]. now rewrite IH, andb_assoc.
Qed.

Lemma plain_hasDegree (s : string) :
  Text.plain s = true -> Text.hasDegree s = false.
Proof.
  induction s as [ | c s IH]; [reflexivity | ].
  cbn [Text.plain Text.hasDegree]. intros Hp.
  apply andb_true_iff in Hp as [Hc Hs]. rewrite (IH Hs), orb_false_r.
  apply negb_true_iff in Hc. unfold Text.degreeAtFront.
  destruct s; [reflexivity | ]. now rewrite Hc.
Qed.

Lemma CORRECT_DEGREE_CHAR_plain (s : string) :
  Text.plain s = true -> Label.CORRECT_DEGREE_CHAR s = s.
Proof.
  intros Hp. unfold Label.CORRECT_DEGREE_CHAR.
  apply (replaceDegree_facts _ s (le_n _)). now apply plain_hasDegree.
Qed.

Lemma digit_not_deg0 (k : Z) :
  0 <= k <= 9 -> Ascii.eqb (WString.digit k) WString.deg0 = false.
Proof.
  intros Hk.
  assert (Hcases : k = 0 \/ k = 1 \/ k = 2 \/ k = 3 \/ k = 4 \/ k = 5 \/ k = 6
                   \/ k = 7 \/ k = 8 \/ k = 9) by lia.
  repeat (destruct Hcases as [-> | Hcases]; [reflexivity | ]).
  subst k. reflexivity.
Qed.

Lemma plain_utoa (fuel : nat) :
  forall n acc, Text.plain acc = true -> Text.plain (WString.utoa fuel n acc) = true.
Proof.
  induction fuel as [ | fuel IH]; intros n acc Hacc; [exact Hacc | ].
  cbn [WString.utoa].
  assert (Hstep : Text.plain (String (WString.digit (n mod 10)) acc) = true).
  { cbn [Text.plain]. rewrite digit_not_deg0, Hacc; [reflexivity | ].
    pose proof (Z.mod_pos_bound n 10 ltac:(lia)). lia. }
  destruct (n / 10 =? 0); [exact Hstep | ]. now apply IH.
Qed.

Lemma plain_ofUnsigned (val : Z) : Text.plain (WString.ofUnsigned val) = true.
Proof. now apply plain_utoa. Qed.

Lemma digitValue_digit (k : Z) :
  0 <= k <= 9 ->
  Helper.digitValue (WString.digit k) = Some k /\
  (0 < k -> WString.digit k <> "0"%char).
Proof.
  intros Hk.
  assert (Hcases : k = 0 \/ k = 1 \/ k = 2 \/ k = 3 \/ k = 4 \/ k = 5 \/ k = 6
                   \/ k = 7 \/ k = 8 \/ k = 9) by lia.
  repeat (destruct Hcases as [-> | Hcases];
          [split; [reflexivity | intros; try lia; discriminate] | ]).
  subst k. split; [reflexivity | discriminate].
Qed.

(** Reading back what [utoa] wrote: the digits of [n] extend the number read
    so far by as many places as [n] has digits. *)
Lemma readDigits_utoa (fuel : nat) :
  forall n acc, 0 <= n < 10 ^ Z.of_nat (S fuel) ->
    exists k, 0 < k /\
      forall a, Text.readDigits a (WString.utoa (S fuel) n acc)
                = Text.readDigits (a * 10 ^ k + n) acc.
Proof.
  induction fuel as [ | fuel IH]; intros n acc Hn.
  - cbn [WString.utoa].
    pose proof (Z.mod_pos_bound n 10 ltac:(lia)) as Hr.
    change (10 ^ Z.of_nat 1) with 10 in Hn.
    destruct (digitValue_digit (n mod 10) ltac:(lia)) as (Hd & _).
    replace (n / 10 =? 0) with true
      by (symmetry; apply Z.eqb_eq; Z.to_euclidean_division_equations; lia).
    exists 1. split; [lia | ]. intros a. cbn [Text.readDigits]. rewrite Hd.
    f_equal. Z.to_euclidean_division_equations. lia.
  - remember (S fuel) as fuel' eqn:Hf. cbn [WString.utoa].
    pose proof (Z.mod_pos_bound n 10 ltac:(lia)) as Hr.
    destruct (digitValue_digit (n mod 10) ltac:(lia)) as (Hd & _).
    destruct (Z.eqb_spec (n / 10) 0) as [Hq | Hq].
    + exists 1. split; [lia | ]. intros a. cbn [Text.readDigits]. rewrite Hd.
      f_equal. Z.to_euclidean_division_equations. lia.
    + assert (Hq' : 0 <= n / 10 < 10 ^ Z.of_nat fuel').
      { rewrite (Nat2Z.inj_succ fuel'), Z.pow_succ_r in Hn by lia.
        Z.to_euclidean_division_equations. nia. }
      subst fuel'.
      destruct (IH (n / 10) (String (WString.digit (n mod 10)) acc) Hq')
        as (k & Hk & Hread).
      exists (k + 1). split; [lia | ]. intros a. rewrite Hread.
      cbn [Text.readDigits]. rewrite Hd. f_equal.
      rewrite Z.pow_add_r, Z.pow_1_r by lia.
      pose proof (Z.div_mod n 10 ltac:(lia)). nia.
Qed.

(** [utoa] writes at least one digit, and no leading zero for a positive
    number. *)
Lemma utoa_leading (fuel : nat) :
  forall n acc, 0 <= n < 10 ^ Z.of_nat (S fuel) ->
    exists c rest, WString.utoa (S fuel) n acc = String c rest /\
                   (0 < n -> c <> "0"%char).
Proof.
  induction fuel as [ | fuel IH]; intros n acc Hn.
  - cbn [WString.utoa].
    pose proof (Z.mod_pos_bound n 10 ltac:(lia)) as Hr.
    change (10 ^ Z.of_nat 1) with 10 in Hn.
    replace (n / 10 =? 0) with true
      by (symmetry; apply Z.eqb_eq; Z.to_euclidean_division_equations; lia).
    do 2 eexists. split; [reflexivity | ]. intros Hpos.
    apply (digitValue_digit (n mod 10)); [lia | ].
    Z.to_euclidean_division_equations. lia.
  - remember (S fuel) as fuel' eqn:Hf. cbn [WString.utoa].
    pose proof (Z.mod_pos_bound n 10 ltac:(lia)) as Hr.
    destruct (Z.eqb_spec (n / 10) 0) as [Hq | Hq].
    + do 2 eexists. split; [reflexivity | ]. intros Hpos.
      apply (digitValue_digit (n mod 10)); [lia | ].
      Z.to_euclidean_division_equations. lia.
    + assert (Hq' : 0 < n / 10 < 10 ^ Z.of_nat fuel').
      { rewrite (Nat2Z.inj_succ fuel'), Z.pow_succ_r in Hn by lia.
        Z.to_euclidean_division_equations. nia. }
      subst fuel'.
      destruct (IH (n / 10) (String (WString.digit (n mod 10)) acc)
                   ltac:(lia)) as (c & rest & -> & Hc).
      exists c, rest. split; [reflexivity | ]. intros _. apply Hc. lia.
Qed.

(** The decimal numeral of [n]: read back it is [n], and it is written
    without leading zero. *)
Lemma utoa_numeral (fuel : nat) (n : Z) :
  0 <= n < 10 ^ Z.of_nat (S fuel) ->
  Text.readDecimal (WString.utoa (S fuel) n EmptyString) = Some n /\
  (0 < n -> WString.charAt (WString.utoa (S fuel) n EmptyString) 0 <> "0"%char).
Proof.
  intros Hn.
  destruct (utoa_leading fuel n EmptyString Hn) as (c & rest & Hs & Hc).
  destruct (readDigits_utoa fuel n EmptyString Hn) as (k & Hk & Hread).
  split.
  - unfold Text.readDecimal. rewrite Hs. rewrite <- Hs. rewrite Hread.
    cbn [Text.readDigits]. f_equal; lia.
  - intros Hpos. rewrite Hs. exact (Hc Hpos).
Qed.

Lemma plain_padding (c : ascii) (k : nat) :
  Ascii.eqb c WString.deg0 = false ->
  Text.plain (String.concat EmptyString (repeat (String c EmptyString) k)) = true.
Proof.
  intros Hc. induction k as [ | k IH]; [reflexivity | ].
  cbn [repeat String.concat]. destruct (repeat (String c EmptyString) k) eqn:Hrep.
  - cbn [Text.plain]. now rewrite Hc.
  - rewrite plain_app. cbn [String.append]. rewrite IH.
    cbn [Text.plain]. now rewrite Hc.
Qed.

Lemma plain_padLeft (width : nat) (c : ascii) (s : string) :
  Ascii.eqb c WString.deg0 = false -> Text.plain s = true ->
  Text.plain (WString.padLeft width c s) = true.
Proof.
  intros Hc Hs. unfold WString.padLeft.
  now rewrite plain_app, plain_padding, Hs.
Qed.

Lemma plain_fixedDigits (scaled places : Z) :
  Text.plain (WString.fixedDigits scaled places) = true.
Proof.
  unfold WString.fixedDigits. cbv zeta.
  destruct (places =? 0).
  - now apply plain_utoa.
  - rewrite !plain_app, plain_utoa, plain_padLeft by
      (try reflexivity; now apply plain_utoa).
    reflexivity.
Qed.

(** A formatted [float] holds no degree sign. *)
Lemma plain_ofFloat (val : spec_float) (places : Z) :
  Text.plain (WString.ofFloat val places) = true.
Proof.
  unfold WString.ofFloat. cbv zeta. apply plain_padLeft; [reflexivity | ].
  destruct val as [s | s | | s m e];
    try (destruct s; rewrite ?plain_app, ?plain_fixedDigits; reflexivity).
  reflexivity.
Qed.

Lemma scaledMagnitude_nonneg (m : positive) (e places : Z) :
  0 <= places -> 0 <= WString.scaledMagnitude m e places.
Proof.
  intros Hp. unfold WString.scaledMagnitude.
  assert (H10 : 0 < 10 ^ places) by (apply Z.pow_pos_nonneg; lia).
  destruct (Z.leb_spec 0 e) as [He | He].
  - assert (0 < 2 ^ e) by (apply Z.pow_pos_nonneg; lia). nia.
  - unfold WString.roundDiv. cbv zeta.
    assert (Hden : 0 < 2 ^ (- e)) by (apply Z.pow_pos_nonneg; lia).
    assert (Hq : 0 <= Z.pos m * 10 ^ places / 2 ^ (- e))
      by (apply Z.div_pos; nia).
    destruct (_ || _); lia.
Qed.

(** The two decimals: always two digits, read back they are [r]. *)
Lemma cents_numeral (r : Z) :
  0 <= r < 100 ->
  let cents := WString.padLeft 2 "0"%char (WString.utoa 40 r EmptyString) in
  String.length cents = 2%nat /\ Text.readDecimal cents = Some r.
Proof.
  intros Hr cents. subst cents.
  pose proof (Z.mod_pos_bound r 10 ltac:(lia)) as Hones.
  destruct (digitValue_digit (r mod 10) ltac:(lia)) as (Hd1 & _).
  change 40%nat with (S 39). cbn [WString.utoa].
  destruct (Z.eqb_spec (r / 10) 0) as [Hq | Hq].
  - unfold WString.padLeft. cbn [String.length Nat.sub repeat String.concat
                                 String.append].
    split; [reflexivity | ].
    unfold Text.readDecimal. cbn [Text.readDigits].
    change (Helper.digitValue "0") with (Some 0). rewrite Hd1. f_equal.
    Z.to_euclidean_division_equations. lia.
  - change 39%nat with (S 38). cbn [WString.utoa].
    assert (Htens : 0 <= r / 10 <= 9)
      by (Z.to_euclidean_division_equations; lia).
    replace (r / 10 / 10 =? 0) with true
      by (symmetry; apply Z.eqb_eq; Z.to_euclidean_division_equations; lia).
    replace (r / 10 mod 10) with (r / 10)
      by (Z.to_euclidean_division_equations; lia).
    destruct (digitValue_digit (r / 10) Htens) as (Hd2 & _).
    unfold WString.padLeft. cbn [String.length Nat.sub repeat String.concat
                                 String.append].
    split; [reflexivity | ].
    unfold Text.readDecimal. cbn [Text.readDigits]. rewrite Hd2, Hd1. f_equal.
    Z.to_euclidean_division_equations. lia.
Qed.

Lemma string_length_app (a b : string) :
  String.length (a ++ b) = (String.length a + String.length b)%nat.
Proof.
  induction a as [ | c a IH]; [reflexivity | ].
  cbn [String.append String.length]. now rewrite IH.
Qed.

(** [String(val, 2)] for a positive finite [float]: the whole part, a point
    and two decimals, with no padding in front. *)
Lemma ofFloat_two_decimals (m : positive) (e : Z) :
  let scaled := WString.scaledMagnitude m e 2 in
  scaled / 100 < 10 ^ 40 ->
  exists whole cents,
    WString.ofFloat (S754_finite false m e) 2 = (whole ++ "." ++ cents)%string /\
    String.length cents = 2%nat /\
    Text.readDecimal whole = Some (scaled / 100) /\
    Text.readDecimal cents = Some (scaled mod 100).
Proof.
  intros scaled Hbound.
  pose proof (scaledMagnitude_nonneg m e 2 ltac:(lia)) as Hs. fold scaled in Hs.
  assert (Hwhole : 0 <= scaled / 100 < 10 ^ Z.of_nat 40).
  { split; [apply Z.div_pos; lia | exact Hbound]. }
  destruct (utoa_numeral 39 (scaled / 100) Hwhole) as (Hread & _).
  destruct (utoa_leading 39 (scaled / 100) EmptyString Hwhole)
    as (c & rest & Hform & _).
  destruct (cents_numeral (scaled mod 100)
              ltac:(apply Z.mod_pos_bound; lia)) as (Hlen & Hcents).
  exists (WString.utoa 40 (scaled / 100) EmptyString),
         (WString.padLeft 2 "0"%char
            (WString.utoa 40 (scaled mod 100) EmptyString)).
  split; [ | split; [exact Hlen | split; [exact Hread | exact Hcents] ] ].
  unfold WString.ofFloat. cbv zeta. fold scaled.
  unfold WString.fixedDigits. cbv zeta.
  change (2 =? 0) with false. cbv iota.
  change (10 ^ 2) with 100. change (Z.to_nat 2) with 2%nat.
  change (Z.to_nat (2 + 2)) with 4%nat.
  set (whole := WString.utoa 40 (scaled / 100) EmptyString) in *.
  set (cents := WString.padLeft 2 "0"%char _) in *.
  unfold WString.padLeft at 1.
  replace (4 - String.length (EmptyString ++ whole ++ "." ++ cents))%nat
    with 0%nat.
  - reflexivity.
  - cbn [String.append]. rewrite string_length_app, Hform.
    cbn [String.length String.append]. rewrite Hlen. lia.
Qed.


(** ** Alignment resolution *)

Lemma name_correctForAlignment (l : Label.t) :
  Label._name (Label.correctForAlignment l) = Label._name l.
Proof.
  unfold Label.correctForAlignment.
  repeat match goal with |- context [if ?b then _ else _] => destruct b end;
    reflexivity.
Qed.

Lemma land_RIGHT_lor : Z.land (u8 (Z.lor RIGHT BOTTOM)) RIGHT = RIGHT.
Proof. reflexivity. Qed.

(** The anchor [correctForAlignment] stores for right-aligned text. *)
Lemma x_correctForAlignment_right (l : Label.t) :
  Z.land (Label._alignment l) RIGHT = RIGHT ->
  Label._x (Label.correctForAlignment l) =
    if Label._subscript l =? 0
    then u16 (Label._x l - WString.length (Label._name l) * Label._size l * CHAR_W)
    else u16 (Label._x l - WString.length (Label._name l) * Label._size l * CHAR_W
              - CHAR_W).
Proof.
  intros Hr. unfold Label.correctForAlignment. rewrite Hr, Z.eqb_refl.
  rewrite u32_mul_l, u16_sub_u32.
  destruct (Label._subscript l =? 0); cbn [negb];
    destruct (Z.land _ BOTTOM =? BOTTOM); cbn [Label._x Label.set_x Label.set_y];
    try reflexivity; apply u16_sub_u16.
Qed.

Lemma x_correctForAlignment_left (l : Label.t) :
  Z.land (Label._alignment l) RIGHT <> RIGHT ->
  Label._x (Label.correctForAlignment l) = Label._x l.
Proof.
  intros Hr. unfold Label.correctForAlignment.
  apply Z.eqb_neq in Hr. rewrite Hr.
  destruct (Z.land _ BOTTOM =? BOTTOM); reflexivity.
Qed.

(** The anchor [correctForAlignment] stores for bottom-aligned text. *)
Lemma y_correctForAlignment (l : Label.t) :
  Label._y (Label.correctForAlignment l) =
    if Z.land (Label._alignment l) BOTTOM =? BOTTOM
    then u16 (Label._y l - Label._size l * CHAR_H)
    else Label._y l.
Proof.
  unfold Label.correctForAlignment.
  destruct (Z.land (Label._alignment l) RIGHT =? RIGHT);
    [ destruct (negb (Label._subscript l =? 0)) | ];
    cbn [Label._alignment Label.set_x];
    destruct (Z.land (Label._alignment l) BOTTOM =? BOTTOM); reflexivity.
Qed.

(** The parts of the alignment law that hold: a bottom-aligned label is
    anchored [size * CHAR_H] above the requested y, and a right-aligned label
    without subscript is anchored where a top-left label requested at
    [X - len * size * CHAR_W] is. *)
Lemma ctor_alignment_without_subscript `{DISPLAY_TYPE}
    (X Y : Z) (T : string) (size color subscript : Z) (d : Display) :
  is_u8 size ->
  Label._y (fst (Label.ctor X Y T size color subscript BOTTOM d)) =
    u16 (Y - size * CHAR_H) /\
  Label._x (fst (Label.ctor X Y T size color 0 RIGHT d)) =
    u16 (X - WString.length T * size * CHAR_W) /\
  Label._x (fst (Label.ctor X Y T size color 0 RIGHT d)) =
    Label._x (fst (Label.ctor (X - WString.length T * size * CHAR_W) Y T
                              size color 0 (Z.lor TOP LEFT) d)) /\
  Label._y (fst (Label.ctor X Y T size color 0 RIGHT d)) =
    Label._y (fst (Label.ctor (X - WString.length T * size * CHAR_W) Y T
                              size color 0 (Z.lor TOP LEFT) d)).
Proof.
  intros Hs. unfold Label.ctor. cbn [fst Label._x Label._y Label.set_name].
  rewrite !y_correctForAlignment, x_correctForAlignment_right by reflexivity.
  rewrite x_correctForAlignment_left by (cbn; discriminate).
  cbn [Label._x Label._y Label._size Label._name Label._alignment Label._subscript].
  rewrite (u8_small size) by exact Hs.
  change (Z.land (u8 BOTTOM) BOTTOM =? BOTTOM) with true.
  change (Z.land (u8 RIGHT) BOTTOM =? BOTTOM) with false.
  change (Z.land (u8 (Z.lor TOP LEFT)) BOTTOM =? BOTTOM) with false.
  change (u8 0 =? 0) with true. cbv iota.
  repeat split; try reflexivity; wrap_arith.
Qed.

(** C3: the constructor at (100, 50), right-aligned, with the three
    characters "CO2" at size 2 and the last one subscripted.  The analytic
    width with the subscript one [CHAR_W] narrower is 30, so the law puts the
    anchor at 70; the constructor stores 58, twelve pixels further left, and
    the rectangle [erase] computes for that label ends at 88, not at 100.
    [changeName] follows the law: dropping the subscript from this label
    moves it to 52, where the constructor puts the same text without
    subscript at 64 = 70 - [CHAR_W]. *)
Theorem ctor_right_aligned_subscript_anchor :
  let l := fst (@Label.ctor cellDisplay 100 50 "CO2" 2 65535 3 RIGHT blank) in
  Label._x l = 58 /\
  100 - (WString.length "CO2" * 2 * CHAR_W - CHAR_W) = 70 /\
  ops (@Label.erase cellDisplay l 0 blank) =
    [OpSetTextSize 2; OpSetTextSize 1; OpFillRect 58 50 30 16 0] /\
  Label._x (Label.changeName l "CO2" 0) = 52 /\
  Label._x (fst (@Label.ctor cellDisplay 100 50 "CO2" 2 65535 0 RIGHT blank)) = 64.
Proof. vm_compute. repeat split. Qed.

(** ** changeName *)

(** The anchor [changeName] stores for a right-aligned label. *)
Lemma x_changeName_right (l : Label.t) (newName : string) (newSubscript : Z) :
  Z.land (Label._alignment l) RIGHT = RIGHT ->
  let shift :=
    (WString.length (Label.CORRECT_DEGREE_CHAR newName)
     - WString.length (Label._name l)) * Label._size l * CHAR_W in
  Label._x (Label.changeName l newName newSubscript) =
    if Label._subscript l =? 0
    then if u8 newSubscript =? 0
         then u16 (Label._x l - shift)
         else u16 (Label._x l - shift + CHAR_W)
    else if u8 newSubscript =? 0
         then u16 (Label._x l - shift - CHAR_W)
         else u16 (Label._x l - shift).
Proof.
  intros Hr shift. unfold Label.changeName.
  cbn [Label._x Label.set_name Label.set_subscript].
  unfold Label.correctForAlignment_name. rewrite Hr, Z.eqb_refl.
  cbn [Label._x Label.set_x].
  rewrite (u32_mul_l (WString.length _ - WString.length _) (Label._size l)).
  rewrite (u32_mul_l (_ * Label._size l) CHAR_W). fold shift.
  destruct (Label._subscript l =? 0); destruct (u8 newSubscript =? 0);
    cbn [andb negb]; unfold CHAR_W; wrap_arith.
Qed.

(** C4: [changeName] on a right-aligned label.  With [L1] the stored content
    length and [L2] the new one, the stored x-anchor moves left by
    [(L2 - L1) * size * CHAR_W] when the subscript state is unchanged; with
    equal lengths it moves right by [CHAR_W] when a subscript is gained and
    left by [CHAR_W] when it is lost; the shift is computed from the old
    content and subscript, which are replaced afterwards.  Anchors are
    [uint16_t], so all shifts are modulo 2^16. *)
Theorem changeName_right_aligned_shift
    (l : Label.t) (newName : string) (newSubscript : Z) :
  Z.land (Label._alignment l) RIGHT = RIGHT ->
  let name' := Label.CORRECT_DEGREE_CHAR newName in
  let L1 := WString.length (Label._name l) in
  let L2 := WString.length name' in
  let size := Label._size l in
  let l' := Label.changeName l newName newSubscript in
  Label._name l' = name' /\
  Label._subscript l' = u8 newSubscript /\
  ((Label._subscript l = 0 <-> u8 newSubscript = 0) ->
   Label._x l' = u16 (Label._x l - (L2 - L1) * size * CHAR_W)) /\
  (L2 = L1 -> Label._subscript l = 0 -> u8 newSubscript <> 0 ->
   Label._x l' = u16 (Label._x l + CHAR_W)) /\
  (L2 = L1 -> Label._subscript l <> 0 -> u8 newSubscript = 0 ->
   Label._x l' = u16 (Label._x l - CHAR_W)).
Proof.
  intros Hr name' L1 L2 size l'.
  split; [reflexivity | split; [reflexivity | ] ].
  subst l'. rewrite (x_changeName_right l newName newSubscript Hr).
  cbv zeta. fold name' L1 L2 size.
  repeat split.
  - intros Hiff.
    destruct (Z.eqb_spec (u8 newSubscript) 0) as [Hn | Hn];
      destruct (Z.eqb_spec (Label._subscript l) 0) as [Ho | Ho];
      try reflexivity; exfalso; tauto.
  - intros HL Ho Hn. rewrite HL, Z.sub_diag.
    apply Z.eqb_eq in Ho. apply Z.eqb_neq in Hn. rewrite Ho, Hn.
    f_equal. lia.
  - intros HL Ho Hn. rewrite HL, Z.sub_diag.
    apply Z.eqb_neq in Ho. apply Z.eqb_eq in Hn. rewrite Ho, Hn.
    f_equal. lia.
Qed.

Lemma changeName_right_aligned_shift_witness :
  Z.land (Label._alignment label_value) RIGHT = RIGHT /\
  Label._x (Label.changeName label_value "123" 0) = 100 - (3 - 2) * 4 * CHAR_W /\
  Label._x (Label.changeName label_value "CO" 2) = 100 + CHAR_W.
Proof.
  split; [reflexivity | split].
  - exact (proj1 (proj2 (proj2
             (changeName_right_aligned_shift label_value "123" 0 eq_refl)))
             (conj (fun _ => eq_refl) (fun _ => eq_refl))).
  - exact (proj1 (proj2 (proj2 (proj2
             (changeName_right_aligned_shift label_value "CO" 2 eq_refl))))
             eq_refl eq_refl ltac:(vm_compute; discriminate)).
Defined.

(** Where the shifted anchor stays on the 16-bit axis the shift is exact. *)
Lemma changeName_shift_exact
    (l : Label.t) (newName : string) (newSubscript : Z) :
  Z.land (Label._alignment l) RIGHT = RIGHT ->
  (Label._subscript l = 0 <-> u8 newSubscript = 0) ->
  let shift :=
    (WString.length (Label.CORRECT_DEGREE_CHAR newName)
     - WString.length (Label._name l)) * Label._size l * CHAR_W in
  0 <= Label._x l - shift < 2 ^ 16 ->
  Label._x (Label.changeName l newName newSubscript) = Label._x l - shift.
Proof.
  intros Hr Hiff shift Hrange.
  rewrite (x_changeName_right l newName newSubscript Hr). cbv zeta. fold shift.
  destruct (Z.eqb_spec (u8 newSubscript) 0) as [Hn | Hn];
    destruct (Z.eqb_spec (Label._subscript l) 0) as [Ho | Ho];
    try (exfalso; tauto); apply u16_small; exact Hrange.
Qed.

(** A label that is not right-aligned keeps its anchor. *)
Lemma changeName_left_aligned (l : Label.t) (newName : string) (newSubscript : Z) :
  Z.land (Label._alignment l) RIGHT <> RIGHT ->
  Label._x (Label.changeName l newName newSubscript) = Label._x l.
Proof.
  intros Hr. unfold Label.changeName, Label.correctForAlignment_name.
  apply Z.eqb_neq in Hr. rewrite Hr. reflexivity.
Qed.

(** ** Numeric content *)

Lemma name_ctor `{DISPLAY_TYPE} (x y : Z) (name : string)
    (size color subscript alignment : Z) (d : Display) :
  Label._name (fst (Label.ctor x y name size color subscript alignment d)) =
    Label.CORRECT_DEGREE_CHAR name.
Proof.
  unfold Label.ctor. cbn [fst Label._name Label.set_name].
  now rewrite name_correctForAlignment.
Qed.

(** C8: the numeric constructors.  Value 0, as [uint16_t] or as [float], gives
    the content " "; the integer 12 gives "12"; the float 3.5 gives "3.50".
    For every value: an integer that is 0 (as a [uint16_t]) gives " ", every
    other one gives its decimal numeral, which read back is the value and has
    no leading zero; a [float] that is not greater than 0 (either zero, a
    negative number, NaN) gives " ", every other one gives [String(val, 2)],
    for a finite value the whole part, a point and exactly two decimals, which
    read back are the value times 100, rounded.  CORRECT_DEGREE_CHAR leaves all
    of them as they are. *)
Theorem numeric_ctor_content `{DISPLAY_TYPE}
    (x y size color alignment : Z) (d : Display) :
  let int_name val :=
    Label._name (fst (Label.ctor_uint16 x y val size color alignment d)) in
  let float_name val :=
    Label._name (fst (Label.ctor_float x y val size color alignment d)) in
  (int_name 0 = " "%string /\
   float_name float_0 = " "%string /\
   int_name 12 = "12"%string /\
   float_name float_3_5 = "3.50"%string) /\
  (forall val,
      int_name val
        = (if 0 <? u16 val then WString.ofUnsigned (u16 val) else " "%string) /\
      Text.readDecimal (int_name val)
        = (if 0 <? u16 val then Some (u16 val) else None) /\
      WString.charAt (int_name val) 0 <> "0"%char) /\
  (forall val,
      float_name val
        = (if SFltb (S754_zero false) val then WString.ofFloat val 2
           else " "%string)) /\
  (forall s, float_name (S754_zero s) = " "%string) /\
  (forall m e,
      let scaled := WString.scaledMagnitude m e 2 in
      scaled / 100 < 10 ^ 40 ->
      exists whole cents,
        float_name (S754_finite false m e) = (whole ++ "." ++ cents)%string /\
        String.length cents = 2%nat /\
        Text.readDecimal whole = Some (scaled / 100) /\
        Text.readDecimal cents = Some (scaled mod 100)).
Proof.
  intros int_name float_name.
  assert (Hint : forall val,
             int_name val
             = (if 0 <? u16 val then WString.ofUnsigned (u16 val)
                else " "%string)).
  { intros val. subst int_name. cbv beta. unfold Label.ctor_uint16.
    rewrite name_ctor. apply CORRECT_DEGREE_CHAR_plain.
    destruct (0 <? u16 val); [apply plain_ofUnsigned | reflexivity]. }
  assert (Hfloat : forall val,
             float_name val
             = (if SFltb (S754_zero false) val then WString.ofFloat val 2
                else " "%string)).
  { intros val. subst float_name. cbv beta. unfold Label.ctor_float.
    rewrite name_ctor. apply CORRECT_DEGREE_CHAR_plain.
    destruct (SFltb _ _); [apply plain_ofFloat | reflexivity]. }
  split; [ | split; [ | split; [exact Hfloat | split] ] ].
  - rewrite !Hint, !Hfloat. repeat split; vm_compute; reflexivity.
  - intros val. split; [apply Hint | ]. rewrite Hint.
    pose proof (u16_range val) as Hrange.
    destruct (Z.ltb_spec 0 (u16 val)) as [Hpos | Hzero].
    + assert (Hb : 0 <= u16 val < 10 ^ Z.of_nat 10)
        by (change (10 ^ Z.of_nat 10) with 10000000000; lia).
      destruct (utoa_numeral 9 (u16 val) Hb) as (Hread & Hlead).
      split; [exact Hread | exact (Hlead Hpos)].
    + split; [reflexivity | discriminate].
  - intros s. rewrite Hfloat. destruct s; reflexivity.
  - intros m e scaled Hbound. rewrite Hfloat.
    change (SFltb (S754_zero false) (S754_finite false m e)) with true.
    cbv iota. now apply ofFloat_two_decimals.
Qed.

Lemma numeric_ctor_content_witness :
  WString.scaledMagnitude 14680064 (-22) 2 / 100 < 10 ^ 40 /\
  exists whole cents,
    Label._name (fst (@Label.ctor_float cellDisplay 0 0
                        (S754_finite false 14680064 (-22)) 2 65535 0 blank))
      = (whole ++ "." ++ cents)%string /\
    String.length cents = 2%nat /\
    Text.readDecimal whole = Some (WString.scaledMagnitude 14680064 (-22) 2 / 100) /\
    Text.readDecimal cents = Some (WString.scaledMagnitude 14680064 (-22) 2 mod 100).
Proof.
  split; [vm_compute; reflexivity | ].
  apply (proj2 (proj2 (proj2 (proj2
           (@numeric_ctor_content cellDisplay 0 0 2 65535 0 blank))))).
  vm_compute. reflexivity.
Defined.

Lemma ops_print_plain `{DISPLAY_TYPE} (l : Label.t) (d : Display) :
  Label._subscript l = 0 ->
  ops (Label.print l d) =
    ops d ++ [OpSetCursor (i16 (Label._x l)) (i16 (Label._y l));
              OpSetTextSize (u8 (Label._size l));
              OpSetTextColor (u16 (Label._color l));
              OpPrint (Label._name l)].
Proof.
  intros H0. unfold Label.print. rewrite H0. cbn [Z.eqb negb].
  unfold Tft.print, Tft.setTextColor, Tft.setTextSize, Tft.setCursor, emit.
  cbn [ops]. now rewrite <- !app_assoc.
Qed.

Lemma subscript_correctForAlignment (l : Label.t) :
  Label._subscript (Label.correctForAlignment l) = Label._subscript l.
Proof.
  unfold Label.correctForAlignment.
  repeat match goal with |- context [if ?b then _ else _] => destruct b end;
    reflexivity.
Qed.

(** The blank is also what the constructor prints for 0. *)
Lemma numeric_ctor_zero_prints_blank `{DISPLAY_TYPE}
    (x y size color alignment : Z) (d : Display) :
  exists pre,
    ops (snd (Label.ctor_uint16 x y 0 size color alignment d)) =
      pre ++ [OpPrint " "].
Proof.
  unfold Label.ctor_uint16, Label.ctor. cbn [snd].
  rewrite ops_print_plain
    by (cbn [Label._subscript Label.set_name];
        now rewrite subscript_correctForAlignment).
  cbn [Label._name Label.set_name]. rewrite name_correctForAlignment.
  eexists (_ ++ [_; _; _]). rewrite <- app_assoc. reflexivity.
Qed.

(** ** Numeric changeName and ValueBar::refreshValue *)

(** C10: the numeric [changeName] overloads format unconditionally.  For the
    value 0 the content becomes "0" (uint16_t) or "0.00" (float), where the
    constructors store " "; [ValueBar::refreshValue(0)] leaves "0" in the
    value label and its last display command prints "0". *)
Theorem numeric_changeName_zero `{DISPLAY_TYPE}
    (l : Label.t) (vb : ValueBar.t) (d : Display) :
  Label._name (Label.changeName_uint16 l 0) = "0"%string /\
  Label._name (Label.changeName_float l float_0) = "0.00"%string /\
  Label._name (ValueBar.labels_1 (fst (ValueBar.refreshValue_uint16 vb 0 d)))
    = "0"%string /\
  (exists pre,
      ops (snd (ValueBar.refreshValue_uint16 vb 0 d)) = pre ++ [OpPrint "0"]) /\
  Label._name (ValueBar.labels_1 (fst (ValueBar.refreshValue_float vb float_0 d)))
    = "0.00"%string /\
  (exists pre,
      ops (snd (ValueBar.refreshValue_float vb float_0 d)) = pre ++ [OpPrint "0.00"]).
Proof.
  repeat split; try reflexivity.
  - unfold ValueBar.refreshValue_uint16. cbn [snd].
    rewrite ops_print_plain by reflexivity.
    eexists (_ ++ [_; _; _]). rewrite <- app_assoc. reflexivity.
  - unfold ValueBar.refreshValue_float. cbn [snd].
    rewrite ops_print_plain by reflexivity.
    eexists (_ ++ [_; _; _]). rewrite <- app_assoc. reflexivity.
Qed.

(** ** bmpReader: shape of the bus traffic *)

Import bmpReader Bmp Bus.

Lemma body_trace_app (t1 t2 : list BusOp) :
  body_trace t1 -> body_trace t2 -> body_trace (t1 ++ t2).
Proof.
  induction 1; intros H2; cbn [app]; try constructor; auto.
Qed.

Lemma pixels_body (n : nat) :
  forall (b : Buffer) (f : File), body_trace (snd (pixels n b f)).
Proof.
  induction n as [ | n IH]; intros b f.
  - constructor.
  - cbn [pixels]. unfold bind at 1.
    destruct (sizeof_sdbuffer <=? buffidx b).
    + cbn [bind op read_buf ret app].
      match goal with |- context [pixels n ?b' ?f'] =>
        specialize (IH b' f'); destruct (pixels n b' f') as [[b2 f2] t2] end.
      cbn [snd app] in *. constructor. constructor. exact IH.
    + cbn [bind op ret app].
      match goal with |- context [pixels n ?b' ?f'] =>
        specialize (IH b' f'); destruct (pixels n b' f') as [[b2 f2] t2] end.
      cbn [snd app] in *. constructor. exact IH.
Qed.

Lemma rows_body (flip : bool) (off bmpHeight rowSize w : Z) (n : nat) :
  forall (row : Z) (b : Buffer) (f : File),
    body_trace (snd (rows flip off bmpHeight rowSize w n row b f)).
Proof.
  induction n as [ | n IH]; intros row b f.
  - constructor.
  - cbn [rows]. unfold bind at 1.
    destruct (negb (position f =? row_pos flip off bmpHeight rowSize row)).
    + cbn [bind op seek ret app]. unfold bind at 1.
      match goal with |- context [pixels ?k ?b' ?f'] =>
        pose proof (pixels_body k b' f') as Hp;
        destruct (pixels k b' f') as [[b2 f2] t2] end.
      match goal with |- context [rows _ _ _ _ _ n ?r ?b' ?f'] =>
        specialize (IH r b' f');
        destruct (rows flip off bmpHeight rowSize w n r b' f') as [[b3 f3] t3] end.
      cbn [snd app] in *. constructor. now apply body_trace_app.
    + cbn [ret]. unfold bind at 1.
      match goal with |- context [pixels ?k ?b' ?f'] =>
        pose proof (pixels_body k b' f') as Hp;
        destruct (pixels k b' f') as [[b2 f2] t2] end.
      match goal with |- context [rows _ _ _ _ _ n ?r ?b' ?f'] =>
        specialize (IH r b' f');
        destruct (rows flip off bmpHeight rowSize w n r b' f') as [[b3 f3] t3] end.
      cbn [snd app] in *. now apply body_trace_app.
Qed.

Lemma reads_only_read : reads_only read.
Proof.
  intros f. unfold read.
  destruct (nth_error _ _); repeat constructor; unfold header_read; eauto.
Qed.

Lemma reads_only_ret {A : Type} (a : A) : reads_only (ret a).
Proof. intros f. constructor. Qed.

Lemma reads_only_bind {A B : Type} (m : M A) (k : A -> M B) :
  reads_only m -> (forall a, reads_only (k a)) -> reads_only (bind m k).
Proof.
  intros Hm Hk f. unfold bind. specialize (Hm f).
  destruct (m f) as [[a f1] t1]. specialize (Hk a f1).
  destruct (k a f1) as [[b f2] t2]. cbn [snd] in *.
  apply Forall_app. split; assumption.
Qed.

Lemma reads_only_read16 : reads_only read16.
Proof.
  unfold read16.
  repeat (apply reads_only_bind; [apply reads_only_read | intros ?]).
  apply reads_only_ret.
Qed.

Lemma reads_only_read32 : reads_only read32.
Proof.
  unfold read32.
  repeat (apply reads_only_bind; [apply reads_only_read | intros ?]).
  apply reads_only_ret.
Qed.

Lemma opened_shape_bind {A : Type} (m : M A) (k : A -> M unit) :
  reads_only m ->
  (forall a f, opened_shape (snd (k a f))) ->
  forall f, opened_shape (snd (bind m k f)).
Proof.
  intros Hm Hk f. unfold bind. specialize (Hm f).
  destruct (m f) as [[a f1] t1]. specialize (Hk a f1).
  destruct (k a f1) as [[b f2] t2]. cbn [snd] in *.
  destruct Hk as (H & HH & [-> | (B & x & y & w & h & HB & ->)]).
  - exists (t1 ++ H). split; [apply Forall_app; now split | now left].
  - exists (t1 ++ H). split; [apply Forall_app; now split | right].
    exists B, x, y, w, h. split; [exact HB | now rewrite <- app_assoc].
Qed.

Lemma opened_shape_ret (f : File) : opened_shape (snd (ret tt f)).
Proof. exists []. split; [constructor | now left]. Qed.

Lemma stream_shape `{DISPLAY_TYPE} (x y off W Hgt : Z) (buf : list Z) (f : File) :
  opened_shape (snd (stream x y off W Hgt buf f)).
Proof.
  unfold stream. cbv zeta. unfold bind at 1. cbn [op]. unfold bind at 1. cbn [op].
  unfold bind at 1.
  match goal with |- context [rows ?a ?b ?c ?d ?e ?n ?r ?bb ?ff] =>
    pose proof (rows_body a b c d e n r bb ff) as HB;
    destruct (rows a b c d e n r bb ff) as [[b3 f3] t3] end.
  cbn [op snd app] in *.
  exists []. split; [constructor | right].
  do 5 eexists. split; [exact HB | ]. cbn [app]. reflexivity.
Qed.

Lemma parse_shape `{DISPLAY_TYPE} (x y : Z) (buf : list Z) (f : File) :
  opened_shape (snd (parse x y buf f)).
Proof.
  unfold parse.
  repeat first
    [ apply opened_shape_ret
    | apply stream_shape
    | apply opened_shape_bind;
      [ first [apply reads_only_read16 | apply reads_only_read32] | intros ? ? ]
    | match goal with |- context [if ?c then _ else _] => destruct c end ].
Qed.

Lemma draw_has_shape `{DISPLAY_TYPE} (SD : string -> option (list Z))
    (sdbuffer0 : list Z) (filename : string) (x y : Z) :
  draw_shape (draw SD sdbuffer0 filename x y).
Proof.
  unfold draw. cbv zeta.
  destruct (_ || _); [constructor | ].
  destruct (SD filename) as [bytes | ]; [ | constructor].
  pose proof (parse_shape (i16 x) (i16 y) sdbuffer0 (mkFile bytes 0)) as Hs.
  destruct (parse _ _ _ _) as [[u f'] t]. cbn [snd] in Hs.
  destruct Hs as (Hd & HH & [-> | (B & x' & y' & w & h & HB & ->)]).
  - now constructor.
  - rewrite <- app_assoc. cbn [app]. rewrite <- app_assoc. cbn [app].
    now constructor.
Qed.

Lemma disciplined_reads (H : list BusOp) (rest : list BusOp) :
  Forall header_read H ->
  rest <> [] ->
  disciplined false false false (H ++ rest) = disciplined false false false rest.
Proof.
  intros HH Hrest. induction HH as [ | o H (pos & n & ->) _ IH]; [reflexivity | ].
  cbn [app disciplined is_storage negb andb in_transaction is_SetAddrWindow
       is_EndWrite orb].
  exact IH.
Qed.

Lemma disciplined_body (B : list BusOp) :
  body_trace B ->
  forall prev, disciplined true true prev (B ++ [EndWrite; SdClose]) = true.
Proof.
  induction 1 as [ | c t _ IH | pos t _ IH | pos n t _ IH]; intros prev.
  - reflexivity.
  - cbn. apply IH.
  - cbn. apply IH.
  - cbn. apply IH.
Qed.

Lemma draw_shape_disciplined (t : list BusOp) :
  draw_shape t -> disciplined false false false t = true.
Proof.
  destruct 1 as [ | | H HH | H B x y w h HH HB].
  - reflexivity.
  - reflexivity.
  - cbn [disciplined is_storage in_transaction is_SetAddrWindow is_EndWrite
         orb andb].
    rewrite disciplined_reads by (assumption || discriminate). reflexivity.
  - cbn [disciplined is_storage in_transaction is_SetAddrWindow is_EndWrite
         orb andb].
    rewrite disciplined_reads by (assumption || discriminate).
    cbn [disciplined is_storage in_transaction is_SetAddrWindow is_EndWrite
         orb andb].
    now apply disciplined_body.
Qed.

(** What a passed check means for every storage operation of the trace. *)
Lemma disciplined_sound (t : list BusOp) :
  forall open armed prev,
    disciplined open armed prev t = true ->
    in_transaction open t = false /\
    forall pre o post,
      t = pre ++ o :: post -> is_storage o = true ->
      in_transaction open pre = false /\
      ((armed || existsb is_SetAddrWindow pre)%bool = true ->
       ends_with_EndWrite prev pre = true /\
       starts_with_StartWrite post = true).
Proof.
  induction t as [ | a t IH]; intros open armed prev Hd.
  - split.
    + cbn in Hd. now destruct open.
    + intros [ | ? ?] ? ? Heq; discriminate Heq.
  - cbn [disciplined] in Hd. apply andb_true_iff in Hd as [Hhere Hrest].
    destruct (IH _ _ _ Hrest) as [Hend Hall].
    split.
    + destruct a; exact Hend.
    + intros pre o post Heq Hst.
      destruct pre as [ | p pre].
      * cbn [app] in Heq. injection Heq as -> ->.
        rewrite Hst in Hhere. apply andb_true_iff in Hhere as [Hopen Harmed].
        split; [now destruct open | ].
        cbn [existsb]. rewrite orb_false_r. intros ->.
        now apply andb_true_iff in Harmed.
      * cbn [app] in Heq. injection Heq as -> ->.
        destruct (Hall pre o post eq_refl Hst) as [Hin Hbr].
        split.
        -- destruct p; exact Hin.
        -- cbn [existsb ends_with_EndWrite]. rewrite orb_assoc. exact Hbr.
Qed.

Lemma ends_with_EndWrite_last (pre : list BusOp) :
  forall prev,
    ends_with_EndWrite prev pre = true ->
    (pre = [] /\ prev = true) \/ exists pre', pre = pre' ++ [EndWrite].
Proof.
  induction pre as [ | o pre IH]; intros prev Hl.
  - now left.
  - right. cbn [ends_with_EndWrite] in Hl.
    destruct (IH _ Hl) as [[-> Ho] | [pre' ->]].
    + destruct o; try discriminate Ho. now exists [].
    + now exists (o :: pre').
Qed.

(** C7: in every execution of [draw], no seek or read happens while a display
    transaction is open; every seek and read after the address window has
    been set comes directly after an [endWrite] and directly before a
    [startWrite]; and no transaction is open when [draw] returns. *)
Theorem draw_bus_discipline `{DISPLAY_TYPE}
    (SD : string -> option (list Z)) (sdbuffer0 : list Z)
    (filename : string) (x y : Z) :
  let t := draw SD sdbuffer0 filename x y in
  in_transaction false t = false /\
  forall pre o post,
    t = pre ++ o :: post ->
    is_storage o = true ->
    in_transaction false pre = false /\
    (existsb is_SetAddrWindow pre = true ->
     (exists pre', pre = pre' ++ [EndWrite]) /\
     (exists post', post = StartWrite :: post')).
Proof.
  intros t.
  pose proof (draw_shape_disciplined t (draw_has_shape SD sdbuffer0 filename x y))
    as Hd.
  destruct (disciplined_sound t _ _ _ Hd) as [Hend Hall].
  split; [exact Hend | ].
  intros pre o post Heq Hst.
  destruct (Hall pre o post Heq Hst) as [Hin Hbr].
  split; [exact Hin | ].
  intros Harmed. destruct (Hbr Harmed) as [Hl Hs].
  split.
  - destruct (ends_with_EndWrite_last pre false Hl) as [[_ Hf] | Hex];
      [discriminate Hf | exact Hex].
  - destruct post as [ | [ ] post']; try discriminate Hs. now exists post'.
Qed.

Lemma draw_bus_discipline_witness :
  let t := @draw cellDisplay (card "logo.bmp" plain_1x1) stack0 "logo.bmp" 0 0 in
  let pre := firstn 38 t in
  let post := skipn 39 t in
  t = pre ++ SdSeek 54 :: post /\
  existsb is_SetAddrWindow pre = true /\
  in_transaction false pre = false /\
  (exists pre', pre = pre' ++ [EndWrite]) /\
  (exists post', post = StartWrite :: post').
Proof.
  intros t pre post.
  assert (Heq : t = pre ++ SdSeek 54 :: post) by (vm_compute; reflexivity).
  destruct (@draw_bus_discipline cellDisplay (card "logo.bmp" plain_1x1) stack0
              "logo.bmp" 0 0) as [_ Hall].
  destruct (Hall pre (SdSeek 54) post Heq eq_refl) as [Hin Hbr].
  split; [exact Heq | ].
  split; [vm_compute; reflexivity | ].
  split; [exact Hin | ].
  apply Hbr. vm_compute. reflexivity.
Defined.

(** ** bmpReader: the header parse *)

Lemma read_at (bytes : list Z) (p : nat) :
  (p < List.length bytes)%nat ->
  read (mkFile bytes (Z.of_nat p)) =
    (nth p bytes 0, mkFile bytes (Z.of_nat (S p)), [SdRead (Z.of_nat p) 1]).
Proof.
  intros Hp. unfold read. cbn [content position]. rewrite Nat2Z.id.
  destruct (nth_error bytes p) as [b | ] eqn:Hb.
  - rewrite (nth_error_nth _ _ 0 Hb). now rewrite Nat2Z.inj_succ.
  - apply nth_error_None in Hb. lia.
Qed.

Lemma read16_at (bytes : list Z) (p : nat) :
  (p + 2 <= List.length bytes)%nat ->
  read16 (mkFile bytes (Z.of_nat p)) =
    (field 2 p bytes, mkFile bytes (Z.of_nat (p + 2)),
     [SdRead (Z.of_nat p) 1; SdRead (Z.of_nat (p + 1)) 1]).
Proof.
  intros Hp. unfold read16, bind.
  rewrite read_at by lia. rewrite read_at by lia.
  cbn [ret app field].
  replace (p + 2)%nat with (S (S p)) by lia.
  replace (p + 1)%nat with (S p) by lia.
  f_equal. f_equal. ring.
Qed.

Lemma read32_at (bytes : list Z) (p : nat) :
  (p + 4 <= List.length bytes)%nat ->
  read32 (mkFile bytes (Z.of_nat p)) =
    (field 4 p bytes, mkFile bytes (Z.of_nat (p + 4)),
     [SdRead (Z.of_nat p) 1; SdRead (Z.of_nat (p + 1)) 1;
      SdRead (Z.of_nat (p + 2)) 1; SdRead (Z.of_nat (p + 3)) 1]).
Proof.
  intros Hp. unfold read32, bind.
  do 4 (rewrite read_at by lia).
  cbn [ret app field].
  replace (p + 4)%nat with (S (S (S (S p)))) by lia.
  replace (p + 3)%nat with (S (S (S p))) by lia.
  replace (p + 2)%nat with (S (S p)) by lia.
  replace (p + 1)%nat with (S p) by lia.
  f_equal. f_equal. ring.
Qed.

Ltac step_read :=
  unfold bind at 1;
  first [ rewrite read32_at by (cbn; lia) | rewrite read16_at by (cbn; lia) ];
  cbv beta iota.

(** A supported header is read in 34 single bytes and leads into [stream]
    with the declared offset, width and height. *)
Lemma parse_supported `{DISPLAY_TYPE} (bytes : list Z) (x y : Z) (buf : list Z) :
  supported bytes ->
  parse x y buf (mkFile bytes 0) =
    (let '(u, f, t) :=
       stream x y (imageOffset bytes) (declaredWidth bytes)
              (declaredHeight bytes) buf (mkFile bytes 34) in
     (u, f, header_reads 34 ++ t)).
Proof.
  intros (Hlen & Hsig & Hpl & Hdepth & Hcomp).
  unfold signature, planes, bitDepth, compression in *.
  unfold parse. change (mkFile bytes 0) with (mkFile bytes (Z.of_nat 0)).
  step_read. rewrite Hsig. cbn [Z.eqb Pos.eqb].
  do 6 step_read.
  step_read. change (0 + 2 + 4 + 4 + 4 + 4 + 4 + 4)%nat with 26%nat.
  rewrite Hpl. cbn [Z.eqb Pos.eqb].
  step_read. change (26 + 2)%nat with 28%nat.
  rewrite Hdepth. change (u8 24 =? 24) with true. cbv iota.
  step_read. change (28 + 2)%nat with 30%nat.
  rewrite Hcomp. cbn [Z.eqb].
  change (Z.of_nat (30 + 4)) with 34.
  unfold imageOffset, declaredWidth, declaredHeight.
  change (0 + 2 + 4 + 4)%nat with 10%nat.
  change (10 + 4 + 4)%nat with 18%nat.
  change (18 + 4)%nat with 22%nat.
  destruct (stream _ _ _ _ _ _ _) as [[u f] t].
  reflexivity.
Qed.

(** A complete header that the code rejects leaves nothing but header reads
    on the bus: at most 34 of them. *)
Lemma parse_rejected `{DISPLAY_TYPE} (bytes : list Z) (x y : Z) (buf : list Z) :
  (34 <= List.length bytes)%nat ->
  signature bytes <> 19778 \/ planes bytes <> 1 \/
  u8 (bitDepth bytes) <> 24 \/ compression bytes <> 0 ->
  exists n, (n <= 34)%nat /\
            snd (parse x y buf (mkFile bytes 0)) = header_reads n.
Proof.
  intros Hlen Hbad.
  unfold signature, planes, bitDepth, compression in *.
  unfold parse. change (mkFile bytes 0) with (mkFile bytes (Z.of_nat 0)).
  step_read.
  destruct (Z.eqb_spec (field 2 0 bytes) 19778) as [Hsig | Hsig];
    [ | exists 2%nat; split; [lia | reflexivity] ].
  do 6 step_read.
  step_read. change (0 + 2 + 4 + 4 + 4 + 4 + 4 + 4)%nat with 26%nat.
  destruct (Z.eqb_spec (field 2 26 bytes) 1) as [Hpl | Hpl];
    [ | exists 28%nat; split; [lia | reflexivity] ].
  step_read. change (26 + 2)%nat with 28%nat.
  destruct (Z.eqb_spec (u8 (field 2 28 bytes)) 24) as [Hd | Hd];
    [ | exists 30%nat; split; [lia | reflexivity] ].
  step_read. change (28 + 2)%nat with 30%nat.
  destruct (Z.eqb_spec (field 4 30 bytes) 0) as [Hc | Hc];
    [ | exists 34%nat; split; [lia | reflexivity] ].
  exfalso. tauto.
Qed.

Lemma pushed_app (t1 t2 : list BusOp) : pushed (t1 ++ t2) = pushed t1 ++ pushed t2.
Proof.
  induction t1 as [ | o t1 IH]; [reflexivity | ].
  destruct o; cbn [app pushed]; rewrite IH; reflexivity.
Qed.

Lemma header_reads_quiet (n : nat) :
  pushed (header_reads n) = [] /\
  existsb is_display (header_reads n) = false /\
  ~ In SdClose (header_reads n).
Proof.
  unfold header_reads. generalize 0%nat.
  induction n as [ | n IH]; intros s; cbn [seq map pushed existsb is_display orb In].
  - tauto.
  - destruct (IH (S s)) as (Hp & Hd & Hc). repeat split; try assumption.
    intros [Heq | Hin]; [discriminate Heq | now apply Hc].
Qed.

(** The part of the rejection law that holds: a file with a complete header
    that has a wrong signature, a plane count other than 1, a bit depth whose
    low byte is not 24, or a compression code other than 0 is opened, read
    for at most 34 bytes and closed; nothing is sent to the display. *)
Lemma draw_rejects_unsupported `{DISPLAY_TYPE}
    (SD : string -> option (list Z)) (sdbuffer0 : list Z)
    (filename : string) (x y : Z) (bytes : list Z) :
  i16 x < Tft.width -> i16 y < Tft.height ->
  SD filename = Some bytes ->
  (34 <= List.length bytes)%nat ->
  signature bytes <> 19778 \/ planes bytes <> 1 \/
  u8 (bitDepth bytes) <> 24 \/ compression bytes <> 0 ->
  exists n,
    draw SD sdbuffer0 filename x y = SdOpen true :: header_reads n ++ [SdClose] /\
    pushed (draw SD sdbuffer0 filename x y) = [] /\
    existsb is_display (draw SD sdbuffer0 filename x y) = false.
Proof.
  intros Hx Hy Hopen Hlen Hbad.
  destruct (parse_rejected bytes (i16 x) (i16 y) sdbuffer0 Hlen Hbad)
    as (n & _ & Ht).
  exists n. unfold draw. cbv zeta.
  replace (Tft.width <=? i16 x) with false by (symmetry; apply Z.leb_gt; lia).
  replace (Tft.height <=? i16 y) with false by (symmetry; apply Z.leb_gt; lia).
  cbn [orb]. rewrite Hopen.
  destruct (parse _ _ _ _) as [[u f] t]. cbn [snd] in Ht. subst t.
  destruct (header_reads_quiet n) as (Hp & Hd & _).
  split; [reflexivity | split].
  - cbn [pushed]. rewrite pushed_app, Hp. reflexivity.
  - cbn [existsb is_display orb]. rewrite existsb_app, Hd. reflexivity.
Qed.

(** Once opened, the file is closed: the close is the last operation of
    [draw] and the only close. *)
Lemma draw_closes_file `{DISPLAY_TYPE}
    (SD : string -> option (list Z)) (sdbuffer0 : list Z)
    (filename : string) (x y : Z) (bytes : list Z) :
  i16 x < Tft.width -> i16 y < Tft.height ->
  SD filename = Some bytes ->
  exists t, draw SD sdbuffer0 filename x y = SdOpen true :: t ++ [SdClose] /\
            ~ In SdClose t.
Proof.
  intros Hx Hy Hopen. unfold draw. cbv zeta.
  replace (Tft.width <=? i16 x) with false by (symmetry; apply Z.leb_gt; lia).
  replace (Tft.height <=? i16 y) with false by (symmetry; apply Z.leb_gt; lia).
  cbn [orb]. rewrite Hopen.
  pose proof (parse_shape (i16 x) (i16 y) sdbuffer0 (mkFile bytes 0)) as Hs.
  destruct (parse _ _ _ _) as [[u f] t]. cbn [snd] in Hs.
  exists t. split; [reflexivity | ].
  assert (Hreads : forall Hd, Forall header_read Hd -> ~ In SdClose Hd).
  { intros Hd HF Hin. rewrite Forall_forall in HF.
    destruct (HF _ Hin) as (p & n & Heq). discriminate Heq. }
  assert (Hbody : forall B, body_trace B -> ~ In SdClose B).
  { induction 1; cbn [In]; intuition discriminate. }
  destruct Hs as (Hd & HH & [-> | (B & x' & y' & w & h & HB & ->)]).
  - now apply Hreads.
  - intros Hin. apply in_app_or in Hin as [Hin | Hin]; [now apply (Hreads Hd) | ].
    cbn [In] in Hin. destruct Hin as [Heq | [Heq | Hin]]; try discriminate.
    apply in_app_or in Hin as [Hin | Hin]; [now apply (Hbody B) | ].
    cbn [In] in Hin. intuition discriminate.
Qed.

(** C5: a one-pixel file whose bit-depth field is 280 (0x0118, not 24), with
    one plane and no compression.  [draw] keeps only the low byte of the
    field, takes the file for a 24-bit image and pushes a pixel.  Depth 8,
    two planes or a compression code of 1 are rejected. *)
Theorem draw_accepts_bit_depth_280 :
  bitDepth depth_280_1x1 = 280 /\
  pushed (@draw cellDisplay (card "logo.bmp" depth_280_1x1) stack0 "logo.bmp" 0 0)
    = [pixel_at depth_280_1x1 54] /\
  pushed (@draw cellDisplay (card "logo.bmp" depth_8_1x1) stack0 "logo.bmp" 0 0)
    = [] /\
  pushed (@draw cellDisplay (card "logo.bmp" planes_2_1x1) stack0 "logo.bmp" 0 0)
    = [] /\
  pushed (@draw cellDisplay (card "logo.bmp" compressed_1x1) stack0 "logo.bmp" 0 0)
    = [].
Proof. vm_compute. repeat split. Qed.

(** ** bmpReader: origins outside the display *)

(** C9 (amended): a request whose origin is at or beyond the right edge
    ([x >= width()]) or the bottom edge ([y >= height()]) of the display
    returns at once: no file is opened, nothing is read, nothing is sent to
    the display. *)
Theorem draw_skips_origin_past_far_edge `{DISPLAY_TYPE}
    (SD : string -> option (list Z)) (sdbuffer0 : list Z)
    (filename : string) (x y : Z) :
  Tft.width <= i16 x \/ Tft.height <= i16 y ->
  draw SD sdbuffer0 filename x y = [].
Proof.
  intros Hout. unfold draw. cbv zeta.
  replace ((Tft.width <=? i16 x) || (Tft.height <=? i16 y)) with true;
    [reflexivity | ].
  symmetry. apply orb_true_iff. rewrite !Z.leb_le. exact Hout.
Qed.

Lemma draw_skips_origin_past_far_edge_witness :
  @draw cellDisplay (card "logo.bmp" plain_1x1) stack0 "logo.bmp" 480 0 = [] /\
  @draw cellDisplay (card "logo.bmp" plain_1x1) stack0 "logo.bmp" 0 320 = [].
Proof.
  split.
  - apply (@draw_skips_origin_past_far_edge cellDisplay). left. vm_compute.
    discriminate.
  - apply (@draw_skips_origin_past_far_edge cellDisplay). right. vm_compute.
    discriminate.
Defined.

(** C9 as stated fails: an origin 1000 pixels left of the display, which a
    one-pixel image cannot reach from, is outside the pixel bounds, yet the
    file is opened and a pixel is pushed. *)
Lemma draw_origin_left_of_display_counterexample :
  ~ (forall (D : DISPLAY_TYPE) (SD : string -> option (list Z))
            (sdbuffer0 : list Z) (filename : string) (x y : Z),
        is_i16 x -> is_i16 y ->
        ~ (0 <= x < Tft.width /\ 0 <= y < Tft.height) ->
        draw SD sdbuffer0 filename x y = []).
Proof.
  intros Hall.
  assert (Hx : is_i16 (-1000)) by (unwrap; lia).
  assert (Hy : is_i16 0) by (unwrap; lia).
  assert (Hout : ~ (0 <= -1000 < @Tft.width cellDisplay /\
                    0 <= 0 < @Tft.height cellDisplay)) by lia.
  pose proof (Hall cellDisplay (card "logo.bmp" plain_1x1) stack0
                   "logo.bmp"%string (-1000) 0 Hx Hy Hout) as Ht.
  vm_compute in Ht. discriminate Ht.
Qed.

(** The bus traffic for that request. *)
Lemma draw_origin_left_of_display_trace :
  @draw cellDisplay (card "logo.bmp" plain_1x1) stack0 "logo.bmp" (-1000) 0 =
    SdOpen true :: header_reads 34 ++
    [StartWrite; SetAddrWindow 64536 0 1 1;
     EndWrite; SdSeek 54; StartWrite;
     EndWrite; SdRead 54 4; StartWrite;
     PushColor (pixel_at plain_1x1 54);
     EndWrite; SdClose].
Proof. vm_compute. reflexivity. Qed.

(** ** bmpReader: clipping and pixel counts *)

Import Clip.

Lemma pixels_pushed_count (n : nat) :
  forall (b : Buffer) (f : File),
    List.length (pushed (snd (pixels n b f))) = n.
Proof.
  induction n as [ | n IH]; intros b f; [reflexivity | ].
  cbn [pixels]. unfold bind at 1.
  destruct (sizeof_sdbuffer <=? buffidx b).
  - cbn [bind op read_buf ret app].
    match goal with |- context [pixels n ?b' ?f'] =>
      specialize (IH b' f'); destruct (pixels n b' f') as [[b2 f2] t2] end.
    cbn [snd app pushed List.length] in *. now rewrite IH.
  - cbn [bind op ret app].
    match goal with |- context [pixels n ?b' ?f'] =>
      specialize (IH b' f'); destruct (pixels n b' f') as [[b2 f2] t2] end.
    cbn [snd app pushed List.length] in *. now rewrite IH.
Qed.

Lemma rows_pushed_count (flip : bool) (off bmpHeight rowSize w : Z) (n : nat) :
  forall (row : Z) (b : Buffer) (f : File),
    List.length (pushed (snd (rows flip off bmpHeight rowSize w n row b f))) =
      (n * Z.to_nat w)%nat.
Proof.
  induction n as [ | n IH]; intros row b f; [reflexivity | ].
  cbn [rows]. unfold bind at 1.
  destruct (negb (position f =? row_pos flip off bmpHeight rowSize row)).
  - cbn [bind op seek ret app]. unfold bind at 1.
    match goal with |- context [pixels ?k ?b' ?f'] =>
      pose proof (pixels_pushed_count k b' f') as Hp;
      destruct (pixels k b' f') as [[b2 f2] t2] end.
    match goal with |- context [rows _ _ _ _ _ n ?r ?b' ?f'] =>
      specialize (IH r b' f');
      destruct (rows flip off bmpHeight rowSize w n r b' f') as [[b3 f3] t3] end.
    cbn [snd app pushed] in *. rewrite pushed_app, length_app, Hp, IH. lia.
  - cbn [ret]. unfold bind at 1.
    match goal with |- context [pixels ?k ?b' ?f'] =>
      pose proof (pixels_pushed_count k b' f') as Hp;
      destruct (pixels k b' f') as [[b2 f2] t2] end.
    match goal with |- context [rows _ _ _ _ _ n ?r ?b' ?f'] =>
      specialize (IH r b' f');
      destruct (rows flip off bmpHeight rowSize w n r b' f') as [[b3 f3] t3] end.
    cbn [snd app pushed] in *. rewrite pushed_app, length_app, Hp, IH. lia.
Qed.

(** The clipped extents [stream] works with, away from 32-bit overflow. *)
Lemma stream_extents `{DISPLAY_TYPE} (x y W Hd : Z) :
  is_i16 x -> is_i16 y ->
  0 <= W -> x + W < 2 ^ 31 ->
  - 2 ^ 31 < Hd -> y + absHeight Hd < 2 ^ 31 ->
  (if Tft.width <=? i32 (i32 (x + W) - 1) then i32 (Tft.width - x) else W)
    = clipped x W Tft.width /\
  (let h := if Hd <? 0 then i32 (- Hd) else Hd in
   if Tft.height <=? i32 (i32 (y + h) - 1) then i32 (Tft.height - y) else h)
    = clipped y (absHeight Hd) Tft.height.
Proof.
  intros Hx Hy HW HxW HHd HyH.
  pose proof (i16_range panel_width) as Hw. fold Tft.width in Hw.
  pose proof (i16_range panel_height) as Hh. fold Tft.height in Hh.
  unfold clipped, absHeight in *. unfold is_i16 in *.
  split.
  - rewrite (i32_small (x + W)) by lia.
    rewrite (i32_small (x + W - 1)) by lia.
    rewrite (i32_small (Tft.width - x)) by lia. reflexivity.
  - cbv zeta. destruct (Hd <? 0) eqn:Hneg.
    + apply Z.ltb_lt in Hneg.
      rewrite (i32_small (- Hd)) by lia.
      rewrite (i32_small (y + - Hd)) by lia.
      rewrite (i32_small (y + - Hd - 1)) by lia.
      rewrite (i32_small (Tft.height - y)) by lia. reflexivity.
    + apply Z.ltb_ge in Hneg.
      rewrite (i32_small (y + Hd)) by lia.
      rewrite (i32_small (y + Hd - 1)) by lia.
      rewrite (i32_small (Tft.height - y)) by lia. reflexivity.
Qed.

(** Address window and number of pushes of [stream], in terms of the extents
    it computes. *)
Lemma stream_window_and_count `{DISPLAY_TYPE}
    (x y off W Hd : Z) (buf : list Z) (f : File) :
  let w := if Tft.width <=? i32 (i32 (x + W) - 1) then i32 (Tft.width - x) else W in
  let h0 := if Hd <? 0 then i32 (- Hd) else Hd in
  let h := if Tft.height <=? i32 (i32 (y + h0) - 1) then i32 (Tft.height - y) else h0 in
  exists B,
    snd (stream x y off W Hd buf f) =
      StartWrite :: SetAddrWindow (u16 x) (u16 y) (u16 w) (u16 h)
                 :: B ++ [EndWrite] /\
    List.length (pushed B) = (Z.to_nat h * Z.to_nat w)%nat.
Proof.
  intros w h0 h. unfold stream. cbv zeta. fold w h0 h.
  unfold bind at 1. cbn [op]. unfold bind at 1. cbn [op]. unfold bind at 1.
  match goal with |- context [rows ?a ?b ?c ?d ?e ?n ?r ?bb ?ff] =>
    pose proof (rows_pushed_count a b c d e n r bb ff) as HB;
    destruct (rows a b c d e n r bb ff) as [[b3 f3] t3] end.
  cbn [op snd app] in *. exists t3. split; [reflexivity | exact HB].
Qed.

(** C6 as stated fails: 4 x 1 pixels drawn at x = 478 on the 480-pixel-wide
    display are clipped to two columns, six bytes of the row at offset 54;
    the read that fills the buffer ends at offset 66. *)
Lemma draw_clipped_reads_past_columns_counterexample :
  let t := @draw cellDisplay (card "logo.bmp" plain_4x1) stack0 "logo.bmp" 478 0 in
  pushed t = [pixel_at plain_4x1 54; pixel_at plain_4x1 57] /\
  ~ reads_end_by (imageOffset plain_4x1 + 3 * (@Tft.width cellDisplay - 478)) t.
Proof.
  split; [vm_compute; reflexivity | ].
  intros Hall. specialize (Hall 54 12).
  assert (Hin : In (SdRead 54 12)
                  (@draw cellDisplay (card "logo.bmp" plain_4x1) stack0
                         "logo.bmp" 478 0)).
  { vm_compute. repeat (first [left; reflexivity | right]). }
  specialize (Hall Hin). vm_compute in Hall. apply Hall. reflexivity.
Qed.

(** ** bmpReader: top-down files *)

(** C2: 99 x 2 pixels stored top-down, fully on the display.  198 pixels are
    pushed.  After row 0 the file position equals the offset of row 1, so no
    seek is made and the buffer index is left at the three padding bytes that
    end row 0: the pixel pushed for row 1, column 0 is built from offsets
    351..353, not from [54 + 1 * 300 + 3 * 0], and the rest of row 1 is
    shifted by one pixel. *)
Theorem draw_top_down_starts_row_in_padding :
  let t := @draw cellDisplay (card "logo.bmp" top_down_99x2) stack0 "logo.bmp" 0 0 in
  declaredWidth top_down_99x2 = 99 /\
  declaredHeight top_down_99x2 = -2 /\
  rowStride 99 = 300 /\
  List.length (pushed t) = 198%nat /\
  firstn 99 (pushed t) =
    map (fun col => pixel_at top_down_99x2 (54 + 0 * 300 + 3 * Z.of_nat col))
        (seq 0 99) /\
  nth 99 (pushed t) 0 = pixel_at top_down_99x2 (54 + 1 * 300 - 3) /\
  nth 99 (pushed t) 0 <> pixel_at top_down_99x2 (54 + 1 * 300 + 3 * 0) /\
  skipn 100 (pushed t) =
    map (fun col => pixel_at top_down_99x2 (54 + 1 * 300 + 3 * Z.of_nat col))
        (seq 0 98).
Proof. vm_compute. repeat split. discriminate. Qed.

(** ** bmpReader: the pixels of a bottom-up file *)

Import Stream.

Lemma at_refill (bytes buf : list Z) (q j : Z) :
  0 <= q -> 0 <= j < sizeof_sdbuffer ->
  q + j < Z.of_nat (List.length bytes) ->
  let n := Z.min sizeof_sdbuffer (Z.of_nat (List.length bytes) - q) in
  at_ (firstn (Z.to_nat n) (skipn (Z.to_nat q) bytes) ++ skipn (Z.to_nat n) buf) j
  = at_ bytes (q + j).
Proof.
  intros Hq Hj Hlt n. unfold at_.
  assert (Hjn : (Z.to_nat j < Z.to_nat n)%nat) by (subst n; lia).
  rewrite app_nth1
    by (rewrite length_firstn, length_skipn; subst n; lia).
  rewrite nth_firstn.
  replace (Z.to_nat j <? Z.to_nat n)%nat with true
    by (symmetry; apply Nat.ltb_lt; exact Hjn).
  rewrite nth_skipn. f_equal. lia.
Qed.

Lemma run_S (bytes : list Z) (v : Z) (n : nat) :
  run bytes v (S n) = pixel_at bytes v :: run bytes (v + 3) n.
Proof.
  unfold run. cbn [seq map]. rewrite Z.mul_0_r, Z.add_0_r. f_equal.
  rewrite <- seq_shift, map_map. apply map_ext. intros col.
  f_equal. lia.
Qed.

(** The inner loop: [n] pixels from offset [v], all inside the file. *)
Lemma pixels_in_step (bytes : list Z) (n : nat) :
  forall (v : Z) (b : Buffer) (q : Z),
    in_step bytes v b q ->
    v + 3 * Z.of_nat n <= Z.of_nat (List.length bytes) ->
    let r := pixels n b (mkFile bytes q) in
    pushed (snd r) = run bytes v n /\
    content (snd (fst r)) = bytes /\
    in_step bytes (v + 3 * Z.of_nat n) (fst (fst r)) (position (snd (fst r))).
Proof.
  induction n as [ | n IH]; intros v b q Hstep Hfit.
  - cbn. rewrite Z.add_0_r. repeat split. exact Hstep.
  - destruct Hstep as (k & Hidx & Hk & Hv & Hq & Hwin).
    unfold sizeof_sdbuffer, BUFFPIXEL in *. cbn [pixels]. unfold bind at 1.
    unfold sizeof_sdbuffer, BUFFPIXEL.
    destruct (Z.leb_spec (3 * 50) (buffidx b)) as [Hfull | Hpart].
    + (* refill *)
      assert (k = 50) by lia. subst k.
      assert (Hqv : q = v) by lia.
      cbn [bind op read_buf ret app]. unfold size. cbn [content position].
      set (n0 := Z.min (3 * 50) (Z.of_nat (List.length bytes) - q)).
      set (buf' := firstn (Z.to_nat n0) (skipn (Z.to_nat q) bytes)
                   ++ skipn (Z.to_nat n0) (sdbuffer b)).
      assert (Hb0 : at_ buf' 0 = at_ bytes v /\ at_ buf' (0 + 1) = at_ bytes (v + 1)
                    /\ at_ buf' (0 + 2) = at_ bytes (v + 2)).
      { subst buf' n0. rewrite Hqv.
        repeat split; rewrite (at_refill bytes (sdbuffer b) v) ;
          unfold sizeof_sdbuffer, BUFFPIXEL; try lia; f_equal; lia. }
      destruct Hb0 as (H0 & H1 & H2). cbn [sdbuffer buffidx]. rewrite H0, H1, H2.
      assert (Hnext : in_step bytes (v + 3) (mkBuffer buf' (u16 (0 + 3))) (q + n0)).
      { exists 1. cbn [buffidx sdbuffer]. unfold sizeof_sdbuffer, BUFFPIXEL.
        split; [reflexivity | ]. split; [lia | ]. split; [lia | ].
        split; [subst n0; lia | ].
        intros j Hj Hjlt. subst buf' n0. rewrite Hqv.
        rewrite (at_refill bytes (sdbuffer b) v);
          unfold sizeof_sdbuffer, BUFFPIXEL; try lia. f_equal. lia. }
      specialize (IH (v + 3) (mkBuffer buf' (u16 (0 + 3))) (q + n0) Hnext
                     ltac:(lia)).
      destruct (pixels n (mkBuffer buf' (u16 (0 + 3))) (mkFile bytes (q + n0)))
        as [[b2 f2] t2].
      cbn [fst snd app pushed] in *.
      destruct IH as (Hp & Hc & Hs).
      rewrite Hp, run_S. fold (pixel_at bytes v).
        repeat split; try assumption.
        replace (v + 3 * Z.of_nat (S n)) with (v + 3 + 3 * Z.of_nat n) by lia.
        exact Hs.
    + (* buffer still holds the pixel *)
      cbn [bind op ret app].
      assert (Hk' : k < 50) by lia.
      rewrite (Hwin (buffidx b)), (Hwin (buffidx b + 1)), (Hwin (buffidx b + 2))
        by lia.
      replace (v - 3 * k + buffidx b) with v by lia.
      replace (v - 3 * k + (buffidx b + 1)) with (v + 1) by lia.
      replace (v - 3 * k + (buffidx b + 2)) with (v + 2) by lia.
      assert (Hnext : in_step bytes (v + 3)
                        (mkBuffer (sdbuffer b) (u16 (buffidx b + 3))) q).
      { exists (k + 1). cbn [buffidx sdbuffer]. unfold sizeof_sdbuffer, BUFFPIXEL.
        repeat split; try lia.
        - rewrite u16_small by (unwrap; lia). lia.
        - intros j Hj Hjlt.
          replace (v + 3 - 3 * (k + 1) + j) with (v - 3 * k + j) in * by lia.
          apply Hwin; lia. }
      specialize (IH (v + 3) (mkBuffer (sdbuffer b) (u16 (buffidx b + 3))) q
                     Hnext ltac:(lia)).
      destruct (pixels n (mkBuffer (sdbuffer b) (u16 (buffidx b + 3)))
                       (mkFile bytes q)) as [[b2 f2] t2].
      cbn [fst snd app pushed] in *.
      destruct IH as (Hp & Hc & Hs).
      rewrite Hp, run_S. fold (pixel_at bytes v).
        repeat split; try assumption.
        replace (v + 3 * Z.of_nat (S n)) with (v + 3 + 3 * Z.of_nat n) by lia.
        exact Hs.
Qed.

Lemma rowSize_of_rowStride (W : Z) :
  0 <= W -> W * 3 + 3 < 2 ^ 31 -> rowSize_of W = rowStride W.
Proof.
  intros HW Hfit. unfold rowSize_of, rowStride.
  rewrite (i32_small (W * 3)) by lia.
  rewrite (i32_small (W * 3 + 3)) by lia.
  rewrite <- Z.ldiff_land.
  change 3 with (Z.ones 2) at 3.
  rewrite Z.ldiff_ones_r by lia.
  rewrite Z.shiftr_div_pow2, Z.shiftl_mul_pow2 by lia.
  change (2 ^ 2) with 4.
  apply u32_small. Z.to_euclidean_division_equations. lia.
Qed.

Lemma row_pos_bottom_up (off H rs row : Z) :
  0 <= off -> 0 <= rs -> 0 <= row < H -> H < 2 ^ 31 ->
  off + H * rs < 2 ^ 32 ->
  row_pos true off H rs row = off + (H - 1 - row) * rs.
Proof.
  intros Hoff Hrs Hrow HH Hfit. unfold row_pos.
  rewrite (i32_small (H - 1)) by lia.
  rewrite (i32_small (H - 1 - row)) by lia.
  assert (Hprod : 0 <= (H - 1 - row) * rs <= H * rs) by nia.
  rewrite (u32_small (H - 1 - row)) by lia.
  rewrite (u32_small ((H - 1 - row) * rs)) by lia.
  apply u32_small. lia.
Qed.

(** The outer loop on a bottom-up file: every row begins with a freshly
    filled buffer, either after a seek or, at the very first row, because the
    buffer index starts at the end of the buffer. *)
Lemma rows_bottom_up (bytes : list Z) (off H rs w : Z) :
  0 <= off -> 0 < rs -> 0 <= w -> 3 * w <= rs -> H < 2 ^ 31 ->
  off + H * rs <= Z.of_nat (List.length bytes) ->
  Z.of_nat (List.length bytes) < 2 ^ 32 ->
  forall (n : nat) (row : Z) (b : Buffer) (q : Z),
    0 <= row -> row + Z.of_nat n <= H ->
    (q <> off + (H - 1 - row) * rs \/ buffidx b = sizeof_sdbuffer) ->
    pushed (snd (rows true off H rs w n row b (mkFile bytes q))) =
      bottom_up bytes off H rs (Z.to_nat w) n row.
Proof.
  intros Hoff Hrs Hw Hwrs HH Hpay Hsize.
  induction n as [ | n IH]; intros row b q Hrow Hn Hpre; [reflexivity | ].
  cbn [rows bottom_up].
  rewrite row_pos_bottom_up by (try lia; nia).
  set (pos := off + (H - 1 - row) * rs).
  assert (Hpos : 0 <= pos /\ pos + rs <= Z.of_nat (List.length bytes))
    by (subst pos; nia).
  unfold bind at 1. cbn [position].
  assert (Hstep : exists b1,
             (if negb (q =? pos)
              then (_ <- op EndWrite ;; _ <- seek pos ;; _ <- op StartWrite ;;
                    ret (mkBuffer (sdbuffer b) sizeof_sdbuffer)) (mkFile bytes q)
              else ret b (mkFile bytes q))
             = (b1, mkFile bytes pos,
                if negb (q =? pos) then [EndWrite; SdSeek pos; StartWrite] else [])
             /\ in_step bytes pos b1 pos).
  { destruct (Z.eqb_spec q pos) as [Heq | Hne]; cbn [negb].
    - exists b. split; [now rewrite Heq | ].
      destruct Hpre as [Hpre | Hpre]; [contradiction | ].
      exists BUFFPIXEL. unfold sizeof_sdbuffer, BUFFPIXEL in *.
      repeat split; lia.
    - exists (mkBuffer (sdbuffer b) sizeof_sdbuffer).
      split.
      + cbn [bind op seek ret app]. unfold size. cbn [content].
        replace (Z.of_nat (List.length bytes) <? pos) with false
          by (symmetry; apply Z.ltb_ge; lia).
        reflexivity.
      + exists BUFFPIXEL. unfold sizeof_sdbuffer, BUFFPIXEL in *.
        cbn [buffidx sdbuffer].
        repeat split; lia. }
  destruct Hstep as (b1 & -> & Hin).
  unfold bind at 1.
  destruct (pixels_in_step bytes (Z.to_nat w) pos b1 pos Hin ltac:(lia))
    as (Hp & Hc & Hs).
  destruct (pixels (Z.to_nat w) b1 (mkFile bytes pos)) as [[b2 [c2 q2]] t2].
  cbn [fst snd content position] in *. subst c2.
  specialize (IH (row + 1) b2 q2 ltac:(lia) ltac:(lia)).
  destruct (rows true off H rs w n (row + 1) b2 (mkFile bytes q2)) as [[b3 f3] t3].
  cbn [snd] in *.
  rewrite !pushed_app, Hp.
  replace (pushed (if negb (q =? pos) then [EndWrite; SdSeek pos; StartWrite] else []))
    with (@nil Z) by (destruct (negb (q =? pos)); reflexivity).
  cbn [app]. f_equal. apply IH.
  left. destruct Hs as (k & _ & Hk & _ & Hq2 & _).
  unfold sizeof_sdbuffer, BUFFPIXEL in *. subst pos. nia.
Qed.

Lemma length_run (bytes : list Z) (v : Z) (n : nat) :
  List.length (run bytes v n) = n.
Proof. unfold run. now rewrite length_map, length_seq. Qed.

Lemma nth_run (bytes : list Z) (v : Z) (n col : nat) :
  (col < n)%nat ->
  nth col (run bytes v n) 0 = pixel_at bytes (v + 3 * Z.of_nat col).
Proof.
  intros Hcol. unfold run.
  set (f := fun c : nat => pixel_at bytes (v + 3 * Z.of_nat c)).
  rewrite (nth_indep _ 0 (f 0%nat)) by (now rewrite length_map, length_seq).
  rewrite map_nth, seq_nth by exact Hcol. reflexivity.
Qed.

Lemma length_bottom_up (bytes : list Z) (off H rs : Z) (w n : nat) :
  forall row, List.length (bottom_up bytes off H rs w n row) = (n * w)%nat.
Proof.
  induction n as [ | n IH]; intros row; [reflexivity | ].
  cbn [bottom_up]. rewrite length_app, length_run, IH. lia.
Qed.

(** The pixel pushed for output position [(row + i, col)]. *)
Lemma nth_bottom_up (bytes : list Z) (off H rs : Z) (w n : nat) :
  forall (row : Z) (i col : nat),
    (i < n)%nat -> (col < w)%nat ->
    nth (i * w + col) (bottom_up bytes off H rs w n row) 0 =
      pixel_at bytes (off + (H - 1 - (row + Z.of_nat i)) * rs + 3 * Z.of_nat col).
Proof.
  induction n as [ | n IH]; intros row i col Hi Hcol; [lia | ].
  cbn [bottom_up]. destruct i as [ | i].
  - cbn [Nat.mul Nat.add]. rewrite app_nth1 by (rewrite length_run; lia).
    rewrite nth_run by exact Hcol. f_equal. f_equal. lia.
  - rewrite app_nth2 by (rewrite length_run; lia).
    rewrite length_run.
    replace (S i * w + col - w)%nat with (i * w + col)%nat by lia.
    rewrite IH by lia. f_equal. f_equal. f_equal. lia.
Qed.

(** The part of the round-trip law that holds: a supported file stored
    bottom-up whose payload is present is streamed row by row from the
    flipped offsets, clipped at the far edges of the display. *)
Lemma draw_bottom_up_pixels `{DISPLAY_TYPE}
    (SD : string -> option (list Z)) (sdbuffer0 : list Z)
    (filename : string) (x y : Z) (bytes : list Z) :
  is_i16 x -> is_i16 y ->
  x < Tft.width -> y < Tft.height ->
  SD filename = Some bytes ->
  supported bytes ->
  let W := declaredWidth bytes in
  let Hd := declaredHeight bytes in
  let off := imageOffset bytes in
  0 < W -> 0 < Hd ->
  x + W < 2 ^ 31 -> y + Hd < 2 ^ 31 -> W * 3 + 3 < 2 ^ 31 ->
  off + Hd * rowStride W <= Z.of_nat (List.length bytes) ->
  Z.of_nat (List.length bytes) < 2 ^ 32 ->
  pushed (draw SD sdbuffer0 filename x y) =
    bottom_up bytes off Hd (rowStride W)
              (Z.to_nat (clipped x W Tft.width))
              (Z.to_nat (clipped y Hd Tft.height)) 0.
Proof.
  intros Hx Hy Hxw Hyh Hopen Hsup W Hd off HW HH HxW HyH H3W Hpay Hsize.
  unfold draw. cbv zeta.
  rewrite (i16_small x), (i16_small y) by assumption.
  replace (Tft.width <=? x) with false by (symmetry; apply Z.leb_gt; lia).
  replace (Tft.height <=? y) with false by (symmetry; apply Z.leb_gt; lia).
  cbn [orb]. rewrite Hopen, (parse_supported bytes x y sdbuffer0 Hsup).
  fold W Hd off.
  assert (Habs : absHeight Hd = Hd).
  { unfold absHeight. replace (Hd <? 0) with false; [reflexivity | ].
    symmetry. apply Z.ltb_ge. lia. }
  destruct (stream_extents x y W Hd Hx Hy ltac:(lia) HxW ltac:(lia)
              ltac:(rewrite Habs; lia)) as [Hw Hh].
  cbv zeta in Hh. rewrite Habs in Hh.
  unfold stream. cbv zeta. rewrite Hw, Hh.
  replace (Hd <? 0) with false by (symmetry; apply Z.ltb_ge; lia).
  cbn [negb]. rewrite rowSize_of_rowStride by lia.
  assert (Hoff : 0 <= off).
  { subst off. unfold imageOffset. cbn [field].
    pose proof (u8_range (nth 10 bytes 0)). pose proof (u8_range (nth 11 bytes 0)).
    pose proof (u8_range (nth 12 bytes 0)). pose proof (u8_range (nth 13 bytes 0)).
    lia. }
  assert (Hrs : 3 * W <= rowStride W /\ 0 < rowStride W).
  { unfold rowStride. Z.to_euclidean_division_equations. lia. }
  assert (Hcw : 0 <= clipped x W Tft.width <= W).
  { unfold clipped. destruct (Z.leb_spec Tft.width (x + W - 1)); lia. }
  assert (Hch : clipped y Hd Tft.height <= Hd).
  { unfold clipped. destruct (Z.leb_spec Tft.height (y + Hd - 1)); lia. }
  assert (HHd : Hd < 2 ^ 31).
  { subst Hd. unfold declaredHeight, i32. Z.to_euclidean_division_equations. lia. }
  assert (Hrows :
    pushed (snd (rows true off Hd (rowStride W) (clipped x W Tft.width)
                      (Z.to_nat (clipped y Hd Tft.height)) 0
                      (mkBuffer sdbuffer0 sizeof_sdbuffer) (mkFile bytes 34))) =
    bottom_up bytes off Hd (rowStride W) (Z.to_nat (clipped x W Tft.width))
              (Z.to_nat (clipped y Hd Tft.height)) 0).
  { apply rows_bottom_up; try assumption; try lia. now right. }
  unfold bind at 1. cbn [op]. unfold bind at 1. cbn [op]. unfold bind at 1.
  destruct (rows true off Hd (rowStride W) (clipped x W Tft.width)
                 (Z.to_nat (clipped y Hd Tft.height)) 0
                 (mkBuffer sdbuffer0 sizeof_sdbuffer) (mkFile bytes 34))
    as [[b3 f3] t3].
  cbn [op snd app pushed] in *.
  rewrite !pushed_app.
  destruct (header_reads_quiet 34) as (Hq & _ & _). rewrite Hq.
  cbn [app pushed]. rewrite !pushed_app. cbn [pushed]. rewrite !app_nil_r.
  exact Hrows.
Qed.

(** Fully on the display there are [W * H] pushes, and the one for output
    position [(row, col)] is built from the triple at
    [imageOffset + (H - 1 - row) * rowStride + 3 * col]. *)
Lemma draw_bottom_up_inside `{DISPLAY_TYPE}
    (SD : string -> option (list Z)) (sdbuffer0 : list Z)
    (filename : string) (x y : Z) (bytes : list Z) :
  is_i16 x -> is_i16 y ->
  SD filename = Some bytes ->
  supported bytes ->
  let W := declaredWidth bytes in
  let Hd := declaredHeight bytes in
  let off := imageOffset bytes in
  0 < W -> 0 < Hd ->
  x + W <= Tft.width -> y + Hd <= Tft.height ->
  off + Hd * rowStride W <= Z.of_nat (List.length bytes) ->
  Z.of_nat (List.length bytes) < 2 ^ 32 ->
  let t := draw SD sdbuffer0 filename x y in
  List.length (pushed t) = Z.to_nat (W * Hd) /\
  forall row col : nat,
    Z.of_nat row < Hd -> Z.of_nat col < W ->
    nth (row * Z.to_nat W + col) (pushed t) 0 =
      pixel_at bytes (off + (Hd - 1 - Z.of_nat row) * rowStride W
                      + 3 * Z.of_nat col).
Proof.
  intros Hx Hy Hopen Hsup W Hd off HW HH HxW HyH Hpay Hsize t.
  pose proof (i16_range panel_width) as Hw. fold Tft.width in Hw.
  pose proof (i16_range panel_height) as Hh. fold Tft.height in Hh.
  unfold is_i16 in *.
  assert (Ht : pushed t = bottom_up bytes off Hd (rowStride W)
                            (Z.to_nat W) (Z.to_nat Hd) 0).
  { subst t.
    rewrite (draw_bottom_up_pixels SD sdbuffer0 filename x y bytes);
      try assumption; fold W Hd off; try lia.
    unfold clipped.
    replace (Tft.width <=? x + W - 1) with false by (symmetry; apply Z.leb_gt; lia).
    replace (Tft.height <=? y + Hd - 1) with false by (symmetry; apply Z.leb_gt; lia).
    reflexivity. }
  rewrite Ht. split.
  - rewrite length_bottom_up. nia.
  - intros row col Hrow Hcol. rewrite nth_bottom_up by lia.
    now rewrite Z.add_0_l.
Qed.

(** ** bmpReader: clipping at the far edges *)

(** C6 (amended): when the origin passes the first check and
    [x + declared width] exceeds the display width, the address window is
    [width() - x] columns wide and exactly [width() - x] pixels are pushed for
    each of the rows drawn; the rows are clipped the same way,
    [height() - y] of them when [y + declared height] exceeds the display
    height.  For a file stored bottom-up whose payload is present, the pixels
    pushed are the first [width() - x] of each row drawn.  (Sums are taken in
    32-bit [int]; the statement is for headers where they do not overflow.) *)
Theorem draw_clips_columns_and_rows `{DISPLAY_TYPE}
    (SD : string -> option (list Z)) (sdbuffer0 : list Z)
    (filename : string) (x y : Z) (bytes : list Z) :
  is_i16 x -> is_i16 y ->
  x < Tft.width -> y < Tft.height ->
  SD filename = Some bytes ->
  supported bytes ->
  let W := declaredWidth bytes in
  let Hd := declaredHeight bytes in
  0 < W -> x + W < 2 ^ 31 ->
  - 2 ^ 31 < Hd -> y + absHeight Hd < 2 ^ 31 ->
  Tft.width < x + W ->
  let columns := Tft.width - x in
  let lines := clipped y (absHeight Hd) Tft.height in
  let t := draw SD sdbuffer0 filename x y in
  (exists pre post,
      t = pre ++ SetAddrWindow (u16 x) (u16 y) (u16 columns) (u16 lines) :: post) /\
  List.length (pushed t) = (Z.to_nat lines * Z.to_nat columns)%nat /\
  (Tft.height < y + absHeight Hd -> lines = Tft.height - y) /\
  (0 < Hd -> W * 3 + 3 < 2 ^ 31 ->
   imageOffset bytes + Hd * rowStride W <= Z.of_nat (List.length bytes) ->
   Z.of_nat (List.length bytes) < 2 ^ 32 ->
   pushed t = bottom_up bytes (imageOffset bytes) Hd (rowStride W)
                        (Z.to_nat columns) (Z.to_nat lines) 0).
Proof.
  intros Hx Hy Hxw Hyh Hopen Hsup W Hd HW HxW HHd HyH Hclip columns lines t.
  assert (Hcols : clipped x W Tft.width = columns).
  { unfold clipped. replace (Tft.width <=? x + W - 1) with true; [reflexivity | ].
    symmetry. apply Z.leb_le. lia. }
  assert (Hcontent :
    0 < Hd -> W * 3 + 3 < 2 ^ 31 ->
    imageOffset bytes + Hd * rowStride W <= Z.of_nat (List.length bytes) ->
    Z.of_nat (List.length bytes) < 2 ^ 32 ->
    pushed t = bottom_up bytes (imageOffset bytes) Hd (rowStride W)
                         (Z.to_nat columns) (Z.to_nat lines) 0).
  { intros HH H3W Hpay Hsize. subst t lines.
    assert (Habs : absHeight Hd = Hd).
    { unfold absHeight. replace (Hd <? 0) with false; [reflexivity | ].
      symmetry. apply Z.ltb_ge. lia. }
    rewrite Habs in *. rewrite <- Hcols.
    apply draw_bottom_up_pixels; assumption. }
  assert (Hlines : Tft.height < y + absHeight Hd -> lines = Tft.height - y).
  { intros Hrows. subst lines. unfold clipped.
    replace (Tft.height <=? y + absHeight Hd - 1) with true; [reflexivity | ].
    symmetry. apply Z.leb_le. lia. }
  split; [ | split; [ | split; [exact Hlines | exact Hcontent] ] ];
    clear Hcontent Hlines;
    subst t; unfold draw; cbv zeta;
    rewrite (i16_small x), (i16_small y) by assumption;
    (replace (Tft.width <=? x) with false by (symmetry; apply Z.leb_gt; lia));
    (replace (Tft.height <=? y) with false by (symmetry; apply Z.leb_gt; lia));
    cbn [orb]; rewrite Hopen, (parse_supported bytes x y sdbuffer0 Hsup);
    destruct (stream_window_and_count x y (imageOffset bytes) W Hd sdbuffer0
                (mkFile bytes 34)) as (B & Ht & Hcount);
    fold W Hd;
    destruct (stream x y (imageOffset bytes) W Hd sdbuffer0 (mkFile bytes 34))
      as [[u f] t];
    cbn [snd] in Ht; subst t;
    destruct (stream_extents x y W Hd Hx Hy ltac:(lia) HxW HHd HyH) as [Hw Hh];
    cbv zeta in Hh; rewrite Hw, Hh in Hcount;
    rewrite ?Hw, ?Hh; rewrite Hcols in *; fold lines in Hcount |- *.
  - exists (SdOpen true :: header_reads 34 ++ [StartWrite]), (B ++ [EndWrite; SdClose]).
    cbn [app]. rewrite <- !app_assoc. cbn [app]. rewrite <- !app_assoc. reflexivity.
  - cbn [pushed]. rewrite !pushed_app.
    destruct (header_reads_quiet 34) as (Hq & _ & _). rewrite Hq.
    cbn [pushed app]. rewrite pushed_app. cbn [pushed]. rewrite !app_nil_r.
    exact Hcount.
Qed.

Lemma supported_plain_4x1 : supported plain_4x1.
Proof. unfold supported. repeat split; try reflexivity. cbn. lia. Qed.

Lemma draw_clips_columns_and_rows_witness :
  List.length
    (pushed (@draw cellDisplay (card "logo.bmp" plain_4x1) stack0 "logo.bmp" 478 0))
  = (1 * 2)%nat /\
  pushed (@draw cellDisplay (card "logo.bmp" plain_4x1) stack0 "logo.bmp" 478 0)
  = [pixel_at plain_4x1 54; pixel_at plain_4x1 57].
Proof.
  assert (H478 : is_i16 478) by (unwrap; lia).
  assert (H0 : is_i16 0) by (unwrap; lia).
  destruct (@draw_clips_columns_and_rows cellDisplay (card "logo.bmp" plain_4x1)
              stack0 "logo.bmp" 478 0 plain_4x1 H478 H0
              eq_refl eq_refl eq_refl supported_plain_4x1
              eq_refl eq_refl eq_refl eq_refl eq_refl)
    as (_ & Hcount & _ & Hcontent).
  split.
  - exact Hcount.
  - exact (Hcontent eq_refl eq_refl ltac:(vm_compute; discriminate) eq_refl).
Defined.

(** * Further properties *)

(** ** dig2 *)

Lemma dig2_chars (number : Z) :
  Helper.dig2 number =
    String (Helper.charOfInt (48 + Z.rem (Z.quot number 10) 10))
      (String (Helper.charOfInt (48 + Z.rem number 10)) EmptyString).
Proof. reflexivity. Qed.

Lemma digitValue_charOfInt (k : Z) :
  0 <= k <= 9 -> Helper.digitValue (Helper.charOfInt (48 + k)) = Some k.
Proof.
  intros Hk.
  assert (Hcases : k = 0 \/ k = 1 \/ k = 2 \/ k = 3 \/ k = 4 \/ k = 5 \/ k = 6
                   \/ k = 7 \/ k = 8 \/ k = 9) by lia.
  repeat (destruct Hcases as [-> | Hcases]; [reflexivity | ]).
  subst k. reflexivity.
Qed.

Lemma digitValue_charOfInt_below (k : Z) :
  -9 <= k < 0 -> Helper.digitValue (Helper.charOfInt (48 + k)) = None.
Proof.
  intros Hk.
  assert (Hcases : k = -1 \/ k = -2 \/ k = -3 \/ k = -4 \/ k = -5 \/ k = -6
                   \/ k = -7 \/ k = -8 \/ k = -9) by lia.
  repeat (destruct Hcases as [-> | Hcases]; [reflexivity | ]).
  subst k. reflexivity.
Qed.

Lemma twoDigits_dig2 (number : Z) :
  0 <= number ->
  Helper.twoDigits (Helper.dig2 number) = Some (number mod 100).
Proof.
  intros Hn. rewrite dig2_chars. cbn [Helper.twoDigits].
  rewrite Z.quot_div_nonneg, !Z.rem_mod_nonneg by
    (try lia; try (apply Z.div_pos; lia)).
  pose proof (Z.mod_pos_bound (number / 10) 10 ltac:(lia)).
  pose proof (Z.mod_pos_bound number 10 ltac:(lia)).
  rewrite !digitValue_charOfInt by lia.
  f_equal. Z.to_euclidean_division_equations. lia.
Qed.

(** The remainder by 100 of a negative number, digit by digit. *)
Lemma rem_100_digits (number : Z) :
  number < 0 ->
  -9 <= Z.rem (Z.quot number 10) 10 <= 0 /\ -9 <= Z.rem number 10 <= 0 /\
  Z.rem number 100 = 10 * Z.rem (Z.quot number 10) 10 + Z.rem number 10.
Proof.
  intros Hn.
  pose proof (Z.rem_bound_pos_neg number 10 ltac:(lia) ltac:(lia)) as Hones.
  assert (Hq : Z.quot number 10 <= 0) by (apply Z.quot_le_upper_bound; lia).
  pose proof (Z.rem_bound_pos_neg (Z.quot number 10) 10 ltac:(lia) Hq) as Htens.
  repeat split; try lia.
  pose proof (Z.quot_rem' number 10). pose proof (Z.quot_rem' number 100).
  pose proof (Z.quot_rem' (Z.quot number 10) 10).
  replace (Z.quot number 100) with (Z.quot (Z.quot number 10) 10) in *
    by (rewrite Z.quot_quot by lia; reflexivity).
  lia.
Qed.

Lemma twoDigits_dig2_negative (number : Z) :
  number < 0 -> Z.rem number 100 <> 0 ->
  Helper.twoDigits (Helper.dig2 number) = None.
Proof.
  intros Hn Hne. destruct (rem_100_digits number Hn) as (Htens & Hones & Hsplit).
  rewrite dig2_chars. cbn [Helper.twoDigits].
  destruct (Z.eq_dec (Z.rem (Z.quot number 10) 10) 0) as [Ht | Ht].
  - rewrite Ht. rewrite (digitValue_charOfInt 0) by lia.
    rewrite digitValue_charOfInt_below by lia. reflexivity.
  - rewrite digitValue_charOfInt_below by lia. reflexivity.
Qed.

(** X1: for a number that is not negative, [dig2] gives its last two decimal
    digits, tens first; read back as a number they are [number mod 100], the
    number itself below 100. *)
Theorem dig2_last_two_digits (number : Z) :
  0 <= number ->
  Helper.twoDigits (Helper.dig2 number) = Some (number mod 100) /\
  (number < 100 -> Helper.twoDigits (Helper.dig2 number) = Some number).
Proof.
  intros Hn. split; [now apply twoDigits_dig2 | ].
  intros Hlt. rewrite twoDigits_dig2 by exact Hn. f_equal. apply Z.mod_small. lia.
Qed.

Lemma dig2_last_two_digits_witness :
  Helper.dig2 7 = "07"%string /\ Helper.dig2 2021 = "21"%string /\
  Helper.twoDigits (Helper.dig2 59) = Some 59.
Proof.
  split; [reflexivity | split; [reflexivity | ] ].
  apply (proj2 (dig2_last_two_digits 59 ltac:(lia))). lia.
Defined.

(** X2: for a negative number [dig2] still gives two characters, and unless
    the number is a multiple of 100 at least one of them is not a decimal
    digit: each is ['0'] lowered by the magnitude of the digit. *)
Theorem dig2_negative (number : Z) :
  number < 0 ->
  String.length (Helper.dig2 number) = 2%nat /\
  (Z.rem number 100 <> 0 -> Helper.twoDigits (Helper.dig2 number) = None) /\
  (Z.rem number 100 = 0 -> Helper.dig2 number = "00"%string).
Proof.
  intros Hn. split; [reflexivity | ]. split.
  - now apply twoDigits_dig2_negative.
  - intros H0. destruct (rem_100_digits number Hn) as (Htens & Hones & Hsplit).
    rewrite dig2_chars.
    assert (Z.rem (Z.quot number 10) 10 = 0 /\ Z.rem number 10 = 0)
      as [-> ->] by lia.
    reflexivity.
Qed.

Lemma dig2_negative_witness :
  Helper.dig2 (-1) = "0/"%string /\ Helper.twoDigits (Helper.dig2 (-1)) = None.
Proof.
  split; [reflexivity | ].
  apply (proj1 (proj2 (dig2_negative (-1) ltac:(lia)))). vm_compute. discriminate.
Defined.

(** ** CORRECT_DEGREE_CHAR *)

(** X3: after CORRECT_DEGREE_CHAR no two-byte degree sign is left in the
    text, so applying it again changes nothing; the text never gets longer,
    and a text without the two-byte sign is returned as it is. *)
Theorem CORRECT_DEGREE_CHAR_removes_every_sign (str : string) :
  Text.hasDegree (Label.CORRECT_DEGREE_CHAR str) = false /\
  Label.CORRECT_DEGREE_CHAR (Label.CORRECT_DEGREE_CHAR str)
    = Label.CORRECT_DEGREE_CHAR str /\
  WString.length (Label.CORRECT_DEGREE_CHAR str) <= WString.length str /\
  (Text.hasDegree str = false -> Label.CORRECT_DEGREE_CHAR str = str).
Proof.
  unfold Label.CORRECT_DEGREE_CHAR, WString.length.
  destruct (replaceDegree_facts (String.length str) str (le_n _))
    as (H1 & H2 & H3).
  repeat split; try assumption.
  - destruct (replaceDegree_facts _ (WString.replaceDegree str) (le_n _))
      as (_ & _ & H3').
    apply H3'. exact H1.
  - lia.
Qed.

Lemma CORRECT_DEGREE_CHAR_removes_every_sign_witness :
  Label.CORRECT_DEGREE_CHAR "ppm" = "ppm"%string.
Proof.
  apply (proj2 (proj2 (proj2 (CORRECT_DEGREE_CHAR_removes_every_sign "ppm")))).
  reflexivity.
Defined.

(** ** Label::print *)

Lemma string_app_assoc (a b c : string) :
  ((a ++ b) ++ c)%string = (a ++ (b ++ c))%string.
Proof. induction a as [ | x a IH]; cbn; [reflexivity | now rewrite IH]. Qed.

Lemma printed_app (a b : list DisplayOp) :
  Text.printed (a ++ b) = (Text.printed a ++ Text.printed b)%string.
Proof.
  induction a as [ | o a IH]; [reflexivity | ].
  destruct o; cbn [app Text.printed]; rewrite IH; try reflexivity.
  now rewrite string_app_assoc.
Qed.

Lemma string_app_nil_r (s : string) : (s ++ EmptyString)%string = s.
Proof. induction s as [ | c s IH]; cbn; [reflexivity | now rewrite IH]. Qed.

Lemma substring_whole (s : string) :
  forall k, (String.length s <= k)%nat -> String.substring 0 k s = s.
Proof.
  induction s as [ | c s IH]; intros k Hk.
  - destruct k; reflexivity.
  - destruct k as [ | k]; [cbn in Hk; lia | ].
    cbn [String.substring]. f_equal. apply IH. cbn [String.length] in Hk. lia.
Qed.

(** A string split around its character [k]. *)
Lemma substring_split (s : string) :
  forall k, (k < String.length s)%nat ->
    (String.substring 0 k s
     ++ String (match String.get k s with Some c => c | None => zero end)
               (String.substring (S k) (String.length s - S k) s))%string = s.
Proof.
  induction s as [ | c s IH]; intros k Hk; [cbn in Hk; lia | ].
  destruct k as [ | k].
  - cbn [String.substring String.get String.append String.length Nat.sub].
    f_equal. rewrite Nat.sub_0_r. apply substring_whole. lia.
  - cbn [String.substring String.get String.append String.length Nat.sub].
    f_equal. apply IH. cbn [String.length] in Hk. lia.
Qed.

Lemma substring_empty (s : string) (n : nat) : String.substring n 0 s = EmptyString.
Proof.
  revert n. induction s as [ | c s IH]; intros [ | n]; cbn; try reflexivity.
  apply IH.
Qed.

Lemma get_past_end (s : string) :
  forall k, (String.length s <= k)%nat -> String.get k s = None.
Proof.
  induction s as [ | c s IH]; intros k Hk; [reflexivity | ].
  destruct k as [ | k]; [cbn in Hk; lia | ].
  cbn [String.get]. apply IH. cbn [String.length] in Hk. lia.
Qed.

Lemma ops_tft_print `{DISPLAY_TYPE} (s : string) (d : Display) :
  ops (Tft.print s d) = ops d ++ [OpPrint s].
Proof. reflexivity. Qed.

Lemma ops_printChar `{DISPLAY_TYPE} (c : ascii) (d : Display) :
  ops (Tft.printChar c d) = ops d ++ [OpPrintChar c].
Proof. reflexivity. Qed.

Lemma ops_setCursor (x y : Z) (d : Display) :
  ops (Tft.setCursor x y d) = ops d ++ [OpSetCursor (i16 x) (i16 y)].
Proof. reflexivity. Qed.

Lemma ops_setTextColor (c : Z) (d : Display) :
  ops (Tft.setTextColor c d) = ops d ++ [OpSetTextColor (u16 c)].
Proof. reflexivity. Qed.

(** The three pieces [print] writes for a subscripted label. *)
Lemma print_pieces (name : string) (subscript : Z) :
  1 <= subscript ->
  (subscript <= WString.length name ->
   (WString.substring name 0 (subscript - 1)
    ++ String (WString.charAt name (subscript - 1))
              (WString.substringFrom name subscript))%string = name) /\
  (WString.length name < subscript ->
   WString.substring name 0 (subscript - 1) = name /\
   WString.charAt name (subscript - 1) = zero /\
   WString.substringFrom name subscript = EmptyString).
Proof.
  intros H1. unfold WString.substring, WString.substringFrom, WString.substring,
    WString.charAt, WString.length.
  replace (subscript - 1 <? 0) with false by (symmetry; apply Z.ltb_ge; lia).
  split.
  - intros Hle.
    pose proof (substring_split name (Z.to_nat (subscript - 1)) ltac:(lia)) as Hs.
    replace (Z.to_nat (subscript - 1 - 0)) with (Z.to_nat (subscript - 1))
      by (f_equal; lia).
    replace (Z.to_nat 0) with 0%nat by reflexivity.
    replace (Z.to_nat subscript) with (S (Z.to_nat (subscript - 1))) by lia.
    replace (Z.to_nat (Z.max subscript (Z.of_nat (String.length name)) - subscript))
      with (String.length name - S (Z.to_nat (subscript - 1)))%nat by lia.
    exact Hs.
  - intros Hgt. repeat split.
    + apply substring_whole. lia.
    + rewrite get_past_end by lia. reflexivity.
    + replace (Z.to_nat (Z.max subscript (Z.of_nat (String.length name)) - subscript))
        with 0%nat by lia.
      apply substring_empty.
Qed.

(** The characters [print] sends for a subscripted label. *)
Lemma printed_print_subscripted `{DISPLAY_TYPE} (l : Label.t) (d : Display) :
  1 <= Label._subscript l ->
  Text.printed (ops (Label.print l d))
    = (Text.printed (ops d)
       ++ WString.substring (Label._name l) 0 (Label._subscript l - 1)
       ++ String (WString.charAt (Label._name l) (Label._subscript l - 1))
                 (WString.substringFrom (Label._name l)
                                        (Label._subscript l)))%string.
Proof.
  intros H1. unfold Label.print.
  replace (Label._subscript l =? 0) with false by (symmetry; apply Z.eqb_neq; lia).
  cbn [negb]. cbv zeta.
  repeat first [ rewrite ops_tft_print | rewrite ops_printChar
               | rewrite ops_setCursor | rewrite ops_setTextSize
               | rewrite ops_setTextColor ].
  rewrite !printed_app. cbn [Text.printed].
  rewrite !string_app_nil_r, !string_app_assoc. reflexivity.
Qed.

(** The characters [print] sends when the subscript, if any, is inside the
    content. *)
Lemma printed_print_inside `{DISPLAY_TYPE} (l : Label.t) (d : Display) :
  Label._subscript l = 0 \/
  1 <= Label._subscript l <= WString.length (Label._name l) ->
  Text.printed (ops (Label.print l d))
    = (Text.printed (ops d) ++ Label._name l)%string.
Proof.
  intros [H0 | [H1 Hle] ].
  - rewrite ops_print_plain by exact H0.
    rewrite printed_app. cbn [Text.printed]. now rewrite string_app_nil_r.
  - rewrite printed_print_subscripted by exact H1.
    now rewrite (proj1 (print_pieces _ _ H1) Hle).
Qed.

(** X4: [print] writes every character of the content exactly once and in
    order, whether or not one of them is subscripted; a subscript index past
    the end writes the whole content followed by a NUL character. *)
Theorem print_writes_the_content `{DISPLAY_TYPE} (l : Label.t) (d : Display) :
  (Label._subscript l = 0 \/
   1 <= Label._subscript l <= WString.length (Label._name l) ->
   Text.printed (ops (Label.print l d))
     = (Text.printed (ops d) ++ Label._name l)%string) /\
  (1 <= Label._subscript l -> WString.length (Label._name l) < Label._subscript l ->
   Text.printed (ops (Label.print l d))
     = (Text.printed (ops d) ++ Label._name l ++ String zero EmptyString)%string).
Proof.
  split.
  - apply printed_print_inside.
  - intros H1 Hgt. rewrite printed_print_subscripted by exact H1.
    destruct (proj2 (print_pieces _ _ H1) Hgt) as (-> & -> & ->).
    reflexivity.
Qed.

Lemma print_writes_the_content_witness :
  Text.printed (ops (@Label.print cellDisplay label_CO2 blank)) = "CO2"%string.
Proof.
  apply (proj1 (@print_writes_the_content cellDisplay label_CO2 blank)).
  right. vm_compute. split; discriminate.
Defined.

Lemma state_setCursor (x y : Z) (d : Display) :
  cursor (Tft.setCursor x y d) = (i16 x, i16 y) /\
  textSize (Tft.setCursor x y d) = textSize d.
Proof. split; reflexivity. Qed.

Lemma state_setTextSize (s : Z) (d : Display) :
  cursor (Tft.setTextSize s d) = cursor d /\
  textSize (Tft.setTextSize s d) = u8 s.
Proof. split; reflexivity. Qed.

Lemma state_setTextColor (c : Z) (d : Display) :
  cursor (Tft.setTextColor c d) = cursor d /\
  textSize (Tft.setTextColor c d) = textSize d.
Proof. split; reflexivity. Qed.

Lemma state_print `{DISPLAY_TYPE} (s : string) (d : Display) :
  cursor (Tft.print s d) = cursorAfterPrint (textSize d) (cursor d) s /\
  textSize (Tft.print s d) = textSize d.
Proof. split; reflexivity. Qed.

Lemma state_printChar `{DISPLAY_TYPE} (c : ascii) (d : Display) :
  cursor (Tft.printChar c d)
    = cursorAfterPrint (textSize d) (cursor d) (String c EmptyString) /\
  textSize (Tft.printChar c d) = textSize d.
Proof. split; reflexivity. Qed.

Ltac display_state :=
  repeat first
    [ rewrite (proj1 (state_print _ _)) | rewrite (proj2 (state_print _ _))
    | rewrite (proj1 (state_printChar _ _)) | rewrite (proj2 (state_printChar _ _))
    | rewrite (proj1 (state_setCursor _ _ _)) | rewrite (proj2 (state_setCursor _ _ _))
    | rewrite (proj1 (state_setTextSize _ _)) | rewrite (proj2 (state_setTextSize _ _))
    | rewrite (proj1 (state_setTextColor _ _)) | rewrite (proj2 (state_setTextColor _ _)) ].

(** X5: on a display that advances by cells, [print] leaves the cursor on the
    label's line, advanced from the anchor by the footprint width: one cell
    per character at the label's size, less one [CHAR_W] for a subscripted
    character; the text size is back at the label's size. *)
Theorem print_advances_by_footprint `{DISPLAY_TYPE} (l : Label.t) (d : Display) :
  Text.advances_by_cells ->
  Label.wf l ->
  Label._subscript l = 0 \/
  (1 <= Label._subscript l <= WString.length (Label._name l) /\ 1 <= Label._size l) ->
  cursor (Label.print l d)
    = (i16 (Label._x l + Text.footprintWidth l), i16 (Label._y l)) /\
  textSize (Label.print l d) = Label._size l.
Proof.
  intros Hcells (Hx & Hy & Hc & Hs & Hsub & Hal) Hcase.
  assert (Hsz : u8 (Label._size l) = Label._size l) by (apply u8_small; exact Hs).
  unfold Text.footprintWidth.
  destruct Hcase as [H0 | [ [H1 Hle] Hsize] ].
  - unfold Label.print. rewrite H0. cbn [Z.eqb negb].
    display_state. rewrite Hcells, Hsz. cbn [fst snd].
    split; [ | reflexivity]. f_equal. rewrite Z.sub_0_r. apply i16_add_i16.
  - pose proof (proj1 (print_pieces (Label._name l) (Label._subscript l) H1) Hle)
      as Hsplit.
    apply (f_equal String.length) in Hsplit.
    rewrite string_length_app in Hsplit. cbn [String.length] in Hsplit.
    unfold WString.length in *.
    set (pre := WString.substring (Label._name l) 0 (Label._subscript l - 1)) in *.
    set (post := WString.substringFrom (Label._name l) (Label._subscript l)) in *.
    assert (Hsz1 : u8 (Label._size l - 1) = Label._size l - 1)
      by (apply u8_small; unwrap; lia).
    unfold Label.print.
    replace (Label._subscript l =? 0) with false by (symmetry; apply Z.eqb_neq; lia).
    cbn [negb]. cbv zeta. fold pre post.
    display_state. unfold Tft.getCursorX, Tft.getCursorY.
    display_state. rewrite !Hcells. cbn [fst snd].
    rewrite Hsz, Hsz1. unfold WString.length. cbn [String.length].
    split; [ | reflexivity]. f_equal.
    + rewrite !i16_i16, !i16_add_i16.
      assert (Hadd : forall a b c, i16 (i16 a + b + c) = i16 (a + b + c))
        by (intros; wrap_arith).
      rewrite Hadd. f_equal. unfold CHAR_W. nia.
    + now rewrite !i16_i16.
Qed.

Lemma cellDisplay_advances : @Text.advances_by_cells cellDisplay.
Proof. intros size c s. reflexivity. Qed.

Lemma print_advances_by_footprint_witness :
  cursor (@Label.print cellDisplay label_CO2 blank) = (10 + 48, 20) /\
  textSize (@Label.print cellDisplay label_CO2 blank) = 3.
Proof.
  apply (@print_advances_by_footprint cellDisplay label_CO2 blank
           cellDisplay_advances).
  - vm_compute. intuition discriminate.
  - right. vm_compute. intuition discriminate.
Defined.

(** ** changeName, changePosition and the aligned edge *)

Lemma land_changeName (l : Label.t) (name : string) (subscript : Z) :
  Label._alignment (Label.changeName l name subscript) = Label._alignment l /\
  Label._size (Label.changeName l name subscript) = Label._size l /\
  Label._y (Label.changeName l name subscript) = Label._y l /\
  Label._color (Label.changeName l name subscript) = Label._color l /\
  Label._name (Label.changeName l name subscript) = Label.CORRECT_DEGREE_CHAR name /\
  Label._subscript (Label.changeName l name subscript) = u8 subscript.
Proof.
  unfold Label.changeName, Label.correctForAlignment_name.
  destruct (Z.land (Label._alignment l) RIGHT =? RIGHT); repeat split.
Qed.

(** The right edge of a right-aligned label survives [changeName]. *)
Lemma rightEdge_changeName (l : Label.t) (newName : string) (newSubscript : Z) :
  Z.land (Label._alignment l) RIGHT = RIGHT ->
  Text.rightEdge (Label.changeName l newName newSubscript) = Text.rightEdge l.
Proof.
  intros Hr. unfold Text.rightEdge, Text.footprintWidth.
  destruct (land_changeName l newName newSubscript)
    as (_ & -> & _ & _ & -> & ->).
  rewrite (x_changeName_right l newName newSubscript Hr). cbv zeta.
  set (k := Label._size l * CHAR_W).
  replace ((WString.length (Label.CORRECT_DEGREE_CHAR newName)
            - WString.length (Label._name l)) * Label._size l * CHAR_W)
    with (WString.length (Label.CORRECT_DEGREE_CHAR newName) * k
          - WString.length (Label._name l) * k) by (subst k; ring).
  replace (WString.length (Label.CORRECT_DEGREE_CHAR newName) * Label._size l * CHAR_W)
    with (WString.length (Label.CORRECT_DEGREE_CHAR newName) * k) by (subst k; ring).
  replace (WString.length (Label._name l) * Label._size l * CHAR_W)
    with (WString.length (Label._name l) * k) by (subst k; ring).
  generalize (WString.length (Label.CORRECT_DEGREE_CHAR newName) * k).
  generalize (WString.length (Label._name l) * k). intros a b.
  destruct (Label._subscript l =? 0); destruct (u8 newSubscript =? 0);
    unfold CHAR_W; wrap_arith.
Qed.

(** X6: [changeName] keeps the aligned edge of the text where it is.  For a
    right-aligned label the right edge of the footprint (anchor plus one cell
    per character, less one [CHAR_W] for a subscript) is the same before and
    after, whatever the old and new lengths and subscripts; for a label that
    is not right-aligned the anchor itself stays.  The line never changes. *)
Theorem changeName_keeps_aligned_edge
    (l : Label.t) (newName : string) (newSubscript : Z) :
  let l' := Label.changeName l newName newSubscript in
  (Z.land (Label._alignment l) RIGHT = RIGHT -> Text.rightEdge l' = Text.rightEdge l) /\
  (Z.land (Label._alignment l) RIGHT <> RIGHT -> Label._x l' = Label._x l) /\
  Label._y l' = Label._y l.
Proof.
  intros l'. split; [ | split].
  - intros Hr. now apply rightEdge_changeName.
  - intros Hr. subst l'. now apply changeName_left_aligned.
  - subst l'. now destruct (land_changeName l newName newSubscript) as (_ & _ & -> & _).
Qed.

Lemma changeName_keeps_aligned_edge_witness :
  Text.rightEdge (Label.changeName label_value "CO2" 3) = Text.rightEdge label_value /\
  Text.rightEdge (Label.changeName label_value "1234" 0) = 148.
Proof.
  split.
  - apply (proj1 (changeName_keeps_aligned_edge label_value "CO2" 3)). reflexivity.
  - apply (proj1 (changeName_keeps_aligned_edge label_value "1234" 0)). reflexivity.
Defined.

Lemma label_eq (a b : Label.t) :
  Label._x a = Label._x b -> Label._y a = Label._y b ->
  Label._color a = Label._color b -> Label._size a = Label._size b ->
  Label._name a = Label._name b -> Label._subscript a = Label._subscript b ->
  Label._alignment a = Label._alignment b -> a = b.
Proof. destruct a, b. cbn. intros; subst; reflexivity. Qed.

(** X7: a second [changeName] makes the first one disappear: the label is the
    one a single [changeName] with the second content gives.  So the anchor
    does not drift however often the content is replaced. *)
Theorem changeName_absorbs_changeName
    (l : Label.t) (name1 name2 : string) (subscript1 subscript2 : Z) :
  Label.changeName (Label.changeName l name1 subscript1) name2 subscript2
  = Label.changeName l name2 subscript2.
Proof.
  destruct (land_changeName l name1 subscript1) as (Ha1 & Hs1 & Hy1 & Hc1 & Hn1 & Hb1).
  destruct (land_changeName (Label.changeName l name1 subscript1) name2 subscript2)
    as (Ha2 & Hs2 & Hy2 & Hc2 & Hn2 & Hb2).
  destruct (land_changeName l name2 subscript2) as (Ha & Hs & Hy & Hc & Hn & Hb).
  apply label_eq; try congruence.
  destruct (Z.eq_dec (Z.land (Label._alignment l) RIGHT) RIGHT) as [Hr | Hr].
  - rewrite (x_changeName_right _ name2 subscript2) by (rewrite Ha1; exact Hr).
    rewrite (x_changeName_right l name2 subscript2 Hr).
    rewrite (x_changeName_right l name1 subscript1 Hr).
    cbv zeta. rewrite Hs1, Hn1, Hb1.
    set (k := Label._size l * CHAR_W).
    replace ((WString.length (Label.CORRECT_DEGREE_CHAR name2)
              - WString.length (Label.CORRECT_DEGREE_CHAR name1)) * Label._size l * CHAR_W)
      with (WString.length (Label.CORRECT_DEGREE_CHAR name2) * k
            - WString.length (Label.CORRECT_DEGREE_CHAR name1) * k) by (subst k; ring).
    replace ((WString.length (Label.CORRECT_DEGREE_CHAR name2)
              - WString.length (Label._name l)) * Label._size l * CHAR_W)
      with (WString.length (Label.CORRECT_DEGREE_CHAR name2) * k
            - WString.length (Label._name l) * k) by (subst k; ring).
    replace ((WString.length (Label.CORRECT_DEGREE_CHAR name1)
              - WString.length (Label._name l)) * Label._size l * CHAR_W)
      with (WString.length (Label.CORRECT_DEGREE_CHAR name1) * k
            - WString.length (Label._name l) * k) by (subst k; ring).
    generalize (WString.length (Label.CORRECT_DEGREE_CHAR name2) * k).
    generalize (WString.length (Label.CORRECT_DEGREE_CHAR name1) * k).
    generalize (WString.length (Label._name l) * k). intros a b c.
    destruct (Label._subscript l =? 0); destruct (u8 subscript1 =? 0);
      destruct (u8 subscript2 =? 0); unfold CHAR_W; wrap_arith.
  - rewrite !changeName_left_aligned; try reflexivity; try exact Hr.
    rewrite Ha1. exact Hr.
Qed.

(** X8: the constructor resolves right alignment from the text as passed,
    before the degree sign is replaced.  For right-aligned text without a
    subscript the right edge of the stored content lies left of the requested
    x by one cell for every byte the replacement saved; it is at the requested
    x exactly when there is no two-byte degree sign in the text. *)
Theorem ctor_right_edge_counts_raw_bytes `{DISPLAY_TYPE}
    (X Y : Z) (T : string) (size color alignment : Z) (d : Display) :
  Z.land (u8 alignment) RIGHT = RIGHT ->
  let l := fst (Label.ctor X Y T size color 0 alignment d) in
  let saved := WString.length T - WString.length (Label._name l) in
  0 <= saved /\
  Text.rightEdge l = u16 (X - saved * u8 size * CHAR_W) /\
  (Text.hasDegree T = false -> Text.rightEdge l = u16 X).
Proof.
  intros Hr l saved.
  assert (Hname : Label._name l = Label.CORRECT_DEGREE_CHAR T) by apply name_ctor.
  destruct (replaceDegree_facts (String.length T) T (le_n _)) as (_ & Hlen & Hsame).
  assert (Hedge : Text.rightEdge l = u16 (X - saved * u8 size * CHAR_W)).
  { unfold Text.rightEdge, Text.footprintWidth. subst saved. rewrite Hname.
    subst l. unfold Label.ctor. cbn [fst].
    cbn [Label._x Label._size Label._subscript Label.set_name].
    rewrite x_correctForAlignment_right by exact Hr.
    replace (Label._size (Label.correctForAlignment _)) with (u8 size)
      by (unfold Label.correctForAlignment;
          repeat match goal with |- context [if ?b then _ else _] => destruct b end;
          reflexivity).
    rewrite subscript_correctForAlignment.
    cbn [Label._x Label._size Label._subscript Label._name].
    change (u8 0 =? 0) with true. cbv iota. rewrite Z.sub_0_r.
    generalize (WString.length (Label.CORRECT_DEGREE_CHAR T)).
    generalize (WString.length T). intros a b.
    replace ((a - b) * u8 size * CHAR_W)
      with (a * u8 size * CHAR_W - b * u8 size * CHAR_W) by ring.
    generalize (a * u8 size * CHAR_W). generalize (b * u8 size * CHAR_W).
    intros p q. wrap_arith. }
  split; [ | split].
  - subst saved. rewrite Hname. unfold Label.CORRECT_DEGREE_CHAR, WString.length. lia.
  - exact Hedge.
  - intros Hno. rewrite Hedge. subst saved. rewrite Hname.
    unfold Label.CORRECT_DEGREE_CHAR. rewrite (Hsame Hno).
    rewrite Z.sub_diag. f_equal. lia.
Qed.

Lemma ctor_right_edge_counts_raw_bytes_witness :
  let T := ("25" ++ String WString.deg0 (String WString.deg1 "C"))%string in
  let l := fst (@Label.ctor cellDisplay 200 50 T 2 65535 0 RIGHT blank) in
  WString.length T = 5 /\ WString.length (Label._name l) = 4 /\
  Text.rightEdge l = 200 - 1 * 2 * CHAR_W.
Proof.
  intros T l. split; [reflexivity | split; [reflexivity | ] ].
  exact (proj1 (proj2 (@ctor_right_edge_counts_raw_bytes cellDisplay 200 50 T 2
                         65535 RIGHT blank eq_refl))).
Defined.

(** X9: [changePosition] resolves the anchor as the constructor does: for a
    label whose members are in range and whose content holds no two-byte
    degree sign, it yields the very label the constructor builds from the
    stored content, size, colour and subscript at the new place. *)
Theorem changePosition_like_ctor `{DISPLAY_TYPE}
    (l : Label.t) (x y alignment : Z) (d : Display) :
  Label.wf l ->
  Text.hasDegree (Label._name l) = false ->
  Label.changePosition l x y alignment =
    fst (Label.ctor x y (Label._name l) (Label._size l) (Label._color l)
                    (Label._subscript l) alignment d).
Proof.
  intros (Hx & Hy & Hc & Hs & Hsub & Hal) Hno.
  destruct (replaceDegree_facts _ (Label._name l) (le_n _)) as (_ & _ & Hsame).
  unfold Label.changePosition, Label.ctor. cbn [fst].
  rewrite !u16_i16.
  rewrite (u16_small (Label._color l)), (u8_small (Label._size l)),
    (u8_small (Label._subscript l)) by assumption.
  set (l0 := Label.mk (u16 x) (u16 y) (Label._color l) (Label._size l)
                      (Label._name l) (Label._subscript l) (u8 alignment)).
  replace (Label.set_alignment (Label.set_y (Label.set_x l (u16 x)) (u16 y))
                               (u8 alignment)) with l0 by reflexivity.
  apply label_eq; cbn [Label._x Label._y Label._color Label._size Label._name
                       Label._subscript Label._alignment Label.set_name];
    try reflexivity.
  rewrite name_correctForAlignment. subst l0. cbn [Label._name].
  unfold Label.CORRECT_DEGREE_CHAR. symmetry. apply Hsame. exact Hno.
Qed.

Lemma changePosition_like_ctor_witness :
  Label.changePosition label_CO2 300 100 (Z.lor RIGHT BOTTOM) =
  fst (@Label.ctor cellDisplay 300 100 "CO2" 3 65535 3 (Z.lor RIGHT BOTTOM) blank).
Proof.
  apply (@changePosition_like_ctor cellDisplay label_CO2 300 100
           (Z.lor RIGHT BOTTOM) blank).
  - vm_compute. intuition discriminate.
  - reflexivity.
Defined.

(** ** ValueBar *)

Lemma fields_correctForAlignment (l : Label.t) :
  Label._size (Label.correctForAlignment l) = Label._size l /\
  Label._alignment (Label.correctForAlignment l) = Label._alignment l /\
  Label._color (Label.correctForAlignment l) = Label._color l.
Proof.
  unfold Label.correctForAlignment.
  repeat match goal with |- context [if ?b then _ else _] => destruct b end;
    repeat split.
Qed.

(** The label the constructor builds, member by member. *)
Lemma ctor_members `{DISPLAY_TYPE} (x y : Z) (name : string)
    (size color subscript alignment : Z) (d : Display) :
  let l := fst (Label.ctor x y name size color subscript alignment d) in
  Label._size l = u8 size /\
  Label._alignment l = u8 alignment /\
  Label._subscript l = u8 subscript /\
  Label._y l = (if Z.land (u8 alignment) BOTTOM =? BOTTOM
                then u16 (u16 y - u8 size * CHAR_H) else u16 y) /\
  (Z.land (u8 alignment) RIGHT <> RIGHT -> Label._x l = u16 x).
Proof.
  intros l. subst l. unfold Label.ctor. cbn [fst].
  cbn [Label._size Label._alignment Label._subscript Label._y Label._x
       Label.set_name].
  destruct (fields_correctForAlignment
              (Label.mk (u16 x) (u16 y) (u16 color) (u8 size) name
                        (u8 subscript) (u8 alignment))) as (-> & -> & _).
  rewrite subscript_correctForAlignment, y_correctForAlignment.
  cbn [Label._size Label._alignment Label._subscript Label._y].
  repeat split. intros Hl. now rewrite x_correctForAlignment_left.
Qed.

Lemma baseline_bottom_aligned `{DISPLAY_TYPE} (x y : Z) (name : string)
    (size color subscript alignment : Z) (d : Display) :
  Z.land (u8 alignment) BOTTOM = BOTTOM ->
  Text.baseline (fst (Label.ctor x y name size color subscript alignment d))
    = u16 y.
Proof.
  intros Hb. unfold Text.baseline.
  destruct (ctor_members x y name size color subscript alignment d)
    as (-> & _ & _ & -> & _).
  rewrite Hb, Z.eqb_refl. generalize (u8 size * CHAR_H). intros k. wrap_arith.
Qed.

Lemma baseline_changeName (l : Label.t) (name : string) (subscript : Z) :
  Text.baseline (Label.changeName l name subscript) = Text.baseline l.
Proof.
  unfold Text.baseline.
  now destruct (land_changeName l name subscript) as (_ & -> & -> & _).
Qed.

Lemma rightEdge_ctor_plain `{DISPLAY_TYPE} (x y : Z) (name : string)
    (size color alignment : Z) (d : Display) :
  Z.land (u8 alignment) RIGHT = RIGHT ->
  Text.hasDegree name = false ->
  Text.rightEdge (fst (Label.ctor x y name size color 0 alignment d)) = u16 x.
Proof.
  intros Hr Hno. unfold Text.rightEdge, Text.footprintWidth.
  destruct (ctor_members x y name size color 0 alignment d) as (-> & _ & -> & _).
  rewrite name_ctor. unfold Label.CORRECT_DEGREE_CHAR.
  destruct (replaceDegree_facts _ name (le_n _)) as (_ & _ & Hsame).
  rewrite (Hsame Hno).
  unfold Label.ctor. cbn [fst Label._x Label.set_name].
  rewrite x_correctForAlignment_right by exact Hr.
  cbn [Label._x Label._size Label._subscript Label._name].
  change (u8 0 =? 0) with true. cbv iota.
  generalize (WString.length name * u8 size * CHAR_W). intros k. wrap_arith.
Qed.

(** X10: the layout of a ValueBar is an invariant.  The constructor
    establishes it, and [refreshValue] (either overload) and [changeColor]
    keep it: the three labels stay on one line, name and unit keep their
    anchors, and the right edge of the value stays where it was whatever
    values are shown. *)
Theorem ValueBar_layout_invariant `{DISPLAY_TYPE} :
  (forall x y w h color textColor name unit subscript d,
      Layout.valueBar
        (fst (ValueBar.ctor x y w h color textColor name unit subscript d))) /\
  (forall vb val d,
      Layout.valueBar vb ->
      Layout.valueBar (fst (ValueBar.refreshValue_uint16 vb val d))) /\
  (forall vb val d,
      Layout.valueBar vb ->
      Layout.valueBar (fst (ValueBar.refreshValue_float vb val d))) /\
  (forall vb color d,
      Layout.valueBar vb ->
      Layout.valueBar (fst (ValueBar.changeColor vb color d))).
Proof.
  split; [ | split; [ | split] ].
  - intros x y w h color textColor name unit subscript d.
    unfold ValueBar.ctor. cbv zeta.
    repeat match goal with
           | |- context [Label.ctor ?a ?b ?c ?e ?f ?g ?i ?j] =>
               let l := fresh "l" in let d' := fresh "d" in
               let E := fresh "E" in
               destruct (Label.ctor a b c e f g i j) as [l d'] eqn:E;
               apply (f_equal fst) in E; cbn [fst] in E
           end.
    unfold Layout.valueBar. cbn [fst ValueBar.labels_0 ValueBar.labels_1
      ValueBar.labels_2 ValueBar._labels ValueBar._x ValueBar._y ValueBar._w
      ValueBar._h snd].
    subst l l0 l1.
    rewrite !baseline_bottom_aligned by reflexivity.
    rewrite rightEdge_ctor_plain by reflexivity.
    repeat split; try apply u16_i16.
    all: match goal with
         | |- Label._x (fst (Label.ctor ?a ?b ?c ?e ?f ?g ?i ?j)) = _ =>
             destruct (ctor_members a b c e f g i j) as (_ & _ & _ & _ & ->);
               [ apply u16_i16 | vm_compute; discriminate ]
         end.
  - intros vb val d (H0 & H1 & H2 & Hx0 & Hx2 & Hr & He).
    unfold Layout.valueBar, ValueBar.refreshValue_uint16, Label.changeName_uint16.
    cbn [fst ValueBar.set_labels_1 ValueBar.labels_0 ValueBar.labels_1
         ValueBar.labels_2 ValueBar._labels ValueBar._x ValueBar._y ValueBar._w
         ValueBar._h snd].
    rewrite baseline_changeName, rightEdge_changeName by exact Hr.
    destruct (land_changeName (ValueBar.labels_1 vb)
                (WString.ofUnsigned (u16 val)) 0) as (-> & _).
    repeat split; assumption.
  - intros vb val d (H0 & H1 & H2 & Hx0 & Hx2 & Hr & He).
    unfold Layout.valueBar, ValueBar.refreshValue_float, Label.changeName_float.
    cbn [fst ValueBar.set_labels_1 ValueBar.labels_0 ValueBar.labels_1
         ValueBar.labels_2 ValueBar._labels ValueBar._x ValueBar._y ValueBar._w
         ValueBar._h snd].
    rewrite baseline_changeName, rightEdge_changeName by exact Hr.
    destruct (land_changeName (ValueBar.labels_1 vb)
                (WString.ofFloat val 2) 0) as (-> & _).
    repeat split; assumption.
  - intros vb color d Hl. unfold ValueBar.changeColor.
    destruct (negb (u16 color =? ValueBar._color vb)); exact Hl.
Qed.

Lemma ValueBar_layout_invariant_witness :
  let vb := fst (@ValueBar.ctor cellDisplay 0 60 480 80 0 65535 "CO2" "ppm" 3 blank) in
  Layout.valueBar vb /\
  Layout.valueBar (fst (@ValueBar.refreshValue_uint16 cellDisplay vb 417 blank)).
Proof.
  intros vb.
  destruct (@ValueBar_layout_invariant cellDisplay) as (Hctor & Huint & _).
  split; [ apply Hctor | apply Huint, Hctor ].
Defined.

(** What [Label::print] sends is added behind what was sent before. *)
Lemma print_extends `{DISPLAY_TYPE} (l : Label.t) (d : Display) :
  exists sent, ops (Label.print l d) = ops d ++ sent.
Proof.
  unfold Label.print. cbv zeta.
  destruct (negb (Label._subscript l =? 0)).
  - repeat (rewrite ops_tft_print || rewrite ops_printChar
            || rewrite ops_setCursor || rewrite ops_setTextSize
            || rewrite ops_setTextColor).
    repeat rewrite <- app_assoc. eexists. reflexivity.
  - repeat (rewrite ops_tft_print || rewrite ops_printChar
            || rewrite ops_setCursor || rewrite ops_setTextSize
            || rewrite ops_setTextColor).
    repeat rewrite <- app_assoc. eexists. reflexivity.
Qed.

Lemma ops_fillRoundRect `{DISPLAY_TYPE} (x y w h r color : Z) (d : Display) :
  ops (Tft.fillRoundRect x y w h r color d)
    = ops d ++ [OpFillRoundRect (i16 x) (i16 y) (i16 w) (i16 h) (i16 r) (u16 color)].
Proof. reflexivity. Qed.

(** X11: [changeColor] does nothing when the colour is the one the bar has.
    Otherwise it paints the background in the new colour over the whole bar
    and then writes the name and the unit only: the value label is not
    printed again, and no label is changed. *)
Theorem changeColor_repaints_without_value `{DISPLAY_TYPE}
    (vb : ValueBar.t) (color : Z) (d : Display) :
  let inside l := Label._subscript l = 0 \/
                  1 <= Label._subscript l <= WString.length (Label._name l) in
  inside (ValueBar.labels_0 vb) ->
  inside (ValueBar.labels_2 vb) ->
  (u16 color = ValueBar._color vb -> ValueBar.changeColor vb color d = (vb, d)) /\
  (u16 color <> ValueBar._color vb ->
   let vb' := fst (ValueBar.changeColor vb color d) in
   let d' := snd (ValueBar.changeColor vb color d) in
   ValueBar._color vb' = u16 color /\
   ValueBar._labels vb' = ValueBar._labels vb /\
   (exists sent,
       ops d' = ops d
                ++ OpFillRoundRect (i16 (ValueBar._x vb)) (i16 (ValueBar._y vb))
                     (i16 (ValueBar._w vb)) (i16 (ValueBar._h vb)) 10
                     (u16 color) :: sent) /\
   Text.printed (ops d')
     = (Text.printed (ops d) ++ Label._name (ValueBar.labels_0 vb)
        ++ Label._name (ValueBar.labels_2 vb))%string).
Proof.
  intros inside H0 H2. unfold ValueBar.changeColor. split.
  - intros ->. now rewrite Z.eqb_refl.
  - intros Hne. apply Z.eqb_neq in Hne. rewrite Hne. cbn [negb fst snd].
    unfold ValueBar.draw, ValueBar.drawBackground.
    cbn [ValueBar.set_color ValueBar._color ValueBar._labels ValueBar._x
         ValueBar._y ValueBar._w ValueBar._h ValueBar.labels_0
         ValueBar.labels_2].
    change (ValueBar.labels_0 (ValueBar.set_color vb (u16 color)))
      with (ValueBar.labels_0 vb).
    change (ValueBar.labels_2 (ValueBar.set_color vb (u16 color)))
      with (ValueBar.labels_2 vb).
    repeat split.
    + set (d1 := Tft.fillRoundRect _ _ _ _ _ _ d).
      destruct (print_extends (ValueBar.labels_0 vb) d1) as [s1 E1].
      destruct (print_extends (ValueBar.labels_2 vb)
                  (Label.print (ValueBar.labels_0 vb) d1)) as [s2 E2].
      exists (s1 ++ s2). rewrite E2, E1. subst d1.
      rewrite ops_fillRoundRect, <- !app_assoc. cbn [app].
      now rewrite !u16_small by (pose proof (u16_range color); lia).
    + rewrite printed_print_inside by exact H2.
      rewrite printed_print_inside by exact H0.
      rewrite ops_fillRoundRect, printed_app. cbn [Text.printed].
      now rewrite string_app_nil_r, string_app_assoc.
Qed.

Lemma changeColor_repaints_without_value_witness :
  let vb := fst (@ValueBar.refreshValue_uint16 cellDisplay
                   (fst (@ValueBar.ctor cellDisplay 0 60 480 80 0 65535
                           "CO2" "ppm" 3 blank)) 417 blank) in
  Text.printed (ops (snd (@ValueBar.changeColor cellDisplay vb 63488 blank)))
    = "CO2ppm"%string.
Proof.
  intros vb.
  refine (proj2 (proj2 (proj2
            (proj2 (@changeColor_repaints_without_value cellDisplay vb 63488 blank
                      _ _) _)))).
  - right. vm_compute. split; discriminate.
  - left. reflexivity.
  - vm_compute. discriminate.
Defined.

(** ** HeaderBar *)

Lemma charOfInt_not_deg0 (k : Z) :
  -9 <= k <= 9 -> Ascii.eqb (Helper.charOfInt (48 + k)) WString.deg0 = false.
Proof.
  intros Hk.
  assert (Hcases : k = -9 \/ k = -8 \/ k = -7 \/ k = -6 \/ k = -5 \/ k = -4
                   \/ k = -3 \/ k = -2 \/ k = -1 \/ k = 0 \/ k = 1 \/ k = 2
                   \/ k = 3 \/ k = 4 \/ k = 5 \/ k = 6 \/ k = 7 \/ k = 8
                   \/ k = 9) by lia.
  repeat (destruct Hcases as [-> | Hcases]; [reflexivity | ]).
  subst k. reflexivity.
Qed.

Lemma rem_10_bounds (n : Z) : -9 <= Z.rem n 10 <= 9.
Proof.
  destruct (Z_lt_le_dec n 0) as [Hn | Hn].
  - pose proof (Z.rem_bound_pos_neg n 10 ltac:(lia) ltac:(lia)). lia.
  - pose proof (Z.rem_bound_pos_pos n 10 ltac:(lia) Hn). lia.
Qed.

(** [dig2] never produces the first byte of a degree sign. *)
Lemma plain_dig2 (number : Z) : Text.plain (Helper.dig2 number) = true.
Proof.
  rewrite dig2_chars. cbn [Text.plain].
  now rewrite !charOfInt_not_deg0 by apply rem_10_bounds.
Qed.

Lemma alignment_ctor `{DISPLAY_TYPE} (x y : Z) (name : string)
    (size color subscript alignment : Z) (d : Display) :
  Label._alignment (fst (Label.ctor x y name size color subscript alignment d))
    = u8 alignment.
Proof. apply (ctor_members x y name size color subscript alignment d). Qed.

Lemma x_ctor_left `{DISPLAY_TYPE} (x y : Z) (name : string)
    (size color subscript alignment : Z) (d : Display) :
  Z.land (u8 alignment) RIGHT <> RIGHT ->
  Label._x (fst (Label.ctor x y name size color subscript alignment d)) = u16 x.
Proof. apply (ctor_members x y name size color subscript alignment d). Qed.

Lemma rightEdge_ctor_uint16_zero `{DISPLAY_TYPE} (x y size color alignment : Z)
    (d : Display) :
  Z.land (u8 alignment) RIGHT = RIGHT ->
  Text.rightEdge (fst (Label.ctor_uint16 x y 0 size color alignment d)) = u16 x.
Proof.
  intros Hr. unfold Label.ctor_uint16. change (0 <? u16 0) with false. cbv iota.
  now apply rightEdge_ctor_plain.
Qed.

(** X12: the layout of a HeaderBar is an invariant.  The constructor takes
    the width from the display and establishes it, and [updateTime] and
    [updateDate] keep it: date and time stay on one line, the right edge of
    the date stays five pixels before the end of the bar whatever date is
    shown, and the time keeps its anchor. *)
Theorem HeaderBar_layout_invariant `{DISPLAY_TYPE} `{RTC_LIB} :
  (forall SD h color textColor logoFile sdbuffer0 s,
      let hb := fst (HeaderBar.ctor SD h color textColor logoFile sdbuffer0 s) in
      Layout.headerBar hb /\
      HeaderBar._w hb = Tft.width /\ HeaderBar.height hb = i16 h) /\
  (forall hb time d,
      Layout.headerBar hb ->
      Layout.headerBar (fst (HeaderBar.updateTime hb time d))) /\
  (forall hb date d,
      Layout.headerBar hb ->
      Layout.headerBar (fst (HeaderBar.updateDate hb date d))).
Proof.
  split; [ | split].
  - intros SD h color textColor logoFile sdbuffer0 s hb. subst hb.
    unfold HeaderBar.ctor. cbv zeta.
    match goal with |- context [HeaderBar.drawBackground ?a ?b ?c ?e ?f ?g ?h] =>
      generalize (HeaderBar.drawBackground a b c e f g h) end.
    intros s1.
    repeat match goal with
           | |- context [Label.ctor_uint16 ?a ?b ?c ?e ?f ?g ?i] =>
               let l := fresh "l" in let d' := fresh "d" in
               let E := fresh "E" in
               destruct (Label.ctor_uint16 a b c e f g i) as [l d'] eqn:E;
               apply (f_equal fst) in E; cbn [fst] in E
           end.
    unfold Layout.headerBar, HeaderBar.height.
    cbn [fst HeaderBar._date HeaderBar._time HeaderBar._w HeaderBar._h].
    subst l l0.
    rewrite rightEdge_ctor_uint16_zero by reflexivity.
    unfold Label.ctor_uint16.
    rewrite !baseline_bottom_aligned by reflexivity.
    rewrite !alignment_ctor.
    rewrite x_ctor_left by (vm_compute; discriminate).
    repeat split; try apply u16_i16.
    vm_compute. discriminate.
  - intros hb time d (Hd & Ht & Hdr & Hde & Htl & Htx).
    unfold Layout.headerBar, HeaderBar.updateTime.
    cbn [fst HeaderBar.set_time HeaderBar._date HeaderBar._time HeaderBar._w
         HeaderBar._h].
    rewrite baseline_changeName, changeName_left_aligned by exact Htl.
    match goal with |- context [Label.changeName ?l ?n ?s] =>
      destruct (land_changeName l n s) as (-> & _) end.
    repeat split; assumption.
  - intros hb date d (Hd & Ht & Hdr & Hde & Htl & Htx).
    unfold Layout.headerBar, HeaderBar.updateDate.
    cbn [fst HeaderBar.set_date HeaderBar._date HeaderBar._time HeaderBar._w
         HeaderBar._h].
    rewrite baseline_changeName, rightEdge_changeName by exact Hdr.
    match goal with |- context [Label.changeName ?l ?n ?s] =>
      destruct (land_changeName l n s) as (-> & _) end.
    repeat split; assumption.
Qed.

Lemma HeaderBar_layout_invariant_witness :
  let hb := fst (@HeaderBar.ctor cellDisplay (fun _ => None) 40 31 65535
                   "logo.bmp" [] (blank, [])) in
  Layout.headerBar hb /\
  Layout.headerBar (fst (@HeaderBar.updateDate cellDisplay dayClock hb noon blank)).
Proof.
  intros hb.
  destruct (@HeaderBar_layout_invariant cellDisplay dayClock) as (Hctor & _ & Hdate).
  split; [ apply Hctor | apply Hdate, Hctor ].
Defined.

Lemma clock_text (a b c d : ascii) :
  let s := String a (String b (String ":" (String c (String d EmptyString)))) in
  WString.length s = 5 /\
  WString.substring s 0 2 = String a (String b EmptyString) /\
  WString.charAt s 2 = ":"%char /\
  WString.substring s 3 5 = String c (String d EmptyString).
Proof. repeat split. Qed.

(** The text [dig2(a) + ':' + dig2(b)] as a label stores it. *)
Lemma clock_name (a b : Z) :
  let s := Label.CORRECT_DEGREE_CHAR
             (Helper.plusChar (Helper.dig2 a) ":" ++ Helper.dig2 b) in
  WString.length s = 5 /\
  WString.substring s 0 2 = Helper.dig2 a /\
  WString.charAt s 2 = ":"%char /\
  WString.substring s 3 5 = Helper.dig2 b.
Proof.
  intros s. subst s. rewrite CORRECT_DEGREE_CHAR_plain.
  - rewrite !dig2_chars. apply clock_text.
  - unfold Helper.plusChar. rewrite !plain_app, !plain_dig2. reflexivity.
Qed.

(** X13: [updateTime] erases the old time and prints the new one as five
    characters, two digits for the hour, a colon and two digits for the
    minute; each pair reads as the value modulo 100, so as the value itself
    for every time of day. *)
Theorem updateTime_shows_hour_and_minute `{DISPLAY_TYPE} `{RTC_LIB}
    (hb : HeaderBar.t) (time : DateTime) (d : Display) :
  let l := HeaderBar._time (fst (HeaderBar.updateTime hb time d)) in
  let name := Label._name l in
  WString.length name = 5 /\
  Helper.twoDigits (WString.substring name 0 2) = Some (u8 (hour time) mod 100) /\
  WString.charAt name 2 = ":"%char /\
  Helper.twoDigits (WString.substring name 3 5) = Some (u8 (minute time) mod 100) /\
  ops (snd (HeaderBar.updateTime hb time d))
    = ops (Label.erase (HeaderBar._time hb) (HeaderBar._color hb) d)
      ++ [OpSetCursor (i16 (Label._x l)) (i16 (Label._y l));
          OpSetTextSize (u8 (Label._size l));
          OpSetTextColor (u16 (Label._color l));
          OpPrint name].
Proof.
  intros l name. subst name l. unfold HeaderBar.updateTime.
  cbn [fst snd HeaderBar.set_time HeaderBar._time].
  match goal with |- context [Label.changeName ?l0 ?n ?s] =>
    set (l := Label.changeName l0 n s);
    destruct (land_changeName l0 n s) as (_ & _ & _ & _ & Hname & Hsub) end.
  fold l in Hname, Hsub. rewrite Hname.
  destruct (clock_name (u8 (hour time)) (u8 (minute time)))
    as (Hlen & Hh & Hcolon & Hm).
  rewrite Hlen, Hh, Hcolon, Hm.
  rewrite !twoDigits_dig2 by (pose proof (u8_range (hour time));
                              pose proof (u8_range (minute time)); lia).
  repeat split.
  rewrite ops_print_plain by exact Hsub. now rewrite Hname.
Qed.

Lemma date_text (a b c d : ascii) (y : string) :
  let s := String a (String b (String "." (String c (String d
             (String "." y))))) in
  WString.length s = 6 + WString.length y /\
  WString.substring s 0 2 = String a (String b EmptyString) /\
  WString.charAt s 2 = "."%char /\
  WString.substring s 3 5 = String c (String d EmptyString) /\
  WString.charAt s 5 = "."%char /\
  WString.substringFrom s 6 = y.
Proof.
  intros s. subst s. repeat split.
  - unfold WString.length. cbn [String.length]. lia.
  - unfold WString.substringFrom, WString.substring, WString.length.
    cbn [String.length].
    replace (Z.to_nat (Z.max 6 (Z.of_nat (S (S (S (S (S (S (String.length y))))))))
                       - 6)) with (String.length y) by lia.
    change (Z.to_nat 6) with 6%nat. cbn [String.substring].
    apply substring_whole, le_n.
Qed.

(** X14: [updateDate] erases the old date and prints the new one as day,
    month and year separated by dots: two digits each for day and month
    (the values modulo 100) and the year in decimal without padding. *)
Theorem updateDate_shows_day_month_year `{DISPLAY_TYPE} `{RTC_LIB}
    (hb : HeaderBar.t) (date : DateTime) (d : Display) :
  let l := HeaderBar._date (fst (HeaderBar.updateDate hb date d)) in
  let name := Label._name l in
  Helper.twoDigits (WString.substring name 0 2) = Some (u8 (day date) mod 100) /\
  WString.charAt name 2 = "."%char /\
  Helper.twoDigits (WString.substring name 3 5) = Some (u8 (month date) mod 100) /\
  WString.charAt name 5 = "."%char /\
  WString.substringFrom name 6 = WString.ofUnsigned (u16 (year date)) /\
  ops (snd (HeaderBar.updateDate hb date d))
    = ops (Label.erase (HeaderBar._date hb) (HeaderBar._color hb) d)
      ++ [OpSetCursor (i16 (Label._x l)) (i16 (Label._y l));
          OpSetTextSize (u8 (Label._size l));
          OpSetTextColor (u16 (Label._color l));
          OpPrint name].
Proof.
  intros l name. subst name l. unfold HeaderBar.updateDate.
  cbn [fst snd HeaderBar.set_date HeaderBar._date].
  match goal with |- context [Label.changeName ?l0 ?n ?s] =>
    set (l := Label.changeName l0 n s);
    destruct (land_changeName l0 n s) as (_ & _ & _ & _ & Hname & Hsub) end.
  fold l in Hname, Hsub. rewrite Hname.
  rewrite CORRECT_DEGREE_CHAR_plain
    by (unfold Helper.plusChar;
        rewrite !plain_app, !plain_dig2, plain_ofUnsigned; reflexivity).
  unfold Helper.plusChar. rewrite !dig2_chars. cbn [String.append].
  match goal with |- context [String ?a (String ?b (String "." (String ?c
                               (String ?e (String "." ?y)))))] =>
    destruct (date_text a b c e y) as (_ & Hd & Hdot1 & Hm & Hdot2 & Hy) end.
  rewrite Hd, Hdot1, Hm, Hdot2, Hy. rewrite <- !dig2_chars.
  rewrite !twoDigits_dig2 by (pose proof (u8_range (day date));
                              pose proof (u8_range (month date)); lia).
  repeat split.
  rewrite ops_print_plain by exact Hsub. rewrite Hname.
  rewrite CORRECT_DEGREE_CHAR_plain
    by (unfold Helper.plusChar;
        rewrite !plain_app, !plain_dig2, plain_ofUnsigned; reflexivity).
  reflexivity.
Qed.

(** ** CalibrationWarning *)



Lemma typeset_snd (size : Z) (s : string) :
  forall c, Text.oneLine s = true -> snd (Text.typeset size c s) = snd c.
Proof.
  induction s as [ | ch s IH]; intros c Hs; [reflexivity | ].
  cbn [Text.oneLine] in Hs. apply andb_true_iff in Hs as [Hch Hs].
  apply andb_true_iff in Hch as [Hlf Hcr].
  apply negb_true_iff in Hlf, Hcr.
  cbn [Text.typeset]. rewrite (IH _ Hs). unfold Text.step.
  now rewrite Hlf, Hcr.
Qed.

Lemma typeset_fst (size : Z) (s : string) :
  forall c, Text.oneLine s = true -> i16 (fst c) = fst c ->
    fst (Text.typeset size c s) = i16 (fst c + WString.length s * size * CHAR_W).
Proof.
  induction s as [ | ch s IH]; intros c Hs Hc.
  - cbn [Text.typeset]. unfold WString.length. cbn [String.length].
    rewrite <- Hc at 1. f_equal. lia.
  - cbn [Text.oneLine] in Hs. apply andb_true_iff in Hs as [Hch Hs].
    apply andb_true_iff in Hch as [Hlf Hcr].
    apply negb_true_iff in Hlf, Hcr.
    cbn [Text.typeset]. unfold Text.step at 1. rewrite Hlf, Hcr.
    rewrite (IH _ Hs) by (cbn [fst]; apply i16_i16).
    cbn [fst]. rewrite i16_add_i16. f_equal.
    unfold WString.length. cbn [String.length]. lia.
Qed.

Lemma typeset_line_end (size : Z) (s : string) (c : Z * Z) :
  Text.oneLine s = true ->
  Text.typeset size (Text.typeset size c s) Print.CRLF
    = (0, i16 (snd c + size * CHAR_H)).
Proof.
  intros Hs. change (Text.typeset size ?c' Print.CRLF)
    with (0, i16 (snd c' + size * CHAR_H)).
  now rewrite typeset_snd.
Qed.

Lemma state_fillRoundRect `{DISPLAY_TYPE} (x y w h r color : Z) (d : Display) :
  cursor (Tft.fillRoundRect x y w h r color d) = cursor d /\
  textSize (Tft.fillRoundRect x y w h r color d) = textSize d.
Proof. split; reflexivity. Qed.

Lemma state_newline `{DISPLAY_TYPE} (d : Display) :
  Text.writes_lines ->
  cursor (Print.newline d) = (0, i16 (snd (cursor d) + textSize d * CHAR_H)) /\
  textSize (Print.newline d) = textSize d.
Proof.
  intros Hlines. unfold Print.newline. display_state. rewrite Hlines.
  split; reflexivity.
Qed.

Lemma state_println `{DISPLAY_TYPE} (s : string) (d : Display) :
  Text.writes_lines -> Text.oneLine s = true ->
  cursor (Print.println s d) = (0, i16 (snd (cursor d) + textSize d * CHAR_H)) /\
  textSize (Print.println s d) = textSize d.
Proof.
  intros Hlines Hs. unfold Print.println, Print.newline. display_state.
  rewrite !Hlines. split; [ | reflexivity]. now apply typeset_line_end.
Qed.

Lemma state_indent `{DISPLAY_TYPE} `{RTC_LIB} (x : Z) (d : Display) :
  cursor (CalibrationWarning.indent x d) = (i16 x, i16 (snd (cursor d))) /\
  textSize (CalibrationWarning.indent x d) = textSize d.
Proof.
  unfold CalibrationWarning.indent, Tft.getCursorY. display_state.
  now rewrite i16_i16.
Qed.

Lemma state_print_oneLine `{DISPLAY_TYPE} (s : string) (d : Display) :
  Text.writes_lines -> Text.oneLine s = true ->
  i16 (fst (cursor d)) = fst (cursor d) ->
  cursor (Tft.print s d)
    = (i16 (fst (cursor d) + WString.length s * textSize d * CHAR_W),
       snd (cursor d)) /\
  textSize (Tft.print s d) = textSize d.
Proof.
  intros Hlines Hs Hc. display_state. rewrite Hlines. split; [ | reflexivity].
  rewrite (surjective_pairing (Text.typeset _ _ _)).
  now rewrite typeset_fst, typeset_snd.
Qed.

Lemma ctor_value `{DISPLAY_TYPE} `{RTC_LIB} (x y w h color textColor : Z)
    (d : Display) :
  fst (CalibrationWarning.ctor x y w h color textColor d)
    = CalibrationWarning.mk (i16 x) (i16 y) (u16 w) (u16 h) (u16 color)
        (u16 textColor) 2
        (Label.mk 480 320 (u16 textColor) 2 "CO2" 3 0)
        (Label.mk 480 320 (u16 textColor) 2 "    " 0 0)
        (Label.mk 480 320 (u16 textColor) 2 "     " 0 0)
        defaultDateTime.
Proof. reflexivity. Qed.

Lemma newline_below `{DISPLAY_TYPE} (d : Display) (Y ts : Z) :
  Text.writes_lines ->
  snd (cursor d) = i16 Y -> textSize d = ts ->
  snd (cursor (Print.newline d)) = i16 (Y + ts * CHAR_H) /\
  textSize (Print.newline d) = ts.
Proof.
  intros Hlines HY Hts. destruct (state_newline d Hlines) as (-> & ->).
  rewrite HY, Hts, i16_add_i16. split; reflexivity.
Qed.

Lemma println_below `{DISPLAY_TYPE} (s : string) (d : Display) (Y ts : Z) :
  Text.writes_lines -> Text.oneLine s = true ->
  snd (cursor d) = i16 Y -> textSize d = ts ->
  snd (cursor (Print.println s d)) = i16 (Y + ts * CHAR_H) /\
  textSize (Print.println s d) = ts.
Proof.
  intros Hlines Hs HY Hts. destruct (state_println s d Hlines Hs) as (-> & ->).
  rewrite HY, Hts, i16_add_i16. split; reflexivity.
Qed.

(** One instruction line: [indent(x0)] and [println(s)]. *)
Lemma line_below `{DISPLAY_TYPE} `{RTC_LIB} (s : string) (x : Z) (d : Display)
    (Y ts : Z) :
  Text.writes_lines -> Text.oneLine s = true ->
  snd (cursor d) = i16 Y -> textSize d = ts ->
  snd (cursor (Print.println s (CalibrationWarning.indent x d)))
    = i16 (Y + ts * CHAR_H) /\
  textSize (Print.println s (CalibrationWarning.indent x d)) = ts.
Proof.
  intros Hlines Hs HY Hts.
  destruct (state_indent x d) as (Hc & Ht).
  apply println_below; try assumption.
  rewrite Hc, HY. cbn [snd]. apply i16_i16.
Qed.

(** Text written after [indent(x)] on the current line. *)
Lemma print_indented `{DISPLAY_TYPE} `{RTC_LIB} (s : string) (x : Z)
    (d : Display) (Y ts : Z) :
  Text.writes_lines -> Text.oneLine s = true ->
  snd (cursor d) = i16 Y -> textSize d = ts ->
  fst (cursor (Tft.print s (CalibrationWarning.indent x d)))
    = i16 (x + WString.length s * ts * CHAR_W) /\
  snd (cursor (Tft.print s (CalibrationWarning.indent x d))) = i16 Y /\
  textSize (Tft.print s (CalibrationWarning.indent x d)) = ts.
Proof.
  intros Hlines Hs HY Hts.
  destruct (state_indent x d) as (Hc & Ht).
  assert (Hx : i16 (fst (cursor (CalibrationWarning.indent x d)))
               = fst (cursor (CalibrationWarning.indent x d)))
    by (rewrite Hc; cbn [fst]; apply i16_i16).
  destruct (state_print_oneLine s (CalibrationWarning.indent x d) Hlines Hs Hx)
    as (-> & ->).
  rewrite Hc, Ht, HY, Hts. cbn [fst snd].
  now rewrite i16_add_i16, i16_i16.
Qed.

Lemma changePosition_top_left (l : Label.t) (x y : Z) :
  Label.changePosition l x y (Z.lor TOP LEFT)
    = Label.mk (u16 (i16 x)) (u16 (i16 y)) (Label._color l) (Label._size l)
               (Label._name l) (Label._subscript l) 0.
Proof. reflexivity. Qed.

(** The cursor after printing a label without subscript on one line. *)
Lemma state_label_print_plain `{DISPLAY_TYPE} (l : Label.t) (d : Display) :
  Text.writes_lines ->
  Label._subscript l = 0 -> Text.oneLine (Label._name l) = true ->
  cursor (Label.print l d)
    = (i16 (Label._x l
            + WString.length (Label._name l) * u8 (Label._size l) * CHAR_W),
       i16 (Label._y l)) /\
  textSize (Label.print l d) = u8 (Label._size l).
Proof.
  intros Hlines H0 Hname. unfold Label.print. rewrite H0. cbn [Z.eqb negb].
  display_state. rewrite Hlines. split; [ | reflexivity].
  rewrite (surjective_pairing (Text.typeset _ _ _)).
  rewrite typeset_fst, typeset_snd by (try exact Hname; apply i16_i16).
  cbn [fst snd]. now rewrite i16_add_i16.
Qed.

(** The cursor after printing "CO2" with the 2 lowered, at size 2. *)
Lemma state_label_print_CO2 `{DISPLAY_TYPE} (x y color : Z) (d : Display) :
  Text.writes_lines ->
  cursor (Label.print (Label.mk x y color 2 "CO2" 3 0) d)
    = (i16 (x + 2 * 2 * CHAR_W + CHAR_W), i16 y) /\
  textSize (Label.print (Label.mk x y color 2 "CO2" 3 0) d) = 2.
Proof.
  intros Hlines. unfold Label.print.
  cbn [Label._x Label._y Label._color Label._size Label._name Label._subscript].
  change (negb (3 =? 0)) with true. cbv iota zeta.
  change (WString.substring "CO2" 0 (3 - 1)) with "CO"%string.
  change (WString.charAt "CO2" (3 - 1)) with "2"%char.
  change (WString.substringFrom "CO2" 3) with EmptyString.
  set (d1 := Tft.setTextColor color (Tft.setTextSize 2 (Tft.setCursor x y d))).
  assert (C1 : cursor d1 = (i16 x, i16 y) /\ textSize d1 = 2)
    by (subst d1; display_state; split; reflexivity).
  clearbody d1. destruct C1 as (C1 & S1).
  set (d2 := Tft.print "CO" d1).
  assert (C2 : cursor d2 = (i16 (x + 2 * 2 * CHAR_W), i16 y) /\ textSize d2 = 2).
  { subst d2.
    destruct (state_print_oneLine "CO" d1 Hlines eq_refl) as (-> & ->).
    - rewrite C1. cbn [fst]. apply i16_i16.
    - rewrite C1, S1. cbn [fst snd]. split; [ | reflexivity].
      now rewrite i16_add_i16. }
  clearbody d2. destruct C2 as (C2 & S2).
  unfold Tft.getCursorX at 2. unfold Tft.getCursorY. rewrite C2. cbn [fst snd].
  set (d3 := Tft.setTextSize (2 - 1) (Tft.setCursor _ _ d2)).
  assert (C3 : fst (cursor d3) = i16 (x + 2 * 2 * CHAR_W) /\ textSize d3 = 1).
  { subst d3. display_state. cbn [fst]. split; [ | reflexivity].
    now rewrite !i16_i16. }
  clearbody d3. destruct C3 as (C3 & S3).
  set (d4 := Tft.printChar "2" d3).
  assert (C4 : fst (cursor d4) = i16 (x + 2 * 2 * CHAR_W + CHAR_W)).
  { subst d4. change (cursor (Tft.printChar "2" d3)) with (cursor (Tft.print "2" d3)).
    destruct (state_print_oneLine "2" d3 Hlines eq_refl) as (-> & _).
    - rewrite C3. apply i16_i16.
    - rewrite C3, S3. cbn [fst]. rewrite i16_add_i16. reflexivity. }
  clearbody d4. unfold Tft.getCursorX. rewrite C4.
  display_state. rewrite Hlines. cbn [Text.typeset].
  split; [ | reflexivity]. now rewrite !i16_i16.
Qed.

(** Text written where the cursor stands. *)
Lemma print_on_line `{DISPLAY_TYPE} (s : string) (d : Display) (X Y ts : Z) :
  Text.writes_lines -> Text.oneLine s = true ->
  fst (cursor d) = i16 X -> snd (cursor d) = i16 Y -> textSize d = ts ->
  fst (cursor (Tft.print s d)) = i16 (X + WString.length s * ts * CHAR_W) /\
  snd (cursor (Tft.print s d)) = i16 Y /\
  textSize (Tft.print s d) = ts.
Proof.
  intros Hlines Hs HX HY Hts.
  destruct (state_print_oneLine s d Hlines Hs) as (-> & ->).
  - rewrite HX. apply i16_i16.
  - rewrite HX, HY, Hts. cbn [fst snd]. now rewrite i16_add_i16.
Qed.

(** A label moved to where the cursor stands, top left aligned. *)
Lemma changePosition_at_cursor `{DISPLAY_TYPE} (x0 y0 color size : Z)
    (name : string) (subscript alignment : Z) (d : Display) (X Y : Z) :
  fst (cursor d) = i16 X -> snd (cursor d) = i16 Y ->
  Label.changePosition (Label.mk x0 y0 color size name subscript alignment)
                       (Tft.getCursorX d) (Tft.getCursorY d) (Z.lor TOP LEFT)
    = Label.mk (u16 X) (u16 Y) color size name subscript 0.
Proof.
  intros HX HY. rewrite changePosition_top_left.
  unfold Tft.getCursorX, Tft.getCursorY. rewrite HX, HY.
  cbn [Label._color Label._size Label._name Label._subscript].
  now rewrite !i16_i16, !u16_i16.
Qed.

Lemma getCursorX_at `{DISPLAY_TYPE} (d : Display) (X : Z) :
  fst (cursor d) = i16 X -> Tft.getCursorX d = i16 X.
Proof. intros HX. unfold Tft.getCursorX. rewrite HX. apply i16_i16. Qed.

Lemma getCursorY_at `{DISPLAY_TYPE} (d : Display) (Y : Z) :
  snd (cursor d) = i16 Y -> Tft.getCursorY d = i16 Y.
Proof. intros HY. unfold Tft.getCursorY. rewrite HY. apply i16_i16. Qed.

(** The cursor after printing a label without subscript on one line. *)
Lemma print_plain_label `{DISPLAY_TYPE} (x y color size : Z) (name : string)
    (alignment : Z) (d : Display) :
  Text.writes_lines -> Text.oneLine name = true ->
  let l := Label.mk x y color size name 0 alignment in
  fst (cursor (Label.print l d))
    = i16 (x + WString.length name * u8 size * CHAR_W) /\
  snd (cursor (Label.print l d)) = i16 y /\
  textSize (Label.print l d) = u8 size.
Proof.
  intros Hlines Hname l.
  destruct (state_label_print_plain l d Hlines eq_refl Hname) as (-> & ->).
  repeat split.
Qed.

(** The cursor after printing "CO2" with the 2 lowered, at size 2. *)
Lemma print_CO2_label `{DISPLAY_TYPE} (x y color : Z) (d : Display) :
  Text.writes_lines ->
  let l := Label.mk x y color 2 "CO2" 3 0 in
  fst (cursor (Label.print l d)) = i16 (x + 2 * 2 * CHAR_W + CHAR_W) /\
  snd (cursor (Label.print l d)) = i16 y /\
  textSize (Label.print l d) = 2.
Proof.
  intros Hlines l.
  destruct (state_label_print_CO2 x y color d Hlines) as (Hc & Ht).
  fold l in Hc, Ht. rewrite Hc, Ht. repeat split.
Qed.

(** A label without subscript moved to a right-aligned position. *)
Lemma changePosition_right (l : Label.t) (x y : Z) :
  Label._subscript l = 0 ->
  let l' := Label.changePosition l x y RIGHT in
  Text.rightEdge l' = u16 x /\ Label._y l' = u16 y /\
  Z.land (Label._alignment l') RIGHT = RIGHT.
Proof.
  intros H0 l'. subst l'. unfold Label.changePosition. cbv zeta.
  set (l1 := Label.set_alignment _ _).
  assert (Hr : Z.land (Label._alignment l1) RIGHT = RIGHT) by reflexivity.
  unfold Text.rightEdge, Text.footprintWidth.
  destruct (fields_correctForAlignment l1) as (-> & -> & _).
  rewrite subscript_correctForAlignment, name_correctForAlignment,
    y_correctForAlignment, x_correctForAlignment_right by exact Hr.
  subst l1.
  cbn [Label.set_alignment Label.set_x Label.set_y Label._x Label._y
       Label._size Label._name Label._subscript Label._alignment].
  rewrite H0. cbn [Z.eqb]. split; [ | split; [ | reflexivity] ].
  - generalize (WString.length (Label._name l) * Label._size l * CHAR_W).
    intros k. wrap_arith.
  - change (Z.land (u8 RIGHT) BOTTOM =? BOTTOM) with false. cbv iota.
    apply u16_i16.
Qed.

Lemma u16_add_u16 (a b : Z) : u16 (u16 a + b) = u16 (a + b).
Proof. wrap_arith. Qed.

Lemma u16_add_i16 (a b : Z) : u16 (i16 a + b) = u16 (a + b).
Proof. wrap_arith. Qed.

Lemma i16_add_u16 (a b : Z) : i16 (u16 a + b) = i16 (a + b).
Proof. wrap_arith. Qed.

Lemma u16_add3_i16 (a b c : Z) : u16 (i16 a + b + c) = u16 (a + b + c).
Proof. wrap_arith. Qed.

Lemma i16_add3_u16 (a b c : Z) : i16 (u16 a + b + c) = i16 (a + b + c).
Proof. wrap_arith. Qed.

Lemma i16_add3_i16 (a b c : Z) : i16 (i16 a + b + c) = i16 (a + b + c).
Proof. wrap_arith. Qed.

Ltac wraps :=
  repeat first [ rewrite i16_i16 | rewrite i16_u16 | rewrite u16_i16
               | rewrite i16_add_i16 | rewrite u16_add_u16
               | rewrite u16_add_i16 | rewrite i16_add_u16
               | rewrite u16_add3_i16 | rewrite i16_add3_u16
               | rewrite i16_add3_i16 ].

(** Forward steps through the [let]s of [print]: the bound value gets a
    name and an equation. *)
Ltac next_let E v Hv :=
  match type of E with
  | (let x := ?a in @?f x) = ?r =>
      pose (v := a); assert (Hv : v = a) by reflexivity;
      change (f v = r) in E; cbv beta in E; clearbody v
  end.

Ltac line Hlines E p a Y' HY' :=
  let Ha := fresh "Ha" in
  next_let E a Ha;
  match type of Ha with
  | a = Print.println ?s (CalibrationWarning.indent ?x0 p) =>
      match goal with
      | Hy : snd (cursor p) = i16 ?Y, Hs : textSize p = ?ts |- _ =>
          let Hc := fresh "C" in
          let Ht := fresh "S" in
          destruct (line_below s x0 p Y ts Hlines eq_refl Hy Hs) as (Hc & Ht);
          rewrite <- Ha in Hc, Ht;
          clear Ha Hy Hs;
          remember (Y + ts * CHAR_H) as Y' eqn:HY' in Hc
      end
  end.

Ltac blank_line Hlines E p a Y' HY' :=
  let Ha := fresh "Ha" in
  next_let E a Ha;
  match type of Ha with
  | a = Print.newline p =>
      match goal with
      | Hy : snd (cursor p) = i16 ?Y, Hs : textSize p = ?ts |- _ =>
          let Hc := fresh "C" in
          let Ht := fresh "S" in
          destruct (newline_below p Y ts Hlines Hy Hs) as (Hc & Ht);
          rewrite <- Ha in Hc, Ht;
          clear Ha Hy Hs;
          remember (Y + ts * CHAR_H) as Y' eqn:HY' in Hc
      end
  end.

Ltac indented Hlines E p a F C S :=
  let Ha := fresh "Ha" in
  next_let E a Ha;
  match type of Ha with
  | a = Tft.print ?s (CalibrationWarning.indent ?x0 p) =>
      match goal with
      | Hy : snd (cursor p) = i16 ?Y, Hs : textSize p = ?ts |- _ =>
          destruct (print_indented s x0 p Y ts Hlines eq_refl Hy Hs)
            as (F & C & S);
          rewrite <- Ha in F, C, S; clear Ha
      end
  end.

(** X16: on a display that writes lines without wrapping, [print] of a
    freshly constructed CalibrationWarning moves the three labels from their
    parking position outside the panel into the text: the countdown follows
    ["Remaining time: "] on the eleventh text line, the CO2 name follows
    ["Current "] on the line below, and the CO2 value is right-aligned on that
    line with its right edge where the countdown ends; [" ppm "] is written
    from there.  [refreshCO2] keeps that right edge for every value. *)
Theorem print_places_the_labels `{DISPLAY_TYPE} `{RTC_LIB}
    (x y w h color textColor : Z) (d0 d : Display) :
  Text.writes_lines ->
  let cw := fst (CalibrationWarning.ctor x y w h color textColor d0) in
  let cw' := fst (CalibrationWarning.print cw d) in
  (Label._x (CalibrationWarning._countdown cw') = u16 (x + 10 + 16 * 2 * CHAR_W) /\
   Label._y (CalibrationWarning._countdown cw')
     = u16 (y + 10 + 3 * CHAR_H + 10 * (2 * CHAR_H))) /\
  (Label._x (CalibrationWarning._co2Name cw') = u16 (x + 10 + 8 * 2 * CHAR_W) /\
   Label._y (CalibrationWarning._co2Name cw')
     = u16 (y + 10 + 3 * CHAR_H + 11 * (2 * CHAR_H))) /\
  (Z.land (Label._alignment (CalibrationWarning._co2Value cw')) RIGHT = RIGHT /\
   Text.rightEdge (CalibrationWarning._co2Value cw')
     = u16 (x + 10 + (16 + 5) * 2 * CHAR_W) /\
   Label._y (CalibrationWarning._co2Value cw')
     = u16 (y + 10 + 3 * CHAR_H + 11 * (2 * CHAR_H))) /\
  cursor (snd (CalibrationWarning.print cw d))
    = (i16 (x + 10 + (16 + 5 + 5) * 2 * CHAR_W),
       i16 (y + 10 + 3 * CHAR_H + 11 * (2 * CHAR_H))) /\
  (forall val d2,
      Text.rightEdge (CalibrationWarning._co2Value
                        (fst (CalibrationWarning.refreshCO2 cw' val d2)))
        = u16 (x + 10 + (16 + 5) * 2 * CHAR_W)).
Proof.
  intros Hlines cw cw'.
  assert (Hmain :
    (Label._x (CalibrationWarning._countdown cw') = u16 (x + 10 + 16 * 2 * CHAR_W) /\
     Label._y (CalibrationWarning._countdown cw')
       = u16 (y + 10 + 3 * CHAR_H + 10 * (2 * CHAR_H))) /\
    (Label._x (CalibrationWarning._co2Name cw') = u16 (x + 10 + 8 * 2 * CHAR_W) /\
     Label._y (CalibrationWarning._co2Name cw')
       = u16 (y + 10 + 3 * CHAR_H + 11 * (2 * CHAR_H))) /\
    (Z.land (Label._alignment (CalibrationWarning._co2Value cw')) RIGHT = RIGHT /\
     Text.rightEdge (CalibrationWarning._co2Value cw')
       = u16 (x + 10 + (16 + 5) * 2 * CHAR_W) /\
     Label._y (CalibrationWarning._co2Value cw')
       = u16 (y + 10 + 3 * CHAR_H + 11 * (2 * CHAR_H))) /\
    cursor (snd (CalibrationWarning.print cw d))
      = (i16 (x + 10 + (16 + 5 + 5) * 2 * CHAR_W),
         i16 (y + 10 + 3 * CHAR_H + 11 * (2 * CHAR_H)))).
  2: { destruct Hmain as (Hc & Hn & (Hr & He & Hy) & Hcur).
       split; [exact Hc | ]. split; [exact Hn | ].
       split; [exact (conj Hr (conj He Hy)) | ]. split; [exact Hcur | ].
       intros val d2. unfold CalibrationWarning.refreshCO2, Label.changeName_uint16.
       cbn [fst CalibrationWarning.set_co2Value CalibrationWarning._co2Value].
       rewrite rightEdge_changeName by exact Hr. exact He. }
  subst cw'. destruct (CalibrationWarning.print cw d) as [cw1 d1] eqn:E.
  cbn [fst snd].
  assert (Hcw : CalibrationWarning._x cw = i16 x /\
                CalibrationWarning._y cw = i16 y /\
                CalibrationWarning._textsize cw = 2 /\
                CalibrationWarning._countdown cw
                  = Label.mk 480 320 (u16 textColor) 2 "     " 0 0 /\
                CalibrationWarning._co2Name cw
                  = Label.mk 480 320 (u16 textColor) 2 "CO2" 3 0 /\
                CalibrationWarning._co2Value cw
                  = Label.mk 480 320 (u16 textColor) 2 "    " 0 0)
    by (subst cw; rewrite ctor_value; repeat split).
  clearbody cw. destruct Hcw as (Hx & Hy & Hts & Hcd & Hnm & Hvl).
  cbv beta delta [CalibrationWarning.print] in E.
  rewrite Hx, Hy, Hts, Hcd, Hnm, Hvl in E.
  next_let E a1 H1. next_let E a2 H2. next_let E a3 H3. next_let E a4 H4.
  assert (Y4 : snd (cursor a4) = i16 (y + 10) /\ textSize a4 = 3).
  { subst a4 a3 a2 a1. display_state. cbn [snd]. split; [ | reflexivity].
    apply i16_add_i16. }
  clear H1 H2 H3 H4. destruct Y4 as (Y4 & S4).
  next_let E a5 H5. next_let E a6 H6.
  assert (Y6 : snd (cursor a6) = i16 (y + 10 + 3 * CHAR_H) /\ textSize a6 = 2).
  { subst a6 a5. display_state.
    destruct (println_below "Calibration!" a4 (y + 10) 3 Hlines eq_refl Y4 S4)
      as (-> & _).
    split; reflexivity. }
  clear H5 H6 Y4 S4. destruct Y6 as (Y6 & S6).
  remember (y + 10 + 3 * CHAR_H) as L0 eqn:HL0 in Y6.
  blank_line Hlines E a6 a7 L1 HL1.
  next_let E x0 Hx0.
  line Hlines E a7 a8 L2 HL2. line Hlines E a8 a9 L3 HL3.
  line Hlines E a9 a10 L4 HL4. line Hlines E a10 a11 L5 HL5.
  line Hlines E a11 a12 L6 HL6.
  blank_line Hlines E a12 a13 L7 HL7.
  line Hlines E a13 a14 L8 HL8. line Hlines E a14 a15 L9 HL9.
  blank_line Hlines E a15 a16 L10 HL10.
  indented Hlines E a16 a17 F17 C17 S17.
  remember (x0 + WString.length "Remaining time: " * 2 * CHAR_W) as X17
    eqn:HX17 in F17.
  next_let E countdown Hcountdown.
  rewrite (changePosition_at_cursor _ _ _ _ _ _ _ a17 X17 L10 F17 C17)
    in Hcountdown.
  next_let E a18 H18. rewrite Hcountdown in H18.
  destruct (print_plain_label (u16 X17) (u16 L10) (u16 textColor) 2 "     " 0
              a17 Hlines eq_refl) as (F18 & C18 & S18).
  rewrite <- H18 in F18, C18, S18. clear H18.
  remember (u16 X17 + WString.length "     " * u8 2 * CHAR_W) as X18
    eqn:HX18 in F18.
  next_let E xe Hxe. rewrite (getCursorX_at a18 X18 F18) in Hxe.
  blank_line Hlines E a18 a19 L11 HL11.
  indented Hlines E a19 a20 F20 C20 S20.
  remember (x0 + WString.length "Current " * u8 2 * CHAR_W) as X20
    eqn:HX20 in F20.
  next_let E co2Name HcName.
  rewrite (changePosition_at_cursor _ _ _ _ _ _ _ a20 X20 L11 F20 C20)
    in HcName.
  next_let E a21 H21. rewrite HcName in H21.
  destruct (print_CO2_label (u16 X20) (u16 L11) (u16 textColor) a20 Hlines)
    as (F21 & C21 & S21).
  rewrite <- H21 in F21, C21, S21. clear H21.
  next_let E a22 H22.
  destruct (print_on_line ": " a21 _ _ 2 Hlines eq_refl F21 C21 S21)
    as (F22 & C22 & S22).
  rewrite <- H22 in F22, C22, S22. clear H22.
  next_let E co2Value HcValue.
  rewrite (getCursorY_at a22 _ C22) in HcValue.
  match type of HcValue with
  | co2Value = Label.changePosition ?l ?px ?py RIGHT =>
      destruct (changePosition_right l px py eq_refl) as (He & Hyv & Hr)
  end.
  rewrite <- HcValue in He, Hyv, Hr. clear HcValue.
  indented Hlines E a22 a23 F23 C23 S23.
  injection E as <- <-.
  cbn [CalibrationWarning._countdown CalibrationWarning._co2Name
       CalibrationWarning._co2Value].
  rewrite He, Hyv, Hr, (surjective_pairing (cursor a23)), F23, C23,
    Hcountdown, HcName, Hxe.
  cbn [Label._x Label._y].
  assert (HYc : L10 = y + 10 + 3 * CHAR_H + 10 * (2 * CHAR_H))
    by (change (u8 2) with 2 in *; lia).
  rewrite HX18, HX17, HX20, Hx0, HL11, HYc.
  clear. unfold WString.length. cbn [String.length]. unfold CHAR_W, CHAR_H.
  change (u8 2) with 2.
  change (Z.of_nat 16) with 16. change (Z.of_nat 8) with 8.
  change (Z.of_nat 5) with 5.
  repeat match goal with |- _ /\ _ => split end; wraps;
    first [ f_equal; lia | f_equal; f_equal; lia ].
Qed.

Lemma lineDisplay_writes_lines : @Text.writes_lines lineDisplay.
Proof. intros size c s. reflexivity. Qed.

Lemma print_places_the_labels_witness :
  @Text.writes_lines lineDisplay /\
  Label._x (CalibrationWarning._countdown
              (fst (@CalibrationWarning.print lineDisplay dayClock
                      (fst (@CalibrationWarning.ctor lineDisplay dayClock
                              40 40 400 240 63488 65535 blank)) blank)))
    = u16 (40 + 10 + 16 * 2 * CHAR_W).
Proof.
  split; [exact lineDisplay_writes_lines | ].
  exact (proj1 (proj1 (@print_places_the_labels lineDisplay dayClock
                         40 40 400 240 63488 65535 blank blank
                         lineDisplay_writes_lines))).
Defined.

(** ** bmpReader: header fields *)

Lemma nth_after (pre l : list Z) (k : nat) :
  nth (List.length pre + k) (pre ++ l) 0 = nth k l 0.
Proof.
  rewrite app_nth2 by lia. f_equal. lia.
Qed.

Lemma read_past_end (f : File) :
  size f <= position f ->
  read f = (-1, f, [SdRead (position f) 0]).
Proof.
  intros Hend. unfold read, size in *.
  destruct (nth_error (content f) (Z.to_nat (position f))) as [b | ] eqn:Hb;
    [ | reflexivity].
  assert (Hlt : (Z.to_nat (position f) < List.length (content f))%nat)
    by (apply nth_error_Some; congruence).
  lia.
Qed.

(** X17: [read16] and [read32] decode little-endian: on the two or four
    bytes of [le16 v] or [le32 v], wherever they lie in the file, they give
    back [v] and move the position behind them.  At the end of the file
    nothing is consumed and every missing byte reads as 0xFF, so the results
    are 0xFFFF and 0xFFFFFFFF. *)
Theorem read16_read32_little_endian (pre post : list Z) (v : Z) :
  let p := Z.of_nat (List.length pre) in
  (0 <= v < 2 ^ 16 ->
   let r := read16 (mkFile (pre ++ le16 v ++ post) p) in
   fst (fst r) = v /\ position (snd (fst r)) = p + 2) /\
  (0 <= v < 2 ^ 32 ->
   let r := read32 (mkFile (pre ++ le32 v ++ post) p) in
   fst (fst r) = v /\ position (snd (fst r)) = p + 4) /\
  (forall f, size f <= position f ->
     read16 f = (2 ^ 16 - 1, f, [SdRead (position f) 0; SdRead (position f) 0]) /\
     read32 f = (2 ^ 32 - 1, f, [SdRead (position f) 0; SdRead (position f) 0;
                                 SdRead (position f) 0; SdRead (position f) 0])).
Proof.
  intros p. split; [ | split].
  - intros Hv r. subst r p.
    rewrite read16_at by (rewrite !length_app; cbn [List.length le16]; lia).
    cbn [fst snd position]. split; [ | lia].
    cbn [field]. rewrite <- (Nat.add_0_r (List.length pre)) at 1.
    replace (S (List.length pre)) with (List.length pre + 1)%nat by lia.
    rewrite !nth_after. cbn [nth le16 app]. unwrap.
    Z.to_euclidean_division_equations. lia.
  - intros Hv r. subst r p.
    rewrite read32_at by (rewrite !length_app; cbn [List.length le32]; lia).
    cbn [fst snd position]. split; [ | lia].
    cbn [field]. rewrite <- (Nat.add_0_r (List.length pre)) at 1.
    replace (S (S (S (List.length pre)))) with (List.length pre + 3)%nat by lia.
    replace (S (S (List.length pre))) with (List.length pre + 2)%nat by lia.
    replace (S (List.length pre)) with (List.length pre + 1)%nat by lia.
    rewrite !nth_after. cbn [nth le32 app]. unwrap.
    Z.to_euclidean_division_equations. lia.
  - intros f Hend. unfold read16, read32, bind.
    rewrite !(read_past_end f Hend). split; reflexivity.
Qed.

Lemma read16_read32_little_endian_witness :
  fst (fst (read32 (mkFile ([66; 77] ++ le32 4000000000 ++ [1; 2]) 2)))
    = 4000000000 /\
  read16 (mkFile [66] 1) = (65535, mkFile [66] 1, [SdRead 1 0; SdRead 1 0]).
Proof.
  split.
  - apply (proj1 (proj2 (read16_read32_little_endian [66; 77] [1; 2] 4000000000))).
    lia.
  - apply (proj2 (proj2 (read16_read32_little_endian [] [] 0)) (mkFile [66] 1)).
    vm_compute. discriminate.
Defined.

(** ** bmpReader: files that end inside the header *)

(** One [read()] of a file whose position is inside it or at its end. *)
Lemma read_moves (f : File) :
  0 <= position f <= size f ->
  content (snd (fst (read f))) = content f /\
  position (snd (fst (read f))) = Z.min (position f + 1) (size f) /\
  (position f = size f -> fst (fst (read f)) = -1).
Proof.
  intros Hpos. unfold read, size in *.
  destruct (nth_error (content f) (Z.to_nat (position f))) as [b | ] eqn:Hb;
    cbn [fst snd content position].
  - assert (Hlt : (Z.to_nat (position f) < List.length (content f))%nat)
      by (apply nth_error_Some; congruence).
    repeat split; lia.
  - apply nth_error_None in Hb. repeat split; lia.
Qed.

Ltac read_next f v f' t Hc Hp He :=
  let Hm := fresh "Hm" in
  pose proof (read_moves f) as Hm;
  destruct (read f) as [[v f'] t];
  cbn [fst snd] in Hm;
  destruct Hm as (Hc & Hp & He); [unfold size in *; lia | ].

Lemma read16_moves (f : File) :
  0 <= position f <= size f ->
  size (snd (fst (read16 f))) = size f /\
  position (snd (fst (read16 f))) = Z.min (position f + 2) (size f) /\
  (size f < position f + 2 -> 255 * 2 ^ 8 <= fst (fst (read16 f))).
Proof.
  intros Hpos. unfold read16, bind.
  read_next f b0 f1 t1 Hc1 Hp1 He1.
  assert (Hs1 : size f1 = size f) by (unfold size; now rewrite Hc1).
  read_next f1 b1 f2 t2 Hc2 Hp2 He2.
  assert (Hs2 : size f2 = size f) by (unfold size; congruence).
  cbn [ret fst snd]. repeat split; try congruence; try lia.
  intros Hshort. rewrite He2 by lia.
  change (u8 (-1)) with 255. pose proof (u8_range b0). lia.
Qed.

Lemma read32_moves (f : File) :
  0 <= position f <= size f ->
  size (snd (fst (read32 f))) = size f /\
  position (snd (fst (read32 f))) = Z.min (position f + 4) (size f) /\
  (size f < position f + 4 -> 255 * 2 ^ 24 <= fst (fst (read32 f))).
Proof.
  intros Hpos. unfold read32, bind.
  read_next f b0 f1 t1 Hc1 Hp1 He1.
  assert (Hs1 : size f1 = size f) by (unfold size; now rewrite Hc1).
  read_next f1 b1 f2 t2 Hc2 Hp2 He2.
  assert (Hs2 : size f2 = size f) by (unfold size; congruence).
  read_next f2 b2 f3 t3 Hc3 Hp3 He3.
  assert (Hs3 : size f3 = size f) by (unfold size; congruence).
  read_next f3 b3 f4 t4 Hc4 Hp4 He4.
  assert (Hs4 : size f4 = size f) by (unfold size; congruence).
  cbn [ret fst snd]. repeat split; try congruence; try lia.
  intros Hshort. rewrite He4 by lia.
  change (u8 (-1)) with 255.
  pose proof (u8_range b0). pose proof (u8_range b1). pose proof (u8_range b2).
  lia.
Qed.

(** A file shorter than the 34 bytes of header that [parse] reads: after
    [j] bytes have been asked for, at most [33 - j] are left. *)
Lemma read16_short (f : File) (j : Z) :
  0 <= position f <= size f -> size f <= position f + (33 - j) -> j + 2 <= 33 ->
  0 <= position (snd (fst (read16 f))) <= size (snd (fst (read16 f))) /\
  size (snd (fst (read16 f)))
    <= position (snd (fst (read16 f))) + (33 - (j + 2)).
Proof.
  intros Hpos Hleft Hj. destruct (read16_moves f Hpos) as (-> & -> & _). lia.
Qed.

Lemma read32_short (f : File) (j : Z) :
  0 <= position f <= size f -> size f <= position f + (33 - j) -> j + 4 <= 33 ->
  0 <= position (snd (fst (read32 f))) <= size (snd (fst (read32 f))) /\
  size (snd (fst (read32 f)))
    <= position (snd (fst (read32 f))) + (33 - (j + 4)).
Proof.
  intros Hpos Hleft Hj. destruct (read32_moves f Hpos) as (-> & -> & _). lia.
Qed.

(** A header field read in the middle of [parse]: the traffic stays reads
    only if it does after the field. *)
Lemma quiet_bind (m : M Z) (k : Z -> M unit) (f : File) :
  Forall header_read (snd (m f)) ->
  Forall header_read (snd (k (fst (fst (m f))) (snd (fst (m f))))) ->
  Forall header_read (snd (bind m k f)).
Proof.
  intros Hm Hk. unfold bind. destruct (m f) as [[a f1] t1].
  cbn [fst snd] in *. destruct (k a f1) as [[b f2] t2]. cbn [snd] in *.
  apply Forall_app. now split.
Qed.

Ltac field16 Hpos Hleft :=
  apply quiet_bind; [apply reads_only_read16 | ];
  match goal with |- context [read16 ?f] =>
    let Hnew := fresh "Hnew" in
    pose proof (read16_short f _ Hpos Hleft ltac:(lia)) as Hnew;
    clear Hpos Hleft;
    generalize dependent (read16 f); intros [[? ?] ?];
    cbn [fst snd]; intros (Hpos & Hleft)
  end.

Ltac field32 Hpos Hleft :=
  apply quiet_bind; [apply reads_only_read32 | ];
  match goal with |- context [read32 ?f] =>
    let Hnew := fresh "Hnew" in
    pose proof (read32_short f _ Hpos Hleft ltac:(lia)) as Hnew;
    clear Hpos Hleft;
    generalize dependent (read32 f); intros [[? ?] ?];
    cbn [fst snd]; intros (Hpos & Hleft)
  end.

Ltac rejected_or_on :=
  match goal with |- context [if ?c then _ else _] =>
    destruct c; [ | constructor] end.

Lemma parse_truncated `{DISPLAY_TYPE} (x y : Z) (buf bytes : list Z) :
  (List.length bytes < 34)%nat ->
  Forall header_read (snd (parse x y buf (mkFile bytes 0))).
Proof.
  intros Hlen. unfold parse.
  assert (Hpos : 0 <= position (mkFile bytes 0) <= size (mkFile bytes 0))
    by (unfold size; cbn [content position]; lia).
  assert (Hleft : size (mkFile bytes 0) <= position (mkFile bytes 0) + (33 - 0))
    by (unfold size; cbn [content position]; lia).
  clear Hlen.
  field16 Hpos Hleft. rejected_or_on.
  field32 Hpos Hleft. field32 Hpos Hleft. field32 Hpos Hleft.
  field32 Hpos Hleft. field32 Hpos Hleft. field32 Hpos Hleft.
  field16 Hpos Hleft. rejected_or_on.
  field16 Hpos Hleft. rejected_or_on.
  apply quiet_bind; [apply reads_only_read32 | ].
  match goal with |- context [read32 ?f] =>
    destruct (read32_moves f Hpos) as (_ & _ & Hv);
    assert (Hbig : 255 * 2 ^ 24 <= fst (fst (read32 f))) by (apply Hv; lia);
    clear Hv; generalize dependent (read32 f); intros [[c ?] ?];
    cbn [fst snd]; intros Hbig
  end.
  replace (c =? 0) with false by (symmetry; apply Z.eqb_neq; lia).
  constructor.
Qed.

Lemma header_read_quiet (t : list BusOp) :
  Forall header_read t -> pushed t = [] /\ existsb is_display t = false.
Proof.
  induction 1 as [ | o t (pos & n & ->) _ (Hp & Hd)]; [split; reflexivity | ].
  cbn [pushed existsb is_display orb]. now split.
Qed.

(** X18: a file that ends inside the 34 bytes of header that [draw] reads is
    never drawn, whatever its bytes are: the missing bytes read as 0xFF, so a
    check fails at the latest on the compression field.  The file is opened,
    read byte by byte and closed; nothing is sent to the display. *)
Theorem draw_ignores_truncated_header `{DISPLAY_TYPE}
    (SD : string -> option (list Z)) (sdbuffer0 : list Z)
    (filename : string) (x y : Z) (bytes : list Z) :
  i16 x < Tft.width -> i16 y < Tft.height ->
  SD filename = Some bytes ->
  (List.length bytes < 34)%nat ->
  exists reads,
    Forall header_read reads /\
    draw SD sdbuffer0 filename x y = SdOpen true :: reads ++ [SdClose] /\
    pushed (draw SD sdbuffer0 filename x y) = [] /\
    existsb is_display (draw SD sdbuffer0 filename x y) = false.
Proof.
  intros Hx Hy Hopen Hlen.
  pose proof (parse_truncated (i16 x) (i16 y) sdbuffer0 bytes Hlen) as Hquiet.
  unfold draw. cbv zeta.
  replace (Tft.width <=? i16 x) with false by (symmetry; apply Z.leb_gt; lia).
  replace (Tft.height <=? i16 y) with false by (symmetry; apply Z.leb_gt; lia).
  cbn [orb]. rewrite Hopen.
  destruct (parse (i16 x) (i16 y) sdbuffer0 (mkFile bytes 0)) as [[u f] t].
  cbn [snd] in Hquiet. destruct (header_read_quiet t Hquiet) as (Hp & Hd).
  exists t. split; [exact Hquiet | split; [reflexivity | ] ].
  cbn [pushed existsb is_display orb].
  rewrite pushed_app, existsb_app, Hp, Hd. split; reflexivity.
Qed.

Lemma draw_ignores_truncated_header_witness :
  pushed (@draw cellDisplay (card "logo.bmp" (firstn 33 plain_1x1)) stack0
            "logo.bmp" 0 0) = [] /\
  existsb is_display
    (@draw cellDisplay (card "logo.bmp" (firstn 33 plain_1x1)) stack0
       "logo.bmp" 0 0) = false.
Proof.
  destruct (@draw_ignores_truncated_header cellDisplay
              (card "logo.bmp" (firstn 33 plain_1x1)) stack0 "logo.bmp" 0 0
              (firstn 33 plain_1x1))
    as (reads & _ & _ & Hp & Hd).
  - vm_compute. reflexivity.
  - vm_compute. reflexivity.
  - reflexivity.
  - vm_compute. lia.
  - split; assumption.
Defined.

(** ** bmpReader: the number of pixels pushed *)



